(** * The location synchronisation driver of [main2.py]

  A shallow embedding of [read_location_ids],
  [clear_patients_to_sync_folder], [process_location] and [main], with the
  file system, the progress store and the external collaborators made
  explicit, followed by the properties the design document states about
  them. *)

From Stdlib Require Import ZArith Ascii String List Lia Bool Sorted.
From stdpp Require Import gmap strings list fin_maps.

Set Warnings "-register-all".

(** ** Text as Python reads it *)

Module Text.

(** [str.isspace] on the characters below 256: the ASCII controls
    TAB..CR, the separators FS..US, the blank, NEL and the no-break
    space. *)
Definition isspace (c : ascii) : bool :=
  let n := N_of_ascii c in
  ((9 <=? n) && (n <=? 13) || (28 <=? n) && (n <=? 32)
   || (n =? 133) || (n =? 160))%N.

Definition LF : ascii := "010"%char.
Definition CR : ascii := "013"%char.

(** [open(path, 'r')] reads with universal newlines: CR LF and a lone CR
    both arrive as LF. *)
Fixpoint universal_newlines (s : string) : string :=
  match s with
  | EmptyString => EmptyString
  | String c rest =>
      if Ascii.eqb c CR then
        match rest with
        | String c' rest' =>
            if Ascii.eqb c' LF then String LF (universal_newlines rest')
            else String LF (universal_newlines rest)
        | EmptyString => String LF EmptyString
        end
      else String c (universal_newlines rest)
  end.

(** Iterating a text file yields its lines, each one with its closing LF,
    the last one without when the text does not end in LF. *)
Fixpoint lines (s : string) : list string :=
  match s with
  | EmptyString => []
  | String c rest =>
      if Ascii.eqb c LF then String LF EmptyString :: lines rest
      else match lines rest with
           | [] => [String c EmptyString]
           | l :: ls => String c l :: ls
           end
  end.

Fixpoint lstrip (s : string) : string :=
  match s with
  | EmptyString => EmptyString
  | String c rest => if isspace c then lstrip rest else s
  end.

Fixpoint rstrip (s : string) : string :=
  match s with
  | EmptyString => EmptyString
  | String c rest =>
      match rstrip rest with
      | EmptyString => if isspace c then EmptyString else String c EmptyString
      | r => String c r
      end
  end.

(** [str.strip()] *)
Definition strip (s : string) : string := rstrip (lstrip s).

(** Truth value of a [str]: non-empty. *)
Definition truthy (s : string) : bool :=
  match s with EmptyString => false | String _ _ => true end.

(** A line made of whitespace only (the empty line included). *)
Fixpoint all_whitespace (s : string) : bool :=
  match s with
  | EmptyString => true
  | String c rest => isspace c && all_whitespace rest
  end.

(** The lines a text file yields when iterated. *)
Definition file_lines (content : string) : list string :=
  lines (universal_newlines content).

End Text.

(** ** JSON documents and Python dictionaries *)

Inductive json :=
| JNull
| JString (s : string)
| JArray (items : list json)
| JObject (members : list (string * json)).

(** The unit map: PatientId to its EncounterIds, in the dictionary's
  insertion order. *)
Abbreviation Snapshot := (list (string * list string)).

(** The progress document: LocationId to the PatientIds completed. *)
Abbreviation ProgressDocument := (gmap string (list string)).

Module Json.

(** [d[k] = v] on an insertion-ordered dictionary: a known key keeps its
    place and takes the new value, a new key goes last. *)
Fixpoint dict_set {V} (k : string) (v : V) (d : list (string * V))
  : list (string * V) :=
  match d with
  | [] => [(k, v)]
  | (k', v') :: rest =>
      if String.eqb k k' then (k, v) :: rest
      else (k', v') :: dict_set k v rest
  end.

Definition dict_of_pairs {V} (ps : list (string * V)) : list (string * V) :=
  fold_left (fun d kv => dict_set (fst kv) (snd kv) d) ps [].

(** What [json.dump] writes for a unit map. *)
Definition dump (m : Snapshot) : json :=
  JObject (map (fun kv => (fst kv, JArray (map JString (snd kv)))) m).

Definition load_string (j : json) : option string :=
  match j with JString s => Some s | _ => None end.

Fixpoint load_strings (js : list json) : option (list string) :=
  match js with
  | [] => Some []
  | j :: rest =>
      match load_string j, load_strings rest with
      | Some s, Some ss => Some (s :: ss)
      | _, _ => None
      end
  end.

Fixpoint load_members (ms : list (string * json)) : option Snapshot :=
  match ms with
  | [] => Some []
  | (k, JArray js) :: rest =>
      match load_strings js, load_members rest with
      | Some ss, Some ps => Some ((k, ss) :: ps)
      | _, _ => None
      end
  | _ => None
  end.

(** What [json.load] gives back as a unit map: the members enter a fresh
    dictionary one by one. [None] when the document is not an object of
    string arrays. *)
Definition load (j : json) : option Snapshot :=
  match j with
  | JObject ms => option_map dict_of_pairs (load_members ms)
  | _ => None
  end.

End Json.

(** ** Exceptions, collaborator replies and the observable events *)

(** An instance of [Exception] (what [except Exception] catches). *)
Inductive Exn := Exception (msg : string).

(** How a call into an external collaborator ends. *)
Inductive Reply (A : Type) :=
| Returns (a : A)
| Raises (e : Exn).
Arguments Returns {A} a.
Arguments Raises {A} e.

(** Where a symbolic link of the staging directory points: at the entry
    [name] of the same directory, or somewhere else, where it resolves to a
    regular file or does not. *)
Inductive LinkTarget :=
| Sibling (name : string)
| Outside (is_file : bool).

(** Entries of the staging directory. [removable] tells whether [os.unlink]
    succeeds on the entry. *)
Inductive Node :=
| RegularFile (removable : bool)
| Directory (entries : gmap string Node)
| Special
| SymLink (target : LinkTarget) (removable : bool).

(** What a run does to the outside, in order. Tracker operations carry the
    identity of the [ProgressTracker] object they are called on;
    [EvUpdateFailed] is a recording that could not be persisted. Log lines
    and console output are not recorded. *)
Inductive Event :=
| EvLocation (loc : string)
| EvListdir (dir : string)
| EvUnlink (path : string) (ok : bool)
| EvNewTracker (id : nat) (file : string)
| EvGetProgress (id : nat) (loc : string) (r : option (list string))
| EvResetProgress (id : nat) (loc : string)
| EvUpdateProgress (id : nat) (loc pid : string)
| EvConnect (r : Reply unit)
| EvFetch (loc : string) (types : list string) (r : Reply (option Snapshot))
| EvTruncate (file : string)
| EvDump (file : string) (j : json)
| EvLoad (file : string) (m : Snapshot)
| EvProcess (pid : string) (encs : list string) (loc : string) (r : Reply unit)
| EvUpload (r : Reply unit)
| EvUpdateFailed (id : nat) (loc pid : string).

(** How a computation ends: it returns, [sys.exit(status)] unwinds it, or an
    [Exception] propagates. [SystemExit] is not an [Exception]. *)
Inductive Res (A : Type) :=
| Ok (a : A)
| SysExit (status : Z)
| Raise (e : Exn).
Arguments Ok {A} a.
Arguments SysExit {A} status.
Arguments Raise {A} e.

(** The status the interpreter exits with: 0 when the program returns, the
    argument of [sys.exit], 1 on an uncaught exception. *)
Definition exit_status {A} (r : Res A) : Z :=
  match r with
  | Ok _ => 0
  | SysExit s => s
  | Raise _ => 1
  end.

Section Program.

(** The private state of the collaborators (database session, remote
    server, ...). *)
Context {E : Type}.

(** Everything a run can read or change. The staging directory
    [patients_to_sync/] is the only directory the program lists:
    [w_staging] holds its entries, [w_listable] tells whether it exists and
    can be read, and [w_rank] gives the order in which the file system
    hands out its names (smaller rank first). Files are kept by path: text
    files, JSON files ([None] is a file of zero bytes) and progress
    documents; [w_persist_ok doc] tells whether the progress document [doc]
    can be written to durable storage. Writing a JSON file always
    succeeds. *)
Record World := {
  w_ext : E;
  w_staging : gmap string Node;
  w_listable : bool;
  w_rank : string -> nat;
  w_text : gmap string string;
  w_json : gmap string (option json);
  w_progress : gmap string (gmap string (list string));
  w_persist_ok : gmap string (list string) -> bool;
  w_next_id : nat
}.

Definition set_shared (x : E * gmap string Node) (w : World) : World :=
  {| w_ext := fst x; w_staging := snd x; w_listable := w_listable w;
     w_rank := w_rank w; w_text := w_text w;
     w_json := w_json w; w_progress := w_progress w;
     w_persist_ok := w_persist_ok w; w_next_id := w_next_id w |}.

Definition set_staging (d : gmap string Node) (w : World) : World :=
  set_shared (w_ext w, d) w.

Definition set_json (f : gmap string (option json)) (w : World) : World :=
  {| w_ext := w_ext w; w_staging := w_staging w;
     w_listable := w_listable w; w_rank := w_rank w; w_text := w_text w;
     w_json := f; w_progress := w_progress w;
     w_persist_ok := w_persist_ok w; w_next_id := w_next_id w |}.

Definition set_progress (p : gmap string (gmap string (list string)))
  (w : World) : World :=
  {| w_ext := w_ext w; w_staging := w_staging w;
     w_listable := w_listable w; w_rank := w_rank w; w_text := w_text w;
     w_json := w_json w; w_progress := p;
     w_persist_ok := w_persist_ok w; w_next_id := w_next_id w |}.

Definition set_next_id (n : nat) (w : World) : World :=
  {| w_ext := w_ext w; w_staging := w_staging w;
     w_listable := w_listable w; w_rank := w_rank w; w_text := w_text w;
     w_json := w_json w; w_progress := w_progress w;
     w_persist_ok := w_persist_ok w; w_next_id := n |}.

(** A finished computation: the events it produced, the world it left and
    how it ended. *)
Record Run (A : Type) := {
  events : list Event;
  final : World;
  result : Res A
}.
Arguments events {A} _.
Arguments final {A} _.
Arguments result {A} _.

Definition M (A : Type) : Type := World -> Run A.

Definition ret {A} (a : A) : M A :=
  fun w => {| events := []; final := w; result := Ok a |}.

Definition bind {A B} (m : M A) (k : A -> M B) : M B :=
  fun w =>
    let r := m w in
    match result r with
    | Ok a =>
        let r' := k a (final r) in
        {| events := events r ++ events r'; final := final r';
           result := result r' |}
    | SysExit s =>
        {| events := events r; final := final r; result := SysExit s |}
    | Raise e =>
        {| events := events r; final := final r; result := Raise e |}
    end.

Definition emit (ev : Event) : M unit :=
  fun w => {| events := [ev]; final := w; result := Ok tt |}.

Definition sys_exit {A} (status : Z) : M A :=
  fun w => {| events := []; final := w; result := SysExit status |}.

Definition raise {A} (e : Exn) : M A :=
  fun w => {| events := []; final := w; result := Raise e |}.

(** [try: body except Exception as e: handler(e)] *)
Definition try_except {A} (body : M A) (handler : Exn -> M A) : M A :=
  fun w =>
    let r := body w in
    match result r with
    | Raise e =>
        let r' := handler e (final r) in
        {| events := events r ++ events r'; final := final r';
           result := result r' |}
    | _ => r
    end.

Definition modify (f : World -> World) : M unit :=
  fun w => {| events := []; final := f w; result := Ok tt |}.

Definition gets {A} (f : World -> A) : M A :=
  fun w => {| events := []; final := w; result := Ok (f w) |}.

End Program.

Arguments World : clear implicits.
Arguments M : clear implicits.
Arguments Run : clear implicits.
Arguments events {E A} _.
Arguments final {E A} _.
Arguments result {E A} _.

Declare Scope py_scope.
Delimit Scope py_scope with py.
Notation "x <- m ;; k" := (bind m (fun x => k))
  (at level 100, m at next level, right associativity) : py_scope.
Notation "m ;; k" := (bind m (fun _ => k))
  (at level 100, right associativity) : py_scope.

(** ** The program *)

Section Operations.

Context {E : Type}.
Local Open Scope py_scope.

(** *** [read_location_ids] *)

(** [os.path.isfile] holds of the paths kept as text files. The list
    comprehension keeps the lines whose stripped form is truthy and yields
    the stripped form. *)
Definition read_location_ids (file_path : string) : M E (list string) :=
  texts <- gets w_text ;;
  match texts !! file_path with
  | None => sys_exit 1
  | Some content =>
      let location_ids :=
        map Text.strip
          (List.filter (fun line => Text.truthy (Text.strip line))
             (Text.file_lines content)) in
      match location_ids with
      | [] => sys_exit 1
      | _ => ret location_ids
      end
  end.

(** *** [clear_patients_to_sync_folder] *)

Definition patients_to_sync_dir : string := "patients_to_sync".

(** [os.path.join] *)
Definition path_join (dir name : string) : string := dir +:+ "/" +:+ name.

(** The operating system follows at most this many symbolic links when it
    resolves a path. *)
Definition max_links : nat := 40.

(** [os.stat] on the entry [name] of directory [d] finds a regular file:
    symbolic links are followed, at most [fuel] of them; a link that
    dangles, loops or leads to anything else does not resolve to a file. *)
Fixpoint resolves_to_file (fuel : nat) (d : gmap string Node) (name : string)
  : bool :=
  match d !! name with
  | Some (RegularFile _) => true
  | Some (SymLink (Outside is_file) _) => is_file
  | Some (SymLink (Sibling target) _) =>
      match fuel with
      | 0 => false
      | S fuel' => resolves_to_file fuel' d target
      end
  | _ => false
  end.

(** [os.path.isfile] on an entry of the staging directory; it follows
    symbolic links. *)
Definition isfile (filename : string) : M E bool :=
  gets (fun w => resolves_to_file max_links (w_staging w) filename).

(** [os.unlink] on an entry of the staging directory: a removable file or
    link (or a special node) goes, the link itself and not what it points
    at; anything else raises [OSError]. *)
Definition unlink (filename : string) : M E unit :=
  let file_path := path_join patients_to_sync_dir filename in
  d <- gets w_staging ;;
  match d !! filename with
  | Some (RegularFile true) | Some Special | Some (SymLink _ true) =>
      modify (set_staging (delete filename d)) ;;
      emit (EvUnlink file_path true)
  | _ =>
      emit (EvUnlink file_path false) ;;
      raise (Exception "OSError")
  end.

(** One turn of the [for filename in os.listdir(...)] loop. *)
Definition clear_entry (filename : string) : M E unit :=
  try_except
    (is_file <- isfile filename ;;
     if is_file : bool then unlink filename else ret tt)
    (fun _ => sys_exit 1).

Fixpoint clear_loop (filenames : list string) : M E unit :=
  match filenames with
  | [] => ret tt
  | filename :: rest => clear_entry filename ;; clear_loop rest
  end.

(** The names of a directory in the order of their ranks. *)
Fixpoint insert_by (rank : string -> nat) (name : string)
  (names : list string) : list string :=
  match names with
  | [] => [name]
  | name' :: rest =>
      if (rank name <=? rank name')%nat then name :: names
      else name' :: insert_by rank name rest
  end.

Definition listing (rank : string -> nat) (d : gmap string Node)
  : list string :=
  fold_right (insert_by rank) [] (map fst (map_to_list d)).

(** [os.listdir] on the staging directory: its names in the file system's
    order, or [OSError] when the directory is missing or unreadable. *)
Definition listdir : M E (list string) :=
  emit (EvListdir patients_to_sync_dir) ;;
  listable <- gets w_listable ;;
  if listable : bool
  then gets (fun w => listing (w_rank w) (w_staging w))
  else raise (Exception "OSError").

(** The listing is taken once, before the first deletion, and outside the
    [try] statement: an exception of [os.listdir] is not caught here. *)
Definition clear_patients_to_sync_folder : M E unit :=
  filenames <- listdir ;;
  clear_loop filenames.

(** *** The progress store *)

(** Modelled from the spec: [utils/progress_tracker.py] (class
    [ProgressTracker]) is not among the sources. A tracker is a handle on
    the durable progress document kept in the file it is constructed over;
    constructing one allocates a new object. *)
Record ProgressTracker := {
  pt_id : nat;
  pt_file : string
}.

(** Modelled from the spec: the document of a progress file; a file that
    does not exist yet holds no location. *)
Definition document (file : string) (w : World E) : gmap string (list string) :=
  default ∅ (w_progress w !! file).

Definition set_document (file : string) (doc : gmap string (list string))
  (w : World E) : World E :=
  set_progress (<[file := doc]> (w_progress w)) w.

(** Modelled from the spec: [ProgressTracker(file)]. *)
Definition ProgressTracker_new (file : string) : M E ProgressTracker :=
  id <- gets w_next_id ;;
  modify (set_next_id (S id)) ;;
  emit (EvNewTracker id file) ;;
  ret {| pt_id := id; pt_file := file |}.

(** Modelled from the spec: [get(location)] returns [None] if the location
    has never been initialized, otherwise its completed-unit list. *)
Definition get_progress (t : ProgressTracker) (location_id : string)
  : M E (option (list string)) :=
  doc <- gets (document (pt_file t)) ;;
  emit (EvGetProgress (pt_id t) location_id (doc !! location_id)) ;;
  ret (doc !! location_id).

(** Modelled from the spec: [reset(location)] sets the location's entry to
    an empty list. *)
Definition reset_progress (t : ProgressTracker) (location_id : string)
  : M E unit :=
  doc <- gets (document (pt_file t)) ;;
  modify (set_document (pt_file t) (<[location_id := []]> doc)) ;;
  emit (EvResetProgress (pt_id t) location_id).

(** Modelled from the spec: [record(location, patientId)] appends the
    PatientId to the location's list and persists the full document before
    returning; a persistence failure is surfaced to the caller as an
    exception, and the durable document is then as it was. *)
Definition update_progress (t : ProgressTracker) (location_id patient_id : string)
  : M E unit :=
  doc <- gets (document (pt_file t)) ;;
  let doc' :=
    <[location_id := default [] (doc !! location_id) ++ [patient_id]]> doc in
  persisted <- gets (fun w => w_persist_ok w doc') ;;
  if persisted : bool
  then modify (set_document (pt_file t) doc') ;;
       emit (EvUpdateProgress (pt_id t) location_id patient_id)
  else emit (EvUpdateFailed (pt_id t) location_id patient_id) ;;
       raise (Exception "OSError").

(** *** The external collaborators *)

(** A collaborator sees its own state and the staging directory, returns or
    raises, and touches neither the progress document nor the JSON files of
    the orchestrator. *)
Definition Collaborator (A : Type) : Type :=
  E * gmap string Node -> (E * gmap string Node) * Reply A.

(** [sync_service]: [openmrs_connector.connect],
    [openmrs_connector.fetch_patient_encounters_by_location],
    [process_patient_and_encounters], [dhis2_connector.process_patient_files]. *)
Record SyncService := {
  connect : Collaborator unit;
  fetch_patient_encounters_by_location :
    string -> list string -> Collaborator (option Snapshot);
  process_patient_and_encounters :
    string -> list string -> string -> Collaborator unit;
  process_patient_files : Collaborator unit
}.

Definition call {A} (c : Collaborator A) (ev : Reply A -> Event) : M E A :=
  fun w =>
    let x := c (w_ext w, w_staging w) in
    {| events := [ev (snd x)];
       final := set_shared (fst x) w;
       result := match snd x with
                 | Returns a => Ok a
                 | Raises e => Raise e
                 end |}.

(** *** JSON files *)

(** [open(file, 'w').close()] *)
Definition truncate (file : string) : M E unit :=
  modify (fun w => set_json (<[file := None]> (w_json w)) w) ;;
  emit (EvTruncate file).

(** [with open(file, 'w') as f: json.dump(m, f, indent=4)] *)
Definition json_dump (m : Snapshot) (file : string) : M E unit :=
  modify (fun w => set_json (<[file := Some (Json.dump m)]> (w_json w)) w) ;;
  emit (EvDump file (Json.dump m)).

(** [with open(file, 'r') as f: json.load(f)] *)
Definition json_load (file : string) : M E Snapshot :=
  files <- gets w_json ;;
  match files !! file with
  | None => raise (Exception "FileNotFoundError")
  | Some None => raise (Exception "JSONDecodeError")
  | Some (Some j) =>
      match Json.load j with
      | None => raise (Exception "AttributeError")
      | Some m => emit (EvLoad file m) ;; ret m
      end
  end.

(** *** [process_location] *)

Definition progress_file : string := "logs/progress.json".
Definition patients_file : string := "patients_to_sync.json".
Definition encounters_file : string := "encounters_to_process.json".

(** The loop over [encounters_to_process.items()]. *)
Fixpoint process_units (sync_service : SyncService)
  (progress_tracker : ProgressTracker) (location_id : string)
  (items : Snapshot) : M E unit :=
  match items with
  | [] => ret tt
  | (patient_id, encounter_ids) :: rest =>
      call (process_patient_and_encounters sync_service
              patient_id encounter_ids location_id)
           (EvProcess patient_id encounter_ids location_id) ;;
      update_progress progress_tracker location_id patient_id ;;
      process_units sync_service progress_tracker location_id rest
  end.

(** The body of the [try] statement. *)
Definition fetch_and_process (location_id : string)
  (sync_service : SyncService) (progress_tracker : ProgressTracker)
  (encounter_type_ids : list string) : M E unit :=
  patient_encounters <-
    call (fetch_patient_encounters_by_location sync_service
            location_id encounter_type_ids)
         (EvFetch location_id encounter_type_ids) ;;
  match patient_encounters with
  | None => sys_exit 1
  | Some patient_encounters =>
      truncate patients_file ;;
      truncate encounters_file ;;
      json_dump patient_encounters encounters_file ;;
      encounters_to_process <- json_load encounters_file ;;
      process_units sync_service progress_tracker location_id
        encounters_to_process
  end.

(** The [progress_tracker] parameter is rebound to a new tracker before its
    first use. *)
Definition process_location (location_id : string)
  (sync_service : SyncService) (progress_tracker : ProgressTracker)
  : M E unit :=
  emit (EvLocation location_id) ;;
  clear_patients_to_sync_folder ;;
  progress_tracker <- ProgressTracker_new progress_file ;;
  handled_encounters <- get_progress progress_tracker location_id ;;
  match handled_encounters with
  | Some _ => ret tt
  | None => reset_progress progress_tracker location_id
  end ;;
  let encounter_type_ids : list string := [] in
  call (connect sync_service) EvConnect ;;
  try_except
    (fetch_and_process location_id sync_service progress_tracker
       encounter_type_ids)
    (fun _ => sys_exit 1) ;;
  call (process_patient_files sync_service) EvUpload.

(** *** [main] *)

Fixpoint for_each_location (sync_service : SyncService)
  (location_ids : list string) : M E unit :=
  match location_ids with
  | [] => ret tt
  | location_id :: rest =>
      progress_tracker <- ProgressTracker_new progress_file ;;
      process_location location_id sync_service progress_tracker ;;
      for_each_location sync_service rest
  end.

Definition locations_file : string := "locations.txt".

(** The service is built once, after the roster is read; logger setup and
    the configuration dictionaries have no part in what follows. *)
Definition main (sync_service : SyncService) : M E unit :=
  location_ids <- read_location_ids locations_file ;;
  for_each_location sync_service location_ids.

End Operations.

Arguments SyncService : clear implicits.
Arguments Collaborator : clear implicits.

(** ** Vocabulary of the statements *)

(** The two events of a unit that went through: the collaborator returned,
    then the PatientId was recorded on tracker [id]. *)
Definition unit_events (id : nat) (location_id : string)
  (u : string * list string) : list Event :=
  [EvProcess (fst u) (snd u) location_id (Returns tt);
   EvUpdateProgress id location_id (fst u)].

(** What the loop ends on when it stops at unit [u]: the call raised [e],
    or the call returned and the unit could not be recorded. *)
Definition stop_events (id : nat) (location_id : string)
  (u : string * list string) (raised : option Exn) : list Event :=
  match raised with
  | Some e => [EvProcess (fst u) (snd u) location_id (Raises e)]
  | None => [EvProcess (fst u) (snd u) location_id (Returns tt);
             EvUpdateFailed id location_id (fst u)]
  end.

(** The document after recording the PatientIds one after the other. *)
Definition record_all (location_id : string) (patient_ids : list string)
  (doc : gmap string (list string)) : gmap string (list string) :=
  fold_left
    (fun d p => <[location_id := default [] (d !! location_id) ++ [p]]> d)
    patient_ids doc.

Definition is_unit_event (ev : Event) : bool :=
  match ev with
  | EvProcess _ _ _ _ | EvUpdateProgress _ _ _ | EvUpdateFailed _ _ _ => true
  | _ => false
  end.

(** The per-unit part of a trace: collaborator calls and recordings. *)
Definition unit_trace (evs : list Event) : list Event :=
  List.filter is_unit_event evs.

(** The units handed to the per-unit collaborator, in call order. *)
Fixpoint processed (evs : list Event) : list (string * list string) :=
  match evs with
  | [] => []
  | EvProcess p es _ _ :: rest => (p, es) :: processed rest
  | _ :: rest => processed rest
  end.

(** How many times the upload collaborator was called. *)
Fixpoint uploads (evs : list Event) : nat :=
  match evs with
  | [] => 0
  | EvUpload _ :: rest => S (uploads rest)
  | _ :: rest => uploads rest
  end.

(** The locations the orchestrator was entered for, in order. *)
Fixpoint locations_of (evs : list Event) : list string :=
  match evs with
  | [] => []
  | EvLocation l :: rest => l :: locations_of rest
  | _ :: rest => locations_of rest
  end.

(** The tracker objects constructed, in order. *)
Fixpoint trackers_of (evs : list Event) : list nat :=
  match evs with
  | [] => []
  | EvNewTracker id _ :: rest => id :: trackers_of rest
  | _ :: rest => trackers_of rest
  end.

(** The tracker operations: which object served which location. *)
Fixpoint tracker_uses (evs : list Event) : list (nat * string) :=
  match evs with
  | [] => []
  | EvGetProgress id l _ :: rest
  | EvResetProgress id l :: rest
  | EvUpdateProgress id l _ :: rest
  | EvUpdateFailed id l _ :: rest => (id, l) :: tracker_uses rest
  | _ :: rest => tracker_uses rest
  end.

(** Events that belong to the stages after the fetch: snapshot files,
    per-unit work, upload. *)
Definition is_after_fetch (ev : Event) : bool :=
  match ev with
  | EvTruncate _ | EvDump _ _ | EvLoad _ _ | EvProcess _ _ _ _
  | EvUpdateProgress _ _ _ | EvUpdateFailed _ _ _ | EvUpload _ => true
  | _ => false
  end.

(** Events of the collaborators and of the stages that need them. *)
Definition is_after_clear (ev : Event) : bool :=
  match ev with
  | EvLocation _ | EvListdir _ | EvUnlink _ _ => false
  | _ => true
  end.

(** A connection or fetch failure: [connect] raised, the fetch raised, or
    the fetch returned [None]. *)
Definition is_fetch_failure (ev : Event) : bool :=
  match ev with
  | EvConnect (Raises _) => true
  | EvFetch _ _ (Raises _) => true
  | EvFetch _ _ (Returns None) => true
  | _ => false
  end.

(** How a location run ends, stage by stage: a deletion of the staging
    clear failed; [connect] raised; the fetch raised or returned [None];
    the call for unit [u] raised after the units [done] went through ([m]
    is the fetched map); every unit went through and the upload
    collaborator was called; the staging directory could not be listed; or
    the call for unit [u] returned and recording it failed. *)
Inductive Outcome :=
| ClearFailed
| ConnectRaised (e : Exn)
| FetchRaised (e : Exn)
| FetchNone
| UnitRaised (m done : Snapshot) (u : string * list string) (rest : Snapshot)
    (e : Exn)
| UnitsDone (m : Snapshot) (upload : Reply unit)
| ListingFailed (e : Exn)
| RecordFailed (m done : Snapshot) (u : string * list string) (rest : Snapshot).

Definition outcome_result (o : Outcome) : Res unit :=
  match o with
  | ClearFailed => SysExit 1
  | ConnectRaised e | ListingFailed e => Raise e
  | FetchRaised _ | FetchNone | UnitRaised _ _ _ _ _
  | RecordFailed _ _ _ _ => SysExit 1
  | UnitsDone _ (Returns _) => Ok tt
  | UnitsDone _ (Raises e) => Raise e
  end.

(** From the fetch that returned [m] to the snapshot read back. *)
Definition snapshot_events (location_id : string) (m : Snapshot)
  : list Event :=
  [EvFetch location_id [] (Returns (Some m));
   EvTruncate "patients_to_sync.json";
   EvTruncate "encounters_to_process.json";
   EvDump "encounters_to_process.json" (Json.dump m);
   EvLoad "encounters_to_process.json" (Json.dict_of_pairs m)].

(** The events from the construction of the tracker to the resume
    decision. *)
Definition tracker_events (id : nat) (location_id : string)
  (entry : option (list string)) : list Event :=
  EvNewTracker id "logs/progress.json"
  :: EvGetProgress id location_id entry
  :: match entry with
     | None => [EvResetProgress id location_id]
     | Some _ => []
     end.

(** The events from [connect] on. *)
Definition outcome_events (id : nat) (location_id : string) (o : Outcome)
  : list Event :=
  match o with
  | ClearFailed | ListingFailed _ => []
  | ConnectRaised e => [EvConnect (Raises e)]
  | FetchRaised e =>
      [EvConnect (Returns tt); EvFetch location_id [] (Raises e)]
  | FetchNone =>
      [EvConnect (Returns tt); EvFetch location_id [] (Returns None)]
  | UnitRaised m done u _ e =>
      EvConnect (Returns tt)
      :: snapshot_events location_id m
      ++ flat_map (unit_events id location_id) done
      ++ [EvProcess (fst u) (snd u) location_id (Raises e)]
  | UnitsDone m upload =>
      EvConnect (Returns tt)
      :: snapshot_events location_id m
      ++ flat_map (unit_events id location_id) (Json.dict_of_pairs m)
      ++ [EvUpload upload]
  | RecordFailed m done u _ =>
      EvConnect (Returns tt)
      :: snapshot_events location_id m
      ++ flat_map (unit_events id location_id) done
      ++ [EvProcess (fst u) (snd u) location_id (Returns tt);
          EvUpdateFailed id location_id (fst u)]
  end.

(** Everything a location run does after the staging clear. *)
Definition run_tail (id : nat) (location_id : string)
  (entry : option (list string)) (o : Outcome) : list Event :=
  match o with
  | ClearFailed | ListingFailed _ => []
  | _ => tracker_events id location_id entry
         ++ outcome_events id location_id o
  end.

(** The units that went through in a run with outcome [o]. *)
Definition units_done (o : Outcome) : Snapshot :=
  match o with
  | UnitRaised _ done _ _ _ | RecordFailed _ done _ _ => done
  | UnitsDone m _ => Json.dict_of_pairs m
  | _ => []
  end.

(** The fatal event a run with outcome [o] ends on after the staging
    clear, if any. *)
Definition outcome_fatal (id : nat) (location_id : string) (o : Outcome)
  : option Event :=
  match o with
  | ClearFailed | ListingFailed _ | UnitsDone _ _ => None
  | RecordFailed _ _ u _ => Some (EvUpdateFailed id location_id (fst u))
  | ConnectRaised e => Some (EvConnect (Raises e))
  | FetchRaised e => Some (EvFetch location_id [] (Raises e))
  | FetchNone => Some (EvFetch location_id [] (Returns None))
  | UnitRaised _ _ u _ e =>
      Some (EvProcess (fst u) (snd u) location_id (Raises e))
  end.

(** The JSON files once the snapshot of [m] is written. *)
Definition snapshot_written (m : Snapshot) (files : gmap string (option json))
  : gmap string (option json) :=
  <["encounters_to_process.json" := Some (Json.dump m)]>
    (<["patients_to_sync.json" := None]> files).

Definition outcome_json (o : Outcome) (files : gmap string (option json))
  : gmap string (option json) :=
  match o with
  | UnitRaised m _ _ _ _ | UnitsDone m _ | RecordFailed m _ _ _ =>
      snapshot_written m files
  | _ => files
  end.

(** The progress document once the location is known to it. *)
Definition initialized (location_id : string)
  (doc : gmap string (list string)) : gmap string (list string) :=
  match doc !! location_id with
  | Some _ => doc
  | None => <[location_id := []]> doc
  end.

Definition outcome_document (location_id : string) (o : Outcome)
  (doc : gmap string (list string)) : gmap string (list string) :=
  match o with
  | ClearFailed | ListingFailed _ => doc
  | UnitRaised _ done _ _ _ | RecordFailed _ done _ _ =>
      record_all location_id (map fst done) (initialized location_id doc)
  | UnitsDone m _ =>
      record_all location_id (map fst (Json.dict_of_pairs m))
        (initialized location_id doc)
  | _ => initialized location_id doc
  end.

(** What clearing leaves of a directory entry: a regular file goes,
    anything else stays as it is. *)
Definition cleared (entry : option Node) : option Node :=
  match entry with
  | Some (RegularFile _) => None
  | other => other
  end.

(** Whether [os.unlink] succeeds on a file or a link; other entries are
    never handed to it. *)
Definition entry_removable (entry : option Node) : option bool :=
  match entry with
  | Some (RegularFile removable) | Some (SymLink _ removable) => Some removable
  | _ => None
  end.

(** An entry [os.path.isfile] accepts whatever else the directory holds: a
    regular file, or a link to a regular file outside the directory. *)
Definition always_file (entry : option Node) : bool :=
  match entry with
  | Some (RegularFile _) | Some (SymLink (Outside true) _) => true
  | _ => false
  end.

(** The entry [name] is not in the directory [d']. *)
Definition gone (d' : gmap string Node) (name : string) : bool :=
  match d' !! name with
  | None => true
  | Some _ => false
  end.

(** The directory as the clearing loop finds it once it has gone through
    the names [pre]: [d] without the names of [pre] that are gone from the
    directory [d'] the loop leaves. *)
Definition reached (d d' : gmap string Node) (pre : list string)
  : gmap string Node :=
  fold_left (fun d name => delete name d) (List.filter (gone d') pre) d.

(** The place of [name] in [names], counted from 0. *)
Fixpoint position (name : string) (names : list string) : nat :=
  match names with
  | [] => 0
  | name' :: rest =>
      if String.eqb name name' then 0 else S (position name rest)
  end.

(** A symbolic link to another entry of the directory. *)
Definition is_sibling_link (entry : option Node) : bool :=
  match entry with
  | Some (SymLink (Sibling _) _) => true
  | _ => false
  end.

(** The successful deletion of the entry [name]. *)
Definition unlinked (name : string) : Event :=
  EvUnlink (path_join patients_to_sync_dir name) true.

(** The clear as the design document words it: the staging directory [d']
    is [d] without its regular files, and with everything else as it
    was. *)
Definition removes_exactly_regular_files (d d' : gmap string Node) : Prop :=
  forall name, d' !! name = cleared (d !! name).

Definition is_unlink_ok (ev : Event) : bool :=
  match ev with EvUnlink _ true => true | _ => false end.

Definition is_clear_event (ev : Event) : bool :=
  match ev with
  | EvListdir _ | EvUnlink _ _ => true
  | _ => false
  end.

(** The events after which nothing more happens: a deletion that failed,
    a connection or fetch failure, a per-unit call that raised, a unit
    that could not be recorded. *)
Definition is_fatal (ev : Event) : bool :=
  match ev with
  | EvUnlink _ false => true
  | EvUpdateFailed _ _ _ => true
  | EvConnect (Raises _) => true
  | EvFetch _ _ (Raises _) => true
  | EvFetch _ _ (Returns None) => true
  | EvProcess _ _ _ (Raises _) => true
  | _ => false
  end.

(** The events of the resume decision: what [get_progress] returned and
    whether [reset_progress] was called. *)
Definition is_resume_event (ev : Event) : bool :=
  match ev with
  | EvGetProgress _ _ _ | EvResetProgress _ _ => true
  | _ => false
  end.

(** A fetch that returned a unit map, and the reading back of the
    snapshot. *)
Definition is_snapshot_source (ev : Event) : bool :=
  match ev with
  | EvFetch _ _ (Returns (Some _)) | EvLoad _ _ => true
  | _ => false
  end.

(** The roster as the design document words it: the file's lines with
    surrounding whitespace trimmed and blank lines removed, in file
    order. *)
Definition spec_roster (content : string) : list string :=
  map Text.strip
    (List.filter (fun line => negb (Text.all_whitespace line))
       (Text.file_lines content)).

(** The roster [main] works on: what the design document's reading gives
    for [locations.txt], nothing when the file is missing. *)
Definition roster {E} (w : World E) : list string :=
  match w_text w !! "locations.txt" with
  | Some content => spec_roster content
  | None => []
  end.

(** Outcome [o] describes the location run [r] started in world [w]: its
    events, how it ends, and what it leaves in the files. *)
Definition run_outcome {E} (location_id : string) (w : World E)
  (r : Run E unit) (o : Outcome) : Prop :=
  let c := clear_patients_to_sync_folder w in
  let doc := document progress_file w in
  events r
  = EvLocation location_id :: events c
    ++ run_tail (w_next_id w) location_id (doc !! location_id) o /\
  result r = outcome_result o /\
  match o with
  | ClearFailed => result c = SysExit 1
  | ListingFailed e => result c = Raise e
  | _ => result c = Ok tt
  end /\
  match o with
  | UnitRaised m done u rest _ | RecordFailed m done u rest =>
      Json.dict_of_pairs m = done ++ u :: rest
  | _ => True
  end /\
  w_next_id (final r)
  = match o with
    | ClearFailed | ListingFailed _ => w_next_id w
    | _ => S (w_next_id w)
    end /\
  w_json (final r) = outcome_json o (w_json w) /\
  w_text (final r) = w_text w /\
  document progress_file (final r) = outcome_document location_id o doc.

Definition is_new_tracker (ev : Event) : bool :=
  match ev with EvNewTracker _ _ => true | _ => false end.

(** The events of one turn of the batch loop for [location_id]: a tracker
    is constructed over the progress file and handed to the orchestrator,
    which is entered once; every progress operation that follows is for
    that location and on a tracker constructed inside this very turn. *)
Definition own_instance_run (location_id : string) (run : list Event) : Prop :=
  exists passed rest,
    run = EvNewTracker passed "logs/progress.json"
          :: EvLocation location_id :: rest /\
    locations_of rest = [] /\
    forall u, In u (tracker_uses rest) ->
              snd u = location_id /\ In (fst u) (trackers_of rest).

(** One Progress Store instance serves every location: all tracker
    operations of the trace are on the same object. *)
Definition shares_one_instance (evs : list Event) : Prop :=
  exists id, forall u, In u (tracker_uses evs) -> fst u = id.

(** ** Vocabulary of the further properties *)

(** [c in s] *)
Fixpoint contains (c : ascii) (s : string) : bool :=
  match s with
  | EmptyString => false
  | String c' rest => Ascii.eqb c c' || contains c rest
  end.

(** A string with no line feed except, possibly, as its last character. *)
Fixpoint lf_only_last (s : string) : bool :=
  match s with
  | EmptyString => true
  | String c rest =>
      match rest with
      | EmptyString => true
      | _ => negb (Ascii.eqb c Text.LF) && lf_only_last rest
      end
  end.

Definition no_leading_space (s : string) : bool :=
  match s with
  | EmptyString => true
  | String c _ => negb (Text.isspace c)
  end.

(** No entry of the directory is a symbolic link to another entry of the
    directory. *)
Definition no_sibling_links (d : gmap string Node) : bool :=
  forallb (fun kv => negb (is_sibling_link (Some (snd kv)))) (map_to_list d).

(** The entry [name] is not a file or link that cannot be removed. *)
Definition deletable (d : gmap string Node) (name : string) : bool :=
  match entry_removable (d !! name) with
  | Some false => false
  | _ => true
  end.

(** Every name that is a file whatever the directory holds can be
    deleted. *)
Definition files_deletable (d : gmap string Node) (names : list string)
  : bool :=
  forallb (fun name => negb (always_file (d !! name)) || deletable d name)
    names.

(** The names among [names] that are files whatever the directory
    holds. *)
Definition files_among (d : gmap string Node) (names : list string)
  : list string :=
  List.filter (fun name => always_file (d !! name)) names.

(** [name in names] *)
Definition listed (name : string) (names : list string) : bool :=
  existsb (String.eqb name) names.

(** Calls into the source store. *)
Definition is_source_call (ev : Event) : bool :=
  match ev with
  | EvConnect _ | EvFetch _ _ _ => true
  | _ => false
  end.

Definition is_upload_raise (ev : Event) : bool :=
  match ev with
  | EvUpload (Raises _) => true
  | _ => false
  end.

(** An event that shows a stage failing: a fatal event or an upload that
    raised. *)
Definition is_failure (ev : Event) : bool :=
  is_fatal ev || is_upload_raise ev.

(** ** Scenarios *)

(** A roster of two locations, written with a blank line, stray blanks and
    a CR LF line end. *)
Definition scenario_roster_text : string :=
  "L1" +:+ String Text.CR (String Text.LF
    (String Text.LF ("  L2 " +:+ String Text.LF EmptyString))).

(** A service whose fetch returns three units for [L1] and one for any
    other location, except [None] for the location [missing]; whose
    per-unit call raises on the PatientId [bad] and otherwise leaves a file
    named after the patient in the staging directory; and whose [connect]
    and upload always return. The collaborator state counts the calls. *)
Definition scenario_service (bad missing : string) : SyncService nat :=
  {| connect := fun x => ((S (fst x), snd x), Returns tt);
     fetch_patient_encounters_by_location := fun loc _ x =>
       ((S (fst x), snd x),
        Returns
          (if String.eqb loc missing then None
           else if String.eqb loc "L1"
                then Some [("P1", ["E1"; "E2"]); ("P2", ["E3"]); ("P3", [])]
                else Some [("P9", ["E9"])]));
     process_patient_and_encounters := fun p _ _ x =>
       if String.eqb p bad
       then ((S (fst x), snd x), Raises (Exception "transform failed"))
       else ((S (fst x), <[p +:+ ".json" := RegularFile true]> (snd x)),
             Returns tt);
     process_patient_files := fun x => ((S (fst x), snd x), Returns tt) |}.

(** A world whose staging directory holds a left-over file and a
    subdirectory with a file of its own, and whose progress document is
    [doc]. *)
Definition scenario_world (doc : gmap string (list string)) : World nat :=
  {| w_ext := 0;
     w_staging :=
       <["old.json" := RegularFile true]>
         (<["keep" := Directory (<["inner.json" := RegularFile true]> ∅)]> ∅);
     w_listable := true;
     w_rank := fun _ => 0;
     w_text := <["locations.txt" := scenario_roster_text]> ∅;
     w_json := <["encounters_to_process.json" := Some JNull]> ∅;
     w_progress := <["logs/progress.json" := doc]> ∅;
     w_persist_ok := fun _ => true;
     w_next_id := 0 |}.


(** The scenario world with one more entry in the staging directory: a
    symbolic link to a regular file that lies outside the directory. *)
Definition scenario_world_link : World nat :=
  set_staging
    (<["latest" := SymLink (Outside true) true]> (w_staging (scenario_world ∅)))
    (scenario_world ∅).

(** A world whose staging directory holds three files, the second of
    which cannot be removed, and a subdirectory; the file system lists
    names by their first character. *)
Definition scenario_world_locked : World nat :=
  {| w_ext := 0;
     w_staging :=
       <["a.json" := RegularFile true]>
         (<["b.json" := RegularFile false]>
            (<["c.json" := RegularFile true]>
               (<["keep" := Directory ∅]> ∅)));
     w_listable := true;
     w_rank := fun name =>
       match name with
       | EmptyString => 0
       | String c _ => nat_of_ascii c
       end;
     w_text := ∅;
     w_json := ∅;
     w_progress := ∅;
     w_persist_ok := fun _ => true;
     w_next_id := 0 |}.

(** A tracker over some other file, passed as third argument in the
    scenarios that call [process_location] directly. *)
Definition scenario_tracker : ProgressTracker :=
  {| pt_id := 7; pt_file := "elsewhere.json" |}.

(** The scenario service with an upload collaborator that raises. *)
Definition scenario_service_upload_raises : SyncService nat :=
  {| connect := connect (scenario_service "" "");
     fetch_patient_encounters_by_location :=
       fetch_patient_encounters_by_location (scenario_service "" "");
     process_patient_and_encounters :=
       process_patient_and_encounters (scenario_service "" "");
     process_patient_files := fun x =>
       ((S (fst x), snd x), Raises (Exception "upload refused")) |}.

(** * Properties *)

(** ** Stripping and blank lines *)

Module TextFacts.
Import Text.

Lemma rstrip_empty_iff (s : string) :
  rstrip s = EmptyString <-> all_whitespace s = true.
Proof.
  induction s as [|c s IH]; simpl; [tauto|].
  destruct (rstrip s) eqn:Hr.
  - destruct (isspace c); simpl.
    + split; [intros _; apply IH; reflexivity | reflexivity].
    + split; discriminate.
  - split; [discriminate|].
    intros H. apply andb_true_iff in H as [_ H].
    apply IH in H. discriminate.
Qed.

Lemma all_whitespace_lstrip (s : string) :
  all_whitespace (lstrip s) = all_whitespace s.
Proof.
  induction s as [|c s IH]; simpl; [reflexivity|].
  destruct (isspace c) eqn:Hc; simpl; [exact IH|].
  rewrite Hc. reflexivity.
Qed.

(** A line survives the comprehension's test exactly when it is not
    blank. *)
Lemma truthy_strip (s : string) :
  truthy (strip s) = negb (all_whitespace s).
Proof.
  unfold strip. rewrite <- (all_whitespace_lstrip s).
  destruct (rstrip (lstrip s)) eqn:Hr; simpl.
  - apply rstrip_empty_iff in Hr. rewrite Hr. reflexivity.
  - destruct (all_whitespace (lstrip s)) eqn:Hw; [|reflexivity].
    apply rstrip_empty_iff in Hw. congruence.
Qed.

Lemma filter_ext_bool {A} (f g : A -> bool) (l : list A) :
  (forall x, f x = g x) -> List.filter f l = List.filter g l.
Proof.
  intros H. induction l as [|x l IH]; simpl; [reflexivity|].
  rewrite H, IH. reflexivity.
Qed.

End TextFacts.

(** ** The JSON round trip *)

Module JsonFacts.
Import Json.

Lemma load_strings_dump (ss : list string) :
  load_strings (map JString ss) = Some ss.
Proof.
  induction ss as [|s ss IH]; simpl; [reflexivity|].
  rewrite IH. reflexivity.
Qed.

Lemma load_members_dump (m : Snapshot) :
  load_members (map (fun kv => (fst kv, JArray (map JString (snd kv)))) m)
  = Some m.
Proof.
  induction m as [|[k v] m IH]; simpl; [reflexivity|].
  rewrite load_strings_dump, IH. reflexivity.
Qed.

Lemma dict_set_fresh {V} (k : string) (v : V) (d : list (string * V)) :
  ~ In k (map fst d) -> dict_set k v d = d ++ [(k, v)].
Proof.
  induction d as [|[k' v'] d IH]; simpl; intros Hk; [reflexivity|].
  destruct (String.eqb_spec k k') as [->|Hne].
  - exfalso. apply Hk. left. reflexivity.
  - rewrite IH; [reflexivity|]. intros Hin. apply Hk. right. exact Hin.
Qed.

Lemma fold_dict_set_nodup {V} (ps acc : list (string * V)) :
  List.NoDup (map fst (acc ++ ps)) ->
  fold_left (fun d kv => dict_set (fst kv) (snd kv) d) ps acc = acc ++ ps.
Proof.
  revert acc. induction ps as [|[k v] ps IH]; intros acc Hnd; simpl.
  - rewrite app_nil_r. reflexivity.
  - rewrite dict_set_fresh.
    + rewrite IH; rewrite <- app_assoc; [reflexivity | exact Hnd].
    + rewrite map_app in Hnd. simpl in Hnd.
      apply List.NoDup_remove_2 in Hnd.
      intros Hin. apply Hnd. apply in_or_app. left. exact Hin.
Qed.

Lemma dict_of_pairs_nodup {V} (ps : list (string * V)) :
  List.NoDup (map fst ps) -> dict_of_pairs ps = ps.
Proof. intros H. unfold dict_of_pairs. apply (fold_dict_set_nodup ps []), H. Qed.

(** [json.load] after [json.dump] always gives a dictionary: the one the
    members build. *)
Lemma load_dump (m : Snapshot) : load (dump m) = Some (dict_of_pairs m).
Proof. unfold load, dump. rewrite load_members_dump. reflexivity. Qed.

(** For a dictionary (no key twice) the round trip is the identity. *)
Lemma load_dump_nodup (m : Snapshot) :
  List.NoDup (map fst m) -> load (dump m) = Some m.
Proof. intros H. rewrite load_dump, dict_of_pairs_nodup; [reflexivity | exact H]. Qed.

End JsonFacts.

(** ** The monad and the stores *)

Section Facts.

Context {E : Type}.
Local Open Scope py_scope.
Implicit Types (w : World E) (svc : SyncService E).

Lemma document_set_document file doc w :
  document file (set_document file doc w) = doc.
Proof. unfold document, set_document. cbn. rewrite lookup_insert_eq. reflexivity. Qed.

Lemma record_all_cons loc p ps (doc : gmap string (list string)) :
  record_all loc (p :: ps) doc
  = record_all loc ps (<[loc := default [] (doc !! loc) ++ [p]]> doc).
Proof. reflexivity. Qed.

Lemma record_all_other loc l ps (doc : gmap string (list string)) :
  l <> loc -> record_all loc ps doc !! l = doc !! l.
Proof.
  revert doc. induction ps as [|p ps IH]; intros doc Hne; [reflexivity|].
  rewrite record_all_cons, IH by exact Hne.
  rewrite lookup_insert_ne by congruence. reflexivity.
Qed.

Lemma record_all_same loc ps (doc : gmap string (list string)) :
  ps <> [] ->
  record_all loc ps doc !! loc = Some (default [] (doc !! loc) ++ ps).
Proof.
  revert doc. induction ps as [|p ps IH]; intros doc Hne; [congruence|].
  rewrite record_all_cons. destruct ps as [|q ps].
  - cbn. rewrite lookup_insert_eq. reflexivity.
  - rewrite IH by discriminate. rewrite lookup_insert_eq. cbn.
    rewrite <- app_assoc. reflexivity.
Qed.

(** Recording never shortens an entry: what a location had stays, in
    front. *)
Lemma record_all_extends loc l ps qs (doc : gmap string (list string)) :
  doc !! l = Some qs ->
  exists more, record_all loc ps doc !! l = Some (qs ++ more).
Proof.
  intros Hl. destruct (decide (l = loc)) as [->|Hne].
  - destruct ps as [|p ps].
    + exists []. cbn. rewrite app_nil_r. exact Hl.
    + exists (p :: ps). rewrite record_all_same by discriminate.
      rewrite Hl. reflexivity.
  - exists []. rewrite record_all_other by exact Hne.
    rewrite app_nil_r. exact Hl.
Qed.

(** *** The per-unit loop *)

Lemma update_progress_run t loc p w :
  let doc' :=
    <[loc := default [] (document (pt_file t) w !! loc) ++ [p]]>
      (document (pt_file t) w) in
  update_progress t loc p w
  = if w_persist_ok w doc'
    then {| events := [EvUpdateProgress (pt_id t) loc p];
            final := set_document (pt_file t) doc' w;
            result := Ok tt |}
    else {| events := [EvUpdateFailed (pt_id t) loc p];
            final := w;
            result := Raise (Exception "OSError") |}.
Proof.
  cbv zeta. unfold update_progress, bind, gets. cbn [events final result].
  destruct (w_persist_ok w _); reflexivity.
Qed.

Lemma call_reply {A} (c : Collaborator E A) (ev : Reply A -> Event) w x reply :
  c (w_ext w, w_staging w) = (x, reply) ->
  call c ev w
  = {| events := [ev reply];
       final := set_shared x w;
       result := match reply with
                 | Returns a => Ok a
                 | Raises e => Raise e
                 end |}.
Proof. intros H. unfold call. rewrite H. reflexivity. Qed.

Lemma process_units_cons_returns svc t loc p es items w x :
  process_patient_and_encounters svc p es loc (w_ext w, w_staging w)
    = (x, Returns tt) ->
  let w1 := set_shared x w in
  let doc' :=
    <[loc := default [] (document (pt_file t) w1 !! loc) ++ [p]]>
      (document (pt_file t) w1) in
  w_persist_ok w1 doc' = true ->
  let w2 := set_document (pt_file t) doc' w1 in
  let r := process_units svc t loc items w2 in
  process_units svc t loc ((p, es) :: items) w
  = {| events := unit_events (pt_id t) loc (p, es) ++ events r;
       final := final r;
       result := result r |}.
Proof.
  intros Hcall w1 doc' Hok. cbn [process_units]. unfold bind.
  rewrite (call_reply _ _ _ _ _ Hcall). cbn [events final result].
  rewrite update_progress_run. cbv zeta. fold w1. fold doc'. rewrite Hok.
  reflexivity.
Qed.

Lemma process_units_cons_unrecorded svc t loc p es items w x :
  process_patient_and_encounters svc p es loc (w_ext w, w_staging w)
    = (x, Returns tt) ->
  let w1 := set_shared x w in
  let doc' :=
    <[loc := default [] (document (pt_file t) w1 !! loc) ++ [p]]>
      (document (pt_file t) w1) in
  w_persist_ok w1 doc' = false ->
  process_units svc t loc ((p, es) :: items) w
  = {| events := [EvProcess p es loc (Returns tt);
                  EvUpdateFailed (pt_id t) loc p];
       final := w1;
       result := Raise (Exception "OSError") |}.
Proof.
  intros Hcall w1 doc' Hok. cbn [process_units]. unfold bind.
  rewrite (call_reply _ _ _ _ _ Hcall). cbn [events final result].
  rewrite update_progress_run. cbv zeta. fold w1. fold doc'. rewrite Hok.
  reflexivity.
Qed.

Lemma process_units_cons_raises svc t loc p es items w x e :
  process_patient_and_encounters svc p es loc (w_ext w, w_staging w)
    = (x, Raises e) ->
  process_units svc t loc ((p, es) :: items) w
  = {| events := [EvProcess p es loc (Raises e)];
       final := set_shared x w;
       result := Raise e |}.
Proof.
  intros Hcall. cbn [process_units]. unfold bind.
  rewrite (call_reply _ _ _ _ _ Hcall). reflexivity.
Qed.

(** The loop goes through a prefix [done] of the items, recording each one
    after its call returned; it ends when the items are exhausted, at the
    first call that raises, or at the first unit that cannot be
    recorded. *)
Lemma process_units_run svc t loc items w :
  let r := process_units svc t loc items w in
  w_json (final r) = w_json w /\
  w_text (final r) = w_text w /\
  w_next_id (final r) = w_next_id w /\
  exists done rest,
    items = done ++ rest /\
    document (pt_file t) (final r)
      = record_all loc (map fst done) (document (pt_file t) w) /\
    match rest with
    | [] =>
        result r = Ok tt /\
        events r = flat_map (unit_events (pt_id t) loc) done
    | u :: _ =>
        exists e stop,
          result r = Raise e /\
          events r = flat_map (unit_events (pt_id t) loc) done
                       ++ stop_events (pt_id t) loc u stop
    end.
Proof.
  cbv zeta. revert w. induction items as [|[p es] items IH]; intros w.
  - cbn. repeat split. exists [], []. repeat split.
  - destruct (process_patient_and_encounters svc p es loc (w_ext w, w_staging w))
      as [x [[]|e]] eqn:Hcall.
    + destruct (w_persist_ok (set_shared x w)
                  (<[loc := default []
                       (document (pt_file t) (set_shared x w) !! loc) ++ [p]]>
                     (document (pt_file t) (set_shared x w)))) eqn:Hok.
      * rewrite (process_units_cons_returns _ _ _ _ _ _ _ _ Hcall Hok).
        cbv zeta.
        match goal with |- context [process_units svc t loc items ?w1] =>
          destruct (IH w1)
            as (Hj & Ht & Hn & done & rest & Hitems & Hdoc & Hrest)
        end.
        cbn [final events result].
        split; [exact Hj|]. split; [exact Ht|]. split; [exact Hn|].
        exists ((p, es) :: done), rest. split; [rewrite Hitems; reflexivity|].
        split.
        -- rewrite Hdoc, document_set_document. reflexivity.
        -- destruct rest as [|u rest'].
           ++ destruct Hrest as [Hres Hev]. split; [exact Hres|].
              rewrite Hev. reflexivity.
           ++ destruct Hrest as (e & stop & Hres & Hev). exists e, stop.
              split; [exact Hres|]. rewrite Hev. reflexivity.
      * rewrite (process_units_cons_unrecorded _ _ _ _ _ _ _ _ Hcall Hok).
        cbn [final events result]. repeat split.
        exists [], ((p, es) :: items). repeat split.
        exists (Exception "OSError"), None. split; reflexivity.
    + rewrite (process_units_cons_raises _ _ _ _ _ _ _ _ _ Hcall).
      cbn [final events result]. repeat split.
      exists [], ((p, es) :: items). repeat split.
      exists e, (Some e). split; reflexivity.
Qed.

(** *** Clearing the staging directory *)

Lemma set_staging_same w : set_staging (w_staging w) w = w.
Proof. destruct w; reflexivity. Qed.

(** What [os.path.isfile] accepts is a regular file or a link. *)
Lemma resolves_file_like fuel (d : gmap string Node) name :
  resolves_to_file fuel d name = true ->
  exists removable, entry_removable (d !! name) = Some removable.
Proof.
  destruct fuel; cbn [resolves_to_file];
    destruct (d !! name) as [[r| | |t r]|]; try discriminate;
    intros _; exists r; reflexivity.
Qed.

Lemma always_file_resolves fuel (d : gmap string Node) name :
  always_file (d !! name) = true -> resolves_to_file fuel d name = true.
Proof.
  destruct fuel; cbn [resolves_to_file];
    destruct (d !! name) as [[r| | |[t|[]] r]|]; cbn; congruence.
Qed.

(** A chain of links that resolves to a file ends in an entry of the
    directory that is a regular file or a link to a file outside. *)
Lemma resolves_always fuel (d : gmap string Node) name :
  resolves_to_file fuel d name = true ->
  exists name', always_file (d !! name') = true.
Proof.
  revert name. induction fuel as [|fuel IH]; intros name;
    cbn [resolves_to_file];
    destruct (d !! name) as [[r| | |[t|[]] r]|] eqn:Hl; try discriminate;
    intros H; try (exists name; rewrite Hl; reflexivity).
  apply IH in H. exact H.
Qed.

(** What resolves to a file once an entry is gone resolved to a file
    before. *)
Lemma resolves_delete fuel (d : gmap string Node) f name :
  resolves_to_file fuel (delete f d) name = true ->
  resolves_to_file fuel d name = true.
Proof.
  revert name. induction fuel as [|fuel IH]; intros name;
    cbn [resolves_to_file];
    (destruct (string_dec name f) as [->|Hne];
     [rewrite lookup_delete_eq; discriminate
     |rewrite lookup_delete_ne by congruence]);
    destruct (d !! name) as [[r| | |[t|b] r]|]; try tauto.
  apply IH.
Qed.

Lemma clear_entry_run filename w :
  clear_entry filename w
  = if resolves_to_file max_links (w_staging w) filename
    then match entry_removable (w_staging w !! filename) with
         | Some true =>
             {| events := [unlinked filename];
                final := set_staging (delete filename (w_staging w)) w;
                result := Ok tt |}
         | _ =>
             {| events := [EvUnlink (path_join patients_to_sync_dir filename)
                             false];
                final := w;
                result := SysExit 1 |}
         end
    else {| events := []; final := w; result := Ok tt |}.
Proof.
  unfold clear_entry, try_except, bind, isfile, gets.
  cbn [events final result].
  destruct (resolves_to_file max_links (w_staging w) filename) eqn:Hb;
    [|reflexivity].
  apply resolves_file_like in Hb as [r Hr].
  unfold unlink, bind, gets. cbn [events final result].
  destruct (w_staging w !! filename) as [[r'| | |t r']|];
    cbn [entry_removable] in *; try discriminate;
    destruct r'; reflexivity.
Qed.

Lemma clear_loop_cons f fs w :
  clear_loop (f :: fs) w
  = if resolves_to_file max_links (w_staging w) f
    then match entry_removable (w_staging w !! f) with
         | Some true =>
             let r := clear_loop fs (set_staging (delete f (w_staging w)) w) in
             {| events := unlinked f :: events r;
                final := final r;
                result := result r |}
         | _ =>
             {| events := [EvUnlink (path_join patients_to_sync_dir f) false];
                final := w;
                result := SysExit 1 |}
         end
    else clear_loop fs w.
Proof.
  cbn [clear_loop]. unfold bind. rewrite clear_entry_run.
  destruct (resolves_to_file max_links (w_staging w) f).
  - destruct (entry_removable (w_staging w !! f)) as [[]|]; reflexivity.
  - cbn [events final result app]. destruct (clear_loop fs w). reflexivity.
Qed.

(** The loop only touches the staging directory. The names it deleted,
    [removed], are taken in order from the listed names and were removable
    files or links that resolved to a file; every other entry is as it
    was. When the loop returns, every listed name that is a file whatever
    the directory holds is among them; otherwise a deletion failed, on an
    entry that resolved to a file and cannot be removed, and the loop ended
    there with [sys.exit(1)]. *)
Lemma clear_loop_run filenames w :
  let r := clear_loop filenames w in
  exists removed,
    final r = set_staging (w_staging (final r)) w /\
    sublist removed filenames /\
    (forall n, In n removed ->
               entry_removable (w_staging w !! n) = Some true /\
               resolves_to_file max_links (w_staging w) n = true /\
               w_staging (final r) !! n = None) /\
    (forall n, ~ In n removed ->
               w_staging (final r) !! n = w_staging w !! n) /\
    match result r with
    | Ok _ =>
        events r = map unlinked removed /\
        forall n, In n filenames -> always_file (w_staging w !! n) = true ->
                  In n removed
    | SysExit s =>
        s = 1%Z /\
        exists f,
          In f filenames /\
          entry_removable (w_staging w !! f) = Some false /\
          resolves_to_file max_links (w_staging w) f = true /\
          events r = map unlinked removed
                       ++ [EvUnlink (path_join patients_to_sync_dir f) false]
    | Raise _ => False
    end.
Proof.
  cbv zeta. revert w. induction filenames as [|f fs IH]; intros w.
  - exists []. cbn [clear_loop ret events final result map].
    split; [symmetry; apply set_staging_same|]. split; [constructor|].
    split; [intros n []|]. split; [reflexivity|].
    split; [reflexivity | intros n []].
  - rewrite clear_loop_cons.
    destruct (resolves_to_file max_links (w_staging w) f) eqn:Hb.
    + destruct (resolves_file_like _ _ _ Hb) as [rm Hrm]. rewrite Hrm.
      destruct rm.
      * cbv zeta. cbn [events final result].
        set (w1 := set_staging (delete f (w_staging w)) w).
        destruct (IH w1) as (removed & Hfin & Hsub & Hin & Hout & Hres).
        assert (Hst1 : forall n, n <> f ->
                  w_staging w1 !! n = w_staging w !! n)
          by (intros n Hn; cbn; apply lookup_delete_ne; congruence).
        assert (Hf1 : w_staging w1 !! f = None)
          by (cbn; apply lookup_delete_eq).
        assert (Hnf : forall n, In n removed -> n <> f).
        { intros n Hn ->. apply Hin in Hn as [Hn _]. rewrite Hf1 in Hn.
          discriminate. }
        exists (f :: removed).
        split; [rewrite Hfin at 1; reflexivity|].
        split; [apply sublist_skip, Hsub|].
        split.
        { intros n [<-|Hn].
          - split; [exact Hrm|]. split; [exact Hb|].
            destruct (in_dec string_dec f removed) as [Hi|Hi].
            + apply Hin, Hi.
            + rewrite (Hout _ Hi). exact Hf1.
          - destruct (Hin _ Hn) as (H1 & H2 & H3).
            split; [rewrite <- (Hst1 _ (Hnf _ Hn)); exact H1|].
            split; [exact (resolves_delete _ _ _ _ H2) | exact H3]. }
        split.
        { intros n Hn. rewrite Hout by (intros Hi; apply Hn; right; exact Hi).
          apply Hst1. intros ->. apply Hn. left. reflexivity. }
        destruct (result (clear_loop fs w1)) as [[]|s|e]; [| |exact Hres].
        -- destruct Hres as [Hev Hall]. split; [rewrite Hev; reflexivity|].
           intros n [<-|Hn] Ha; [left; reflexivity|].
           destruct (string_dec n f) as [->|Hne]; [left; reflexivity|].
           right. apply Hall; [exact Hn|]. rewrite Hst1 by exact Hne.
           exact Ha.
        -- destruct Hres as (-> & f' & Hf' & Hrm' & Hkind & Hev).
           split; [reflexivity|]. exists f'.
           assert (f' <> f)
             by (intros ->; rewrite Hf1 in Hrm'; discriminate).
           split; [right; exact Hf'|].
           split; [rewrite <- Hst1 by assumption; exact Hrm'|].
           split; [exact (resolves_delete _ _ _ _ Hkind)|].
           rewrite Hev. reflexivity.
      * exists []. cbn [events final result map app].
        split; [symmetry; apply set_staging_same|].
        split; [apply sublist_nil_l|].
        split; [intros n []|]. split; [reflexivity|].
        split; [reflexivity|]. exists f.
        split; [left; reflexivity|]. split; [exact Hrm|].
        split; [exact Hb | reflexivity].
    + destruct (IH w) as (removed & Hfin & Hsub & Hin & Hout & Hres).
      exists removed. split; [exact Hfin|].
      split; [apply sublist_cons, Hsub|]. split; [exact Hin|].
      split; [exact Hout|].
      destruct (result (clear_loop fs w)) as [[]|s|e]; [| |exact Hres].
      * destruct Hres as [Hev Hall]. split; [exact Hev|].
        intros n [<-|Hn] Ha; [|apply Hall; assumption].
        rewrite (always_file_resolves _ _ _ Ha) in Hb. discriminate.
      * destruct Hres as (-> & f' & Hf' & Hrm' & Hkind & Hev).
        split; [reflexivity|]. exists f'.
        split; [right; exact Hf'|]. repeat split; assumption.
Qed.

(** A name of the listing is gone after the loop only if
    [os.path.isfile] accepted it in the directory as the loop found it
    when it reached the name; and when the loop returns, every name it
    accepted there is gone. *)
Lemma clear_loop_reached filenames w :
  List.NoDup filenames ->
  (forall n, In n filenames -> w_staging w !! n <> None) ->
  let r := clear_loop filenames w in
  let d := w_staging w in
  let d' := w_staging (final r) in
  forall pre n post,
    filenames = pre ++ n :: post ->
    (d' !! n = None ->
     resolves_to_file max_links (reached d d' pre) n = true) /\
    (result r = Ok tt ->
     resolves_to_file max_links (reached d d' pre) n = true ->
     d' !! n = None).
Proof.
  cbv zeta. revert w.
  induction filenames as [|f fs IH]; intros w Hnd Hpres pre n post Hsplit.
  - destruct pre; discriminate.
  - apply List.NoDup_cons_iff in Hnd as [Hf Hnd].
    assert (Hn : In n (f :: fs))
      by (rewrite Hsplit; apply in_or_app; right; left; reflexivity).
    rewrite clear_loop_cons.
    destruct (resolves_to_file max_links (w_staging w) f) eqn:Hb.
    + destruct (entry_removable (w_staging w !! f)) as [[]|] eqn:Hrm;
        cbv zeta; cbn [events final result];
        try (split; [intros Hnone; exfalso; exact (Hpres _ Hn Hnone)
                    |discriminate]).
      set (w1 := set_staging (delete f (w_staging w)) w) in *.
      destruct (clear_loop_run fs w1) as (removed & _ & _ & Hin & Hout & _).
      assert (Hgone : w_staging (final (clear_loop fs w1)) !! f = None).
      { destruct (in_dec string_dec f removed) as [Hi|Hi];
          [apply Hin, Hi|].
        rewrite (Hout _ Hi). cbn. apply lookup_delete_eq. }
      destruct pre as [|p pre']; cbn [app] in Hsplit;
        injection Hsplit as Hp Hfs.
      * subst n. split; [intros _; exact Hb | intros _ _; exact Hgone].
      * subst p.
        assert (Hg : gone (w_staging (final (clear_loop fs w1))) f = true)
          by (unfold gone; rewrite Hgone; reflexivity).
        assert (Hpres1 : forall m, In m fs -> w_staging w1 !! m <> None).
        { intros m Hm. cbn. rewrite lookup_delete_ne.
          - apply Hpres. right. exact Hm.
          - intros ->. contradiction. }
        unfold reached. cbn [List.filter]. rewrite Hg. cbn [fold_left].
        exact (IH w1 Hnd Hpres1 pre' n post Hfs).
    + destruct (clear_loop_run fs w) as (removed & _ & Hsub & _ & Hout & _).
      assert (Hkeep : w_staging (final (clear_loop fs w)) !! f
                      = w_staging w !! f).
      { apply Hout. intros Hi. apply Hf.
        apply list_elem_of_In. apply list_elem_of_In in Hi.
        exact (elem_of_sublist _ _ _ Hi Hsub). }
      assert (Hhere : w_staging w !! f <> None)
        by (apply Hpres; left; reflexivity).
      destruct pre as [|p pre']; cbn [app] in Hsplit;
        injection Hsplit as Hp Hfs.
      * subst n. split.
        -- intros Hnone. rewrite Hkeep in Hnone. contradiction.
        -- intros _ Hr. unfold reached in Hr.
           cbn [List.filter fold_left] in Hr. rewrite Hb in Hr.
           discriminate.
      * subst p.
        assert (Hg : gone (w_staging (final (clear_loop fs w))) f = false).
        { unfold gone. rewrite Hkeep.
          destruct (w_staging w !! f); [reflexivity | contradiction]. }
        unfold reached. cbn [List.filter]. rewrite Hg.
        apply (IH w Hnd (fun m Hm => Hpres m (or_intror Hm)) pre' n post Hfs).
Qed.

(** A loop over a directory in which nothing resolves to a file does
    nothing. *)
Lemma clear_loop_nothing filenames w :
  (forall n, resolves_to_file max_links (w_staging w) n = false) ->
  clear_loop filenames w = {| events := []; final := w; result := Ok tt |}.
Proof.
  intros H. induction filenames as [|f fs IH]; [reflexivity|].
  rewrite clear_loop_cons, H. exact IH.
Qed.

(** *** The listing *)

Lemma insert_by_in rank name names n :
  In n (insert_by rank name names) <-> n = name \/ In n names.
Proof.
  induction names as [|name' rest IH]; cbn [insert_by].
  - cbn. intuition congruence.
  - destruct (rank name <=? rank name')%nat; cbn [In]; [intuition congruence|].
    rewrite IH. intuition congruence.
Qed.

Lemma insert_by_permutation rank name names :
  Permutation (insert_by rank name names) (name :: names).
Proof.
  induction names as [|name' rest IH]; cbn [insert_by]; [reflexivity|].
  destruct (rank name <=? rank name')%nat; [reflexivity|].
  rewrite IH. apply perm_swap.
Qed.

Lemma listing_permutation rank (d : gmap string Node) :
  Permutation (listing rank d) (map fst (map_to_list d)).
Proof.
  unfold listing. induction (map fst (map_to_list d)) as [|n l IH];
    [reflexivity|].
  cbn [fold_right]. rewrite insert_by_permutation, IH. reflexivity.
Qed.

(** The listing holds the names of the directory, and nothing else. *)
Lemma listing_in rank (d : gmap string Node) n :
  In n (listing rank d) <-> d !! n <> None.
Proof.
  rewrite <- list_elem_of_In, (listing_permutation rank d), list_elem_of_In.
  rewrite in_map_iff. split.
  - intros ([n' v] & <- & Hin). apply list_elem_of_In in Hin.
    apply elem_of_map_to_list in Hin. cbn. congruence.
  - intros Hn. destruct (d !! n) as [v|] eqn:Hl; [|congruence].
    exists (n, v). split; [reflexivity|].
    apply list_elem_of_In, elem_of_map_to_list. exact Hl.
Qed.

Lemma insert_by_sorted rank name names :
  StronglySorted (fun a b => rank a <= rank b) names ->
  StronglySorted (fun a b => rank a <= rank b) (insert_by rank name names).
Proof.
  induction names as [|name' rest IH]; intros Hs; cbn [insert_by].
  - repeat constructor.
  - apply StronglySorted_inv in Hs as [Hrest Hall].
    destruct (Nat.leb_spec (rank name) (rank name')) as [Hle|Hlt].
    + constructor; [constructor; assumption|].
      constructor; [exact Hle|].
      rewrite Forall_forall in *. intros z Hz. specialize (Hall z Hz). lia.
    + constructor; [apply IH, Hrest|].
      rewrite Forall_forall in *. intros z Hz.
      apply list_elem_of_In, insert_by_in in Hz as [->|Hz]; [lia|].
      apply Hall, list_elem_of_In, Hz.
Qed.

(** The listing is in the order of the ranks. *)
Lemma listing_sorted rank (d : gmap string Node) :
  StronglySorted (fun a b => rank a <= rank b) (listing rank d).
Proof.
  unfold listing. induction (map fst (map_to_list d)) as [|n l IH].
  - constructor.
  - cbn [fold_right]. apply insert_by_sorted, IH.
Qed.

Lemma sorted_permutation_eq (rank : string -> nat) (l1 l2 : list string) :
  (forall a b, In a l1 -> In b l1 -> rank a = rank b -> a = b) ->
  StronglySorted (fun a b => rank a <= rank b) l1 ->
  StronglySorted (fun a b => rank a <= rank b) l2 ->
  Permutation l1 l2 -> l1 = l2.
Proof.
  revert l2. induction l1 as [|x l1 IH]; intros l2 Hinj Hs1 Hs2 Hp.
  - apply Permutation_nil in Hp. congruence.
  - destruct l2 as [|y l2];
      [apply Permutation_sym, Permutation_nil in Hp; discriminate|].
    apply StronglySorted_inv in Hs1 as [Hs1 Hx].
    apply StronglySorted_inv in Hs2 as [Hs2 Hy].
    rewrite Forall_forall in Hx, Hy.
    assert (Hyin : In y (x :: l1))
      by (apply (Permutation_in _ (Permutation_sym Hp)); left; reflexivity).
    assert (Hxin : In x (y :: l2))
      by (apply (Permutation_in _ Hp); left; reflexivity).
    assert (Hxy : x = y).
    { apply Hinj; [left; reflexivity | exact Hyin |].
      assert (rank x <= rank y).
      { destruct Hyin as [->|Hyin]; [lia|].
        apply Hx, list_elem_of_In, Hyin. }
      assert (rank y <= rank x).
      { destruct Hxin as [->|Hxin]; [lia|].
        apply Hy, list_elem_of_In, Hxin. }
      lia. }
    subst y. f_equal. apply Permutation_cons_inv in Hp.
    apply IH; try assumption.
    intros a b Ha Hb. apply Hinj; right; assumption.
Qed.

Lemma position_app name pre names :
  ~ In name pre ->
  position name (pre ++ names) = length pre + position name names.
Proof.
  induction pre as [|p pre IH]; intros Hn; [reflexivity|].
  cbn [app position length].
  destruct (String.eqb_spec name p) as [->|Hne].
  - exfalso. apply Hn. left. reflexivity.
  - rewrite IH by (intros Hi; apply Hn; right; exact Hi). reflexivity.
Qed.

Lemma position_inj names a b :
  In a names -> In b names -> position a names = position b names -> a = b.
Proof.
  induction names as [|n names IH]; intros Ha Hb; [destruct Ha|].
  cbn [position].
  destruct (String.eqb_spec a n) as [->|Hna], (String.eqb_spec b n) as [->|Hnb];
    try discriminate; try reflexivity.
  intros [= H]. destruct Ha as [Ha|Ha]; [congruence|].
  destruct Hb as [Hb|Hb]; [congruence|]. apply IH; assumption.
Qed.

Lemma position_sorted pre names :
  List.NoDup (pre ++ names) ->
  StronglySorted
    (fun a b => position a (pre ++ names) <= position b (pre ++ names)) names.
Proof.
  revert pre. induction names as [|n names IH]; intros pre Hnd;
    [constructor|].
  assert (Hn : ~ In n pre).
  { intros Hi. apply List.NoDup_remove_2 in Hnd. apply Hnd.
    apply in_or_app. left. exact Hi. }
  constructor.
  - specialize (IH (pre ++ [n])). rewrite <- app_assoc in IH. apply IH, Hnd.
  - rewrite Forall_forall. intros z Hz. apply list_elem_of_In in Hz.
    assert (Hzp : ~ In z pre).
    { intros Hi. pose proof (proj2 (NoDup_ListNoDup _) Hnd) as Hnd'.
      apply NoDup_app in Hnd' as (_ & Hdis & _).
      apply (Hdis z); [apply list_elem_of_In, Hi|].
      apply list_elem_of_In. right. exact Hz. }
    rewrite !position_app by assumption. cbn [position].
    rewrite String.eqb_refl. lia.
Qed.

(** Every order of the names of a directory is its listing for some rank:
    the place of the name in that order. *)
Lemma listing_any_order (d : gmap string Node) names :
  Permutation names (map fst (map_to_list d)) ->
  listing (fun name => position name names) d = names.
Proof.
  intros Hp.
  assert (Hnd : List.NoDup names).
  { apply (Permutation_NoDup (Permutation_sym Hp)).
    apply NoDup_ListNoDup, NoDup_fst_map_to_list. }
  apply sorted_permutation_eq with (rank := fun name => position name names).
  - intros a b Ha Hb.
    assert (Hin : forall x,
              In x (listing (fun name => position name names) d) ->
              In x names).
    { intros x Hx. apply (Permutation_in _ (Permutation_sym Hp)).
      exact (Permutation_in _ (listing_permutation _ d) Hx). }
    apply position_inj; apply Hin; assumption.
  - apply listing_sorted.
  - apply (position_sorted [] names Hnd).
  - rewrite Hp. apply listing_permutation.
Qed.

(** Every name is listed once. *)
Lemma listing_nodup rank (d : gmap string Node) : List.NoDup (listing rank d).
Proof.
  apply (Permutation_NoDup (l := map fst (map_to_list d)));
    [symmetry; apply listing_permutation|].
  apply NoDup_ListNoDup, NoDup_fst_map_to_list.
Qed.

(** *** The [try] statement *)

Lemma snapshot_written_eq m (files : gmap string (option json)) :
  <[encounters_file := Some (Json.dump m)]>
    (<[encounters_file := None]> (<[patients_file := None]> files))
  = snapshot_written m files.
Proof. unfold snapshot_written. apply insert_insert_eq. Qed.

(** Up to the loop: the fetch returned [m], both files were truncated, the
    snapshot was written and read back, and the loop runs on what was
    read. *)
Lemma fetch_and_process_some svc t loc w x m :
  fetch_patient_encounters_by_location svc loc [] (w_ext w, w_staging w)
    = (x, Returns (Some m)) ->
  let w1 := set_json (snapshot_written m (w_json w)) (set_shared x w) in
  let r := process_units svc t loc (Json.dict_of_pairs m) w1 in
  fetch_and_process loc svc t [] w
  = {| events := snapshot_events loc m ++ events r;
       final := final r;
       result := result r |}.
Proof.
  intros Hfetch. cbv zeta. unfold fetch_and_process.
  unfold bind at 1. unfold call at 1. cbn. rewrite Hfetch. cbn.
  unfold bind, json_load, gets. cbn.
  rewrite lookup_insert_eq, JsonFacts.load_dump. cbn.
  rewrite snapshot_written_eq. reflexivity.
Qed.

Lemma fetch_and_process_none svc t loc w x :
  fetch_patient_encounters_by_location svc loc [] (w_ext w, w_staging w)
    = (x, Returns None) ->
  fetch_and_process loc svc t [] w
  = {| events := [EvFetch loc [] (Returns None)];
       final := set_shared x w;
       result := SysExit 1 |}.
Proof.
  intros Hfetch. unfold fetch_and_process.
  unfold bind at 1. unfold call. cbn [events final result].
  rewrite Hfetch. cbn [events final result fst snd sys_exit app].
  reflexivity.
Qed.

Lemma fetch_and_process_raises svc t loc w x e :
  fetch_patient_encounters_by_location svc loc [] (w_ext w, w_staging w)
    = (x, Raises e) ->
  fetch_and_process loc svc t [] w
  = {| events := [EvFetch loc [] (Raises e)];
       final := set_shared x w;
       result := Raise e |}.
Proof.
  intros Hfetch. unfold fetch_and_process.
  unfold bind at 1. unfold call. cbn [events final result].
  rewrite Hfetch. cbn [events final result fst snd sys_exit app].
  reflexivity.
Qed.

Lemma fetch_and_process_run svc t loc w :
  let r := try_except (fetch_and_process loc svc t []) (fun _ => sys_exit 1) w in
  w_text (final r) = w_text w /\
  w_next_id (final r) = w_next_id w /\
  ((exists e,
      events r = [EvFetch loc [] (Raises e)] /\ result r = SysExit 1 /\
      w_json (final r) = w_json w /\
      document (pt_file t) (final r) = document (pt_file t) w)
   \/
   (events r = [EvFetch loc [] (Returns None)] /\ result r = SysExit 1 /\
    w_json (final r) = w_json w /\
    document (pt_file t) (final r) = document (pt_file t) w)
   \/
   (exists m done rest,
      Json.dict_of_pairs m = done ++ rest /\
      w_json (final r) = snapshot_written m (w_json w) /\
      document (pt_file t) (final r)
        = record_all loc (map fst done) (document (pt_file t) w) /\
      match rest with
      | [] =>
          result r = Ok tt /\
          events r = snapshot_events loc m
                       ++ flat_map (unit_events (pt_id t) loc) done
      | u :: _ =>
          exists stop,
            result r = SysExit 1 /\
            events r = snapshot_events loc m
                         ++ flat_map (unit_events (pt_id t) loc) done
                         ++ stop_events (pt_id t) loc u stop
      end)).
Proof.
  cbv zeta. unfold try_except.
  destruct (fetch_patient_encounters_by_location svc loc []
              (w_ext w, w_staging w)) as [x [[m|]|e]] eqn:Hfetch.
  - rewrite (fetch_and_process_some _ t _ _ _ _ Hfetch). cbv zeta.
    cbn [events final result].
    match goal with |- context [process_units svc t loc _ ?w1] =>
      destruct (process_units_run svc t loc (Json.dict_of_pairs m) w1)
        as (Hj & Ht & Hn & done & rest & Hitems & Hdoc & Hrest)
    end.
    destruct rest as [|u rest'].
    + destruct Hrest as [Hres Hev]. rewrite Hres. cbn [events final result].
      split; [exact Ht|]. split; [exact Hn|]. right. right.
      exists m, done, []. split; [exact Hitems|]. split; [exact Hj|].
      split; [exact Hdoc|]. rewrite Hev. split; reflexivity.
    + destruct Hrest as (e & stop & Hres & Hev). rewrite Hres.
      cbn [events final result sys_exit].
      split; [exact Ht|]. split; [exact Hn|]. right. right.
      exists m, done, (u :: rest'). split; [exact Hitems|].
      split; [exact Hj|]. split; [exact Hdoc|]. exists stop.
      split; [reflexivity|]. rewrite Hev, app_nil_r. reflexivity.
  - rewrite (fetch_and_process_none _ t _ _ _ Hfetch).
    cbn [events final result sys_exit app].
    repeat split. right. left. repeat split.
  - rewrite (fetch_and_process_raises _ t _ _ _ _ Hfetch).
    cbn [events final result sys_exit app].
    repeat split. left. exists e. repeat split.
Qed.

(** *** The whole location run *)

Lemma listdir_run w :
  listdir w
  = {| events := [EvListdir patients_to_sync_dir];
       final := w;
       result := if w_listable w
                 then Ok (listing (w_rank w) (w_staging w))
                 else Raise (Exception "OSError") |}.
Proof.
  unfold listdir, bind, emit, gets. cbn [events final result].
  destruct (w_listable w); reflexivity.
Qed.

(** The clear is the loop over the listing, when there is one. *)
Lemma clear_as_loop w :
  clear_patients_to_sync_folder w
  = if w_listable w
    then let r := clear_loop (listing (w_rank w) (w_staging w)) w in
         {| events := EvListdir patients_to_sync_dir :: events r;
            final := final r;
            result := result r |}
    else {| events := [EvListdir patients_to_sync_dir];
            final := w;
            result := Raise (Exception "OSError") |}.
Proof.
  unfold clear_patients_to_sync_folder, bind. rewrite listdir_run.
  cbn [events final result]. destruct (w_listable w); reflexivity.
Qed.

Lemma map_unlinked_ok names : forallb is_unlink_ok (map unlinked names) = true.
Proof. induction names as [|n names IH]; [reflexivity | exact IH]. Qed.

(** The clear lists the directory, deletes, and ends in one of three ways:
    it returns; a deletion failed, which is its last event, and it ends in
    [sys.exit(1)]; or the directory could not be listed and the exception
    propagates. It changes nothing but the staging directory. *)
Lemma clear_run w :
  let c := clear_patients_to_sync_folder w in
  final c = set_staging (w_staging (final c)) w /\
  exists evs,
    events c = EvListdir patients_to_sync_dir :: evs /\
    ((result c = Ok tt /\ forallb is_unlink_ok evs = true)
     \/
     (result c = SysExit 1 /\
      exists pre path,
        evs = pre ++ [EvUnlink path false] /\
        forallb is_unlink_ok pre = true)
     \/
     (exists e, result c = Raise e /\ evs = [])).
Proof.
  cbv zeta. rewrite clear_as_loop. destruct (w_listable w).
  - cbv zeta. cbn [events final result].
    destruct (clear_loop_run (listing (w_rank w) (w_staging w)) w)
      as (removed & Hfin & _ & _ & _ & Hres).
    split; [exact Hfin|]. eexists. split; [reflexivity|].
    destruct (result (clear_loop (listing (w_rank w) (w_staging w)) w))
      as [[]|s|e]; [| |contradiction].
    + destruct Hres as [-> _]. left. split; [reflexivity|].
      apply map_unlinked_ok.
    + destruct Hres as (-> & f & _ & _ & _ & ->). right. left.
      split; [reflexivity|]. eexists _, _. split; [reflexivity|].
      apply map_unlinked_ok.
  - cbn [events final result]. split; [symmetry; apply set_staging_same|].
    exists []. split; [reflexivity|]. right. right. eauto.
Qed.

Lemma append_inj_l (s a b : string) : s +:+ a = s +:+ b -> a = b.
Proof.
  induction s as [|c s IH]; cbn; [tauto|]. intros H. injection H as H.
  apply IH, H.
Qed.

Lemma path_join_inj dir a b : path_join dir a = path_join dir b -> a = b.
Proof.
  unfold path_join. intros H. apply append_inj_l in H.
  apply append_inj_l in H. exact H.
Qed.

Lemma in_map_unlinked name names :
  In (unlinked name) (map unlinked names) <-> In name names.
Proof.
  rewrite in_map_iff. split.
  - intros (n & Hn & Hin).
    assert (Hp : path_join patients_to_sync_dir n
                 = path_join patients_to_sync_dir name)
      by (unfold unlinked in Hn; congruence).
    apply path_join_inj in Hp. subst n. exact Hin.
  - intros Hin. exists name. split; [reflexivity | exact Hin].
Qed.

(** What a clear does, by the names [removed] it deleted and the event
    [tail] it ended on. *)
Lemma clear_spec w :
  let c := clear_patients_to_sync_folder w in
  let d := w_staging w in
  let d' := w_staging (final c) in
  exists removed tail,
    events c = EvListdir patients_to_sync_dir :: map unlinked removed ++ tail /\
    sublist removed (listing (w_rank w) d) /\
    (forall n, In n removed ->
               entry_removable (d !! n) = Some true /\
               resolves_to_file max_links d n = true /\
               d' !! n = None) /\
    (forall n, ~ In n removed -> d' !! n = d !! n) /\
    if w_listable w
    then match result c with
         | Ok _ =>
             tail = [] /\
             (forall n, always_file (d !! n) = true -> In n removed) /\
             (forall n, resolves_to_file max_links d' n = false)
         | SysExit s =>
             s = 1%Z /\
             exists f,
               entry_removable (d !! f) = Some false /\
               resolves_to_file max_links d f = true /\
               tail = [EvUnlink (path_join patients_to_sync_dir f) false]
         | Raise _ => False
         end
    else removed = [] /\ tail = [] /\
         result c = Raise (Exception "OSError") /\ final c = w.
Proof.
  cbv zeta. rewrite clear_as_loop. destruct (w_listable w).
  - cbv zeta. cbn [events final result].
    destruct (clear_loop_run (listing (w_rank w) (w_staging w)) w)
      as (removed & _ & Hsub & Hin & Hout & Hres).
    destruct (result (clear_loop (listing (w_rank w) (w_staging w)) w))
      as [[]|s|e]; [| |contradiction].
    + destruct Hres as [Hev Hall]. exists removed, [].
      split; [rewrite Hev, app_nil_r; reflexivity|].
      split; [exact Hsub|]. split; [exact Hin|]. split; [exact Hout|].
      split; [reflexivity|].
      assert (Hfiles : forall n, always_file (w_staging w !! n) = true ->
                                 In n removed).
      { intros n Hn. apply Hall; [|exact Hn]. apply listing_in.
        intros Hnone. rewrite Hnone in Hn. discriminate. }
      split; [exact Hfiles|].
      intros n.
      destruct (resolves_to_file max_links _ n) eqn:Hr; [|reflexivity].
      exfalso. apply resolves_always in Hr as [n' Hn'].
      destruct (in_dec string_dec n' removed) as [Hi|Hi].
      * apply Hin in Hi as (_ & _ & Hi). rewrite Hi in Hn'. discriminate.
      * rewrite (Hout _ Hi) in Hn'. apply Hi, Hfiles, Hn'.
    + destruct Hres as (-> & f & _ & Hrm & Hkind & Hev).
      exists removed, [EvUnlink (path_join patients_to_sync_dir f) false].
      split; [rewrite Hev; reflexivity|].
      split; [exact Hsub|]. split; [exact Hin|]. split; [exact Hout|].
      split; [reflexivity|]. exists f.
      split; [exact Hrm|]. split; [exact Hkind | reflexivity].
  - cbn [events final result]. exists [], [].
    split; [reflexivity|]. split; [apply sublist_nil_l|].
    split; [intros n []|]. split; [reflexivity|]. repeat split.
Qed.

(** The same for the clear: its loop goes through the listing. *)
Lemma clear_reached w pre n post :
  let c := clear_patients_to_sync_folder w in
  let d := w_staging w in
  let d' := w_staging (final c) in
  listing (w_rank w) d = pre ++ n :: post ->
  (d' !! n = None ->
   resolves_to_file max_links (reached d d' pre) n = true) /\
  (result c = Ok tt ->
   resolves_to_file max_links (reached d d' pre) n = true ->
   d' !! n = None).
Proof.
  cbv zeta. intros Hsplit.
  assert (Hpres : forall m, In m (listing (w_rank w) (w_staging w)) ->
                            w_staging w !! m <> None)
    by (intros m Hm; apply listing_in in Hm; exact Hm).
  rewrite clear_as_loop. destruct (w_listable w).
  - cbv zeta. cbn [events final result].
    exact (clear_loop_reached _ w (listing_nodup _ _) Hpres _ _ _ Hsplit).
  - cbn [events final result]. split; [|discriminate].
    intros Hnone. exfalso. apply (Hpres n); [|exact Hnone].
    rewrite Hsplit. apply in_or_app. right. left. reflexivity.
Qed.

(** A sequence runs its first part, and the rest only when that
    returned. *)
Lemma bind_cases {A B} (m : M E A) (k : A -> M E B) w (r : Run E B) :
  r = bind m k w ->
  match result (m w) with
  | Ok a =>
      exists r', r' = k a (final (m w)) /\
                 events r = events (m w) ++ events r' /\
                 final r = final r' /\ result r = result r'
  | SysExit s =>
      events r = events (m w) /\ final r = final (m w) /\ result r = SysExit s
  | Raise e =>
      events r = events (m w) /\ final r = final (m w) /\ result r = Raise e
  end.
Proof.
  intros ->. unfold bind. destruct (result (m w)); cbn; eauto.
Qed.

Lemma ProgressTracker_new_run file w :
  ProgressTracker_new file w
  = {| events := [EvNewTracker (w_next_id w) file];
       final := set_next_id (S (w_next_id w)) w;
       result := Ok {| pt_id := w_next_id w; pt_file := file |} |}.
Proof. reflexivity. Qed.

Lemma get_progress_run t loc w :
  get_progress t loc w
  = {| events := [EvGetProgress (pt_id t) loc (document (pt_file t) w !! loc)];
       final := w;
       result := Ok (document (pt_file t) w !! loc) |}.
Proof. reflexivity. Qed.

Lemma reset_progress_run t loc w :
  reset_progress t loc w
  = {| events := [EvResetProgress (pt_id t) loc];
       final := set_document (pt_file t)
                  (<[loc := []]> (document (pt_file t) w)) w;
       result := Ok tt |}.
Proof. reflexivity. Qed.

Lemma call_run {A} (c : Collaborator E A) (ev : Reply A -> Event) w :
  call c ev w
  = {| events := [ev (snd (c (w_ext w, w_staging w)))];
       final := set_shared (fst (c (w_ext w, w_staging w))) w;
       result := match snd (c (w_ext w, w_staging w)) with
                 | Returns a => Ok a
                 | Raises e => Raise e
                 end |}.
Proof. reflexivity. Qed.

Lemma process_location_run loc svc pt w (r : Run E unit) :
  r = process_location loc svc pt w ->
  let c := clear_patients_to_sync_folder w in
  let id := w_next_id w in
  let doc := document progress_file w in
  exists o,
    events r
    = EvLocation loc :: events c
      ++ match o with
         | ClearFailed | ListingFailed _ => []
         | _ => tracker_events id loc (doc !! loc) ++ outcome_events id loc o
         end /\
    result r = outcome_result o /\
    match o with
    | ClearFailed => result c = SysExit 1
    | ListingFailed e => result c = Raise e
    | _ => result c = Ok tt
    end /\
    match o with
    | UnitRaised m done u rest _ | RecordFailed m done u rest =>
        Json.dict_of_pairs m = done ++ u :: rest
    | _ => True
    end /\
    w_next_id (final r)
    = match o with ClearFailed | ListingFailed _ => id | _ => S id end /\
    w_json (final r) = outcome_json o (w_json w) /\
    w_text (final r) = w_text w /\
    document progress_file (final r) = outcome_document loc o doc.
Proof.
  intros Hr. cbv zeta.
  pose proof (clear_run w) as Hc. cbv zeta in Hc.
  unfold process_location in Hr.
  apply bind_cases in Hr. cbn [emit events final result] in Hr.
  destruct Hr as (r1 & Hr1 & He & Hf & Hres).
  apply bind_cases in Hr1.
  destruct (clear_patients_to_sync_folder w) as [cev cw cres].
  cbn [events final result] in *.
  destruct Hc as (Hcw & evs & Hcev & Hc).
  destruct Hc as [(-> & _)|[(-> & _)|(e & -> & _)]].
  2:{ exists ClearFailed. destruct Hr1 as (He1 & Hf1 & Hres1).
      rewrite He, Hf, Hres, He1, Hf1, Hres1, app_nil_r.
      cbn [outcome_result outcome_json outcome_document].
      rewrite Hcw. repeat split. }
  2:{ exists (ListingFailed e). destruct Hr1 as (He1 & Hf1 & Hres1).
      rewrite He, Hf, Hres, He1, Hf1, Hres1, app_nil_r.
      cbn [outcome_result outcome_json outcome_document].
      rewrite Hcw. repeat split. }
  destruct Hr1 as (r2 & Hr2 & He1 & Hf1 & Hres1).
  assert (Hid : w_next_id cw = w_next_id w) by (rewrite Hcw; reflexivity).
  assert (Hjs : w_json cw = w_json w) by (rewrite Hcw; reflexivity).
  assert (Htx : w_text cw = w_text w) by (rewrite Hcw; reflexivity).
  assert (Hpr : w_progress cw = w_progress w) by (rewrite Hcw; reflexivity).
  clear Hcw.
  apply bind_cases in Hr2. rewrite ProgressTracker_new_run in Hr2.
  cbn [events final result] in Hr2.
  destruct Hr2 as (r3 & Hr3 & He2 & Hf2 & Hres2).
  apply bind_cases in Hr3. rewrite get_progress_run in Hr3.
  cbn [events final result pt_id pt_file] in Hr3.
  destruct Hr3 as (r4 & Hr4 & He3 & Hf3 & Hres3).
  set (t := {| pt_id := w_next_id cw; pt_file := progress_file |}) in *.
  set (w2 := set_next_id (S (w_next_id cw)) cw) in *.
  assert (Hdoc2 : document progress_file w2 = document progress_file w)
    by (unfold document; cbn; rewrite Hpr; reflexivity).
  rewrite Hdoc2 in *.
  set (w3 := match document progress_file w !! loc with
             | Some _ => w2
             | None => set_document progress_file
                         (<[loc := []]> (document progress_file w)) w2
             end).
  assert (Hinit :
    (match document progress_file w !! loc with
     | Some _ => ret tt
     | None => reset_progress t loc
     end) w2
    = {| events := match document progress_file w !! loc with
                   | Some _ => []
                   | None => [EvResetProgress (w_next_id cw) loc]
                   end;
         final := w3; result := Ok tt |}).
  { subst w3. destruct (document progress_file w !! loc); [reflexivity|].
    rewrite reset_progress_run. cbn [pt_file pt_id t]. rewrite Hdoc2.
    reflexivity. }
  assert (Hdoc3 : document progress_file w3
                  = initialized loc (document progress_file w)).
  { subst w3. unfold initialized.
    destruct (document progress_file w !! loc); [exact Hdoc2|].
    apply document_set_document. }
  assert (Hw3 : w_next_id w3 = S (w_next_id w) /\ w_json w3 = w_json w
                /\ w_text w3 = w_text w).
  { subst w3 w2. destruct (document progress_file w !! loc); cbn;
      rewrite Hid, Hjs, Htx; repeat split. }
  destruct Hw3 as (Hid3 & Hjs3 & Htx3).
  clearbody w3. clear Hdoc2. clearbody w2.
  apply bind_cases in Hr4. rewrite Hinit in Hr4.
  cbn [events final result] in Hr4.
  destruct Hr4 as (r5 & Hr5 & He4 & Hf4 & Hres4).
  assert (Hpre : events r = EvLocation loc :: cev
                   ++ tracker_events (w_next_id w) loc
                        (document progress_file w !! loc)
                   ++ events r5).
  { rewrite He, He1, He2, He3, He4, Hid. unfold tracker_events. cbn.
    destruct (document progress_file w !! loc); reflexivity. }
  assert (Hfin : final r = final r5) by congruence.
  assert (Hrs : result r = result r5) by congruence.
  clear He He1 He2 He3 He4 Hf Hf1 Hf2 Hf3 Hf4 Hres Hres1 Hres2 Hres3 Hres4 Hinit.
  clear r1 r2 r3 r4.
  apply bind_cases in Hr5. rewrite call_run in Hr5.
  cbn [events final result] in Hr5.
  destruct (connect svc (w_ext w3, w_staging w3)) as [x [[]|e]];
    cbn [fst snd] in Hr5.
  2:{ destruct Hr5 as (He5 & Hf5 & Hres5). exists (ConnectRaised e).
      rewrite Hpre, Hfin, Hrs, He5, Hf5, Hres5.
      cbn [outcome_events outcome_result outcome_json outcome_document].
      cbn. rewrite Hid3, Hjs3, Htx3. repeat split. exact Hdoc3. }
  destruct Hr5 as (r6 & Hr6 & He5 & Hf5 & Hres5).
  apply bind_cases in Hr6.
  pose proof (fetch_and_process_run svc t loc (set_shared x w3)) as Htry.
  cbv zeta in Htry.
  destruct (try_except (fetch_and_process loc svc t []) (λ _ : Exn, sys_exit 1)
              (set_shared x w3)) as [tev tw tres].
  cbn [events final result] in *.
  destruct Htry as (Htx4 & Hid4 & Htry).
  cbn [w_text w_next_id set_shared] in Htx4, Hid4.
  assert (Hdocx : document (pt_file t) (set_shared x w3)
                  = initialized loc (document progress_file w))
    by (rewrite <- Hdoc3; reflexivity).
  assert (Hjsx : w_json (set_shared x w3) = w_json w) by exact Hjs3.
  rewrite Hdocx, Hjsx in Htry. cbn [pt_file pt_id t] in Htry.
  rewrite Hid in Htry.
  destruct Htry as [(e & -> & -> & Hj & Hd)|[(-> & -> & Hj & Hd)
                   |(m & done & rest & Hitems & Hj & Hd & Hrest)]].
  - destruct Hr6 as (He6 & Hf6 & Hres6). exists (FetchRaised e).
    rewrite Hpre, Hfin, Hrs, He5, Hf5, Hres5, He6, Hf6, Hres6.
    cbn [outcome_events outcome_result outcome_json outcome_document].
    rewrite Hid4, Hid3, Hj, Htx4, Htx3, Hd. repeat split.
  - destruct Hr6 as (He6 & Hf6 & Hres6). exists FetchNone.
    rewrite Hpre, Hfin, Hrs, He5, Hf5, Hres5, He6, Hf6, Hres6.
    cbn [outcome_events outcome_result outcome_json outcome_document].
    rewrite Hid4, Hid3, Hj, Htx4, Htx3, Hd. repeat split.
  - destruct rest as [|u rest'].
    + destruct Hrest as [-> ->]. rewrite app_nil_r in Hitems. subst done.
      destruct Hr6 as (r7 & Hr7 & He6 & Hf6 & Hres6).
      rewrite call_run in Hr7.
      exists (UnitsDone m (snd (process_patient_files svc (w_ext tw, w_staging tw)))).
      rewrite Hpre, Hfin, Hrs, He5, Hf5, Hres5, He6, Hf6, Hres6, Hr7.
      cbn [events final result outcome_events outcome_json outcome_document].
      cbn [w_next_id w_json w_text set_shared].
      rewrite Hid4, Hid3, Hj, Htx4, Htx3.
      split; [reflexivity|].
      split; [destruct (snd (process_patient_files svc (w_ext tw, w_staging tw)))
                as [[]|]; reflexivity|].
      repeat split. exact Hd.
    + destruct Hrest as (stop & -> & ->).
      destruct Hr6 as (He6 & Hf6 & Hres6).
      exists (match stop with
              | Some e => UnitRaised m done u rest' e
              | None => RecordFailed m done u rest'
              end).
      rewrite Hpre, Hfin, Hrs, He5, Hf5, Hres5, He6, Hf6, Hres6.
      destruct stop as [e|];
        cbn [outcome_events outcome_result outcome_json outcome_document
             stop_events];
        rewrite Hid4, Hid3, Hj, Htx4, Htx3, Hd; repeat split; exact Hitems.
Qed.

(** *** Reading a trace *)

Lemma unit_trace_app evs evs' :
  unit_trace (evs ++ evs') = unit_trace evs ++ unit_trace evs'.
Proof. apply List.filter_app. Qed.

Lemma processed_app evs evs' :
  processed (evs ++ evs') = processed evs ++ processed evs'.
Proof.
  induction evs as [|ev evs IH]; [reflexivity|].
  destruct ev; cbn; rewrite ?IH; reflexivity.
Qed.

Lemma uploads_app evs evs' : uploads (evs ++ evs') = uploads evs + uploads evs'.
Proof.
  induction evs as [|ev evs IH]; [reflexivity|].
  destruct ev; cbn; rewrite ?IH; reflexivity.
Qed.

Lemma locations_of_app evs evs' :
  locations_of (evs ++ evs') = locations_of evs ++ locations_of evs'.
Proof.
  induction evs as [|ev evs IH]; [reflexivity|].
  destruct ev; cbn; rewrite ?IH; reflexivity.
Qed.

Lemma trackers_of_app evs evs' :
  trackers_of (evs ++ evs') = trackers_of evs ++ trackers_of evs'.
Proof.
  induction evs as [|ev evs IH]; [reflexivity|].
  destruct ev; cbn; rewrite ?IH; reflexivity.
Qed.

Lemma tracker_uses_app evs evs' :
  tracker_uses (evs ++ evs') = tracker_uses evs ++ tracker_uses evs'.
Proof.
  induction evs as [|ev evs IH]; [reflexivity|].
  destruct ev; cbn; rewrite ?IH; reflexivity.
Qed.

(** Clearing produces nothing but the listing and the deletions. *)
Lemma clear_events_quiet evs :
  forallb is_clear_event evs = true ->
  unit_trace evs = [] /\ processed evs = [] /\ uploads evs = 0 /\
  locations_of evs = [] /\ trackers_of evs = [] /\ tracker_uses evs = [] /\
  forallb (fun ev => negb (is_after_clear ev)) evs = true.
Proof.
  induction evs as [|ev evs IH]; intros H; [repeat split|].
  cbn in H. apply andb_true_iff in H as [Hev H].
  destruct (IH H) as (? & ? & ? & ? & ? & ? & ?).
  destruct ev; try discriminate; cbn; repeat split; assumption.
Qed.

Lemma forallb_unlink_ok_clear evs :
  forallb is_unlink_ok evs = true -> forallb is_clear_event evs = true.
Proof.
  induction evs as [|ev evs IH]; [reflexivity|]. cbn.
  intros H. apply andb_true_iff in H as [Hev H]. rewrite (IH H).
  destruct ev; try discriminate. reflexivity.
Qed.

Lemma forallb_unlink_ok_not_fatal evs :
  forallb is_unlink_ok evs = true ->
  forallb (fun ev => negb (is_fatal ev)) evs = true.
Proof.
  induction evs as [|ev evs IH]; [reflexivity|]. cbn.
  intros H. apply andb_true_iff in H as [Hev H]. rewrite (IH H).
  destruct ev as [| |? []| | | | | | | | | | | |]; try discriminate.
  reflexivity.
Qed.

Lemma clear_events_only w :
  forallb is_clear_event (events (clear_patients_to_sync_folder w)) = true.
Proof.
  destruct (clear_run w) as (_ & evs & -> & H). cbn.
  destruct H as [(_ & Hok)|[(_ & pre & path & -> & Hok)|(e & _ & ->)]].
  - apply forallb_unlink_ok_clear, Hok.
  - rewrite forallb_app, (forallb_unlink_ok_clear _ Hok). reflexivity.
  - reflexivity.
Qed.

(** What the events of finished units contain. *)
Lemma unit_events_trace id loc (items : Snapshot) :
  let evs := flat_map (unit_events id loc) items in
  unit_trace evs = evs /\ processed evs = items /\ uploads evs = 0 /\
  locations_of evs = [] /\ trackers_of evs = [] /\
  tracker_uses evs = map (fun _ => (id, loc)) items /\
  forallb is_after_fetch evs = true /\
  forallb (fun ev => negb (is_fatal ev)) evs = true.
Proof.
  cbv zeta. induction items as [|[p es] items IH]; [repeat split|].
  destruct IH as (H1 & H2 & H3 & H4 & H5 & H6 & H7 & H8).
  cbn. rewrite H2, H3, H4, H5, H6, H7, H8.
  unfold unit_trace in H1. rewrite H1. repeat split.
Qed.

(** What the events after the clear contain, outcome by outcome. *)
Lemma run_tail_trace id loc entry o :
  let evs := run_tail id loc entry o in
  unit_trace evs
  = flat_map (unit_events id loc) (units_done o)
    ++ match o with
       | UnitRaised _ _ u _ e => stop_events id loc u (Some e)
       | RecordFailed _ _ u _ => stop_events id loc u None
       | _ => []
       end /\
  processed evs
  = units_done o
    ++ match o with
       | UnitRaised _ _ u _ _ | RecordFailed _ _ u _ => [u]
       | _ => []
       end /\
  uploads evs = match o with UnitsDone _ _ => 1 | _ => 0 end /\
  locations_of evs = [] /\
  trackers_of evs
  = match o with ClearFailed | ListingFailed _ => [] | _ => [id] end /\
  forall x, In x (tracker_uses evs) -> x = (id, loc).
Proof.
  cbv zeta.
  assert (Hin : forall (items : Snapshot) x,
             In x (map (fun _ : string * list string => (id, loc)) items) ->
             x = (id, loc)).
  { intros items x Hx. apply in_map_iff in Hx as (? & <- & _). reflexivity. }
  destruct o as [|e|e| |m done [p es] rest e|m up|e|m done [p es] rest];
    unfold run_tail, tracker_events, outcome_events, snapshot_events, units_done;
    rewrite ?unit_trace_app, ?processed_app, ?uploads_app, ?locations_of_app,
      ?trackers_of_app, ?tracker_uses_app;
    try (destruct entry; cbn; repeat split; intros x Hx; cbn in Hx;
         intuition congruence).
  1,3: destruct (unit_events_trace id loc done)
         as (H1 & H2 & H3 & H4 & H5 & H6 & _);
    destruct entry; cbn; rewrite ?unit_trace_app, ?processed_app, ?uploads_app,
      ?locations_of_app, ?trackers_of_app, ?tracker_uses_app, H1, H2, H3, H4,
      H5, H6; cbn; rewrite ?app_nil_r; repeat split;
      intros x Hx; cbn in Hx; rewrite ?app_nil_r in Hx;
      repeat (destruct Hx as [Hx|Hx]; [congruence|]);
      try (apply in_app_or in Hx as [Hx|Hx]; [exact (Hin _ _ Hx)|];
           cbn in Hx);
      repeat (destruct Hx as [Hx|Hx]; [congruence|]);
      first [contradiction | eauto].
  - destruct (unit_events_trace id loc (Json.dict_of_pairs m))
      as (H1 & H2 & H3 & H4 & H5 & H6 & _).
    destruct entry; cbn; rewrite ?unit_trace_app, ?processed_app, ?uploads_app,
      ?locations_of_app, ?trackers_of_app, ?tracker_uses_app, H1, H2, H3, H4,
      H5, H6; cbn; rewrite ?app_nil_r; repeat split;
      intros x Hx; cbn in Hx; rewrite ?app_nil_r in Hx;
      repeat (destruct Hx as [Hx|Hx]; [congruence|]); eauto.
Qed.

(** A location run, read through its outcome. *)
Lemma process_location_outcome loc svc pt w :
  exists o, run_outcome loc w (process_location loc svc pt w) o.
Proof.
  destruct (process_location_run loc svc pt w _ eq_refl) as (o & H).
  exists o. exact H.
Qed.

(** *** Fatal events *)

Lemma fatal_unique (pre : list Event) ev ev' :
  forallb (fun x => negb (is_fatal x)) pre = true ->
  In ev' (pre ++ [ev]) -> is_fatal ev' = true -> ev' = ev.
Proof.
  intros Hpre Hin Hf. apply in_app_or in Hin as [Hin|[Hin|[]]]; [|congruence].
  rewrite forallb_forall in Hpre. apply Hpre in Hin. rewrite Hf in Hin.
  discriminate.
Qed.

Lemma run_tail_fatal id loc entry o :
  match outcome_fatal id loc o with
  | Some ev =>
      exists pre,
        run_tail id loc entry o = pre ++ [ev] /\
        forallb (fun x => negb (is_fatal x)) pre = true
  | None =>
      forallb (fun x => negb (is_fatal x)) (run_tail id loc entry o) = true
  end.
Proof.
  assert (Ht : forallb (fun x => negb (is_fatal x))
                 (tracker_events id loc entry) = true)
    by (destruct entry; reflexivity).
  destruct o as [|e|e| |m done u rest e|m up|e|m done u rest]; cbn [outcome_fatal];
    unfold run_tail, outcome_events.
  - reflexivity.
  - exists (tracker_events id loc entry ++ []).
    split; [rewrite <- app_assoc; reflexivity|].
    rewrite forallb_app, Ht. reflexivity.
  - exists (tracker_events id loc entry ++ [EvConnect (Returns tt)]).
    split; [rewrite <- app_assoc; reflexivity|].
    rewrite forallb_app, Ht. reflexivity.
  - exists (tracker_events id loc entry ++ [EvConnect (Returns tt)]).
    split; [rewrite <- app_assoc; reflexivity|].
    rewrite forallb_app, Ht. reflexivity.
  - destruct (unit_events_trace id loc done) as (_ & _ & _ & _ & _ & _ & _ & H).
    exists (tracker_events id loc entry
              ++ EvConnect (Returns tt) :: snapshot_events loc m
              ++ flat_map (unit_events id loc) done).
    split; [rewrite <- !app_assoc; cbn; rewrite <- ?app_assoc; reflexivity|].
    rewrite forallb_app, Ht. cbn. exact H.
  - destruct (unit_events_trace id loc (Json.dict_of_pairs m))
      as (_ & _ & _ & _ & _ & _ & _ & H).
    rewrite forallb_app, Ht. cbn. rewrite forallb_app, H. reflexivity.
  - reflexivity.
  - destruct (unit_events_trace id loc done) as (_ & _ & _ & _ & _ & _ & _ & H).
    exists (tracker_events id loc entry
              ++ EvConnect (Returns tt) :: snapshot_events loc m
              ++ flat_map (unit_events id loc) done
              ++ [EvProcess (fst u) (snd u) loc (Returns tt)]).
    split; [rewrite <- !app_assoc; cbn; rewrite <- ?app_assoc; reflexivity|].
    rewrite forallb_app, Ht. cbn. rewrite forallb_app, H. reflexivity.
Qed.

(** A fatal event is the last event of its location run, and the run does
    not return: it ends in [sys.exit(1)], or in the exception [connect]
    raised. The event is the failed deletion or the one the outcome names. *)
Lemma run_outcome_fatal loc w (r : Run E unit) o ev :
  run_outcome loc w r o ->
  In ev (events r) -> is_fatal ev = true ->
  (exists pre,
     events r = pre ++ [ev] /\
     forallb (fun x => negb (is_fatal x)) pre = true) /\
  exit_status (result r) = 1%Z /\
  match o with
  | ClearFailed => exists path, ev = EvUnlink path false
  | _ => outcome_fatal (w_next_id w) loc o = Some ev
  end.
Proof.
  intros (Hev & Hres & Hc & _) Hin Hf.
  rewrite Hev, Hres in *. clear Hev Hres.
  destruct (clear_run w) as (_ & evs & Hcev & Hclear).
  pose proof (run_tail_fatal (w_next_id w) loc
                (document progress_file w !! loc) o) as Htail.
  destruct Hclear as [(Hok & Hevs)|[(Hfail & pre & path & -> & Hpre)
                                   |(e' & Hfail & ->)]].
  3:{ exfalso.
      assert (Ho : exists e, o = ListingFailed e)
        by (destruct o; try congruence; eauto).
      destruct Ho as [e ->]. rewrite Hcev in Hin. cbn in Hin.
      destruct Hin as [<-|[<-|[]]]; discriminate. }
  - assert (Ho : o <> ClearFailed) by (intros ->; congruence).
    rewrite Hcev in *.
    assert (Hq : forallb (fun x => negb (is_fatal x))
                   (EvLocation loc :: EvListdir patients_to_sync_dir :: evs)
                 = true)
      by (cbn; apply forallb_unlink_ok_not_fatal, Hevs).
    destruct (outcome_fatal (w_next_id w) loc o) as [ev'|] eqn:Hof.
    + destruct Htail as (pre & Htl & Hpre). rewrite Htl in *.
      assert (ev = ev').
      { apply (fatal_unique
                 ((EvLocation loc :: EvListdir patients_to_sync_dir :: evs)
                    ++ pre)).
        - rewrite forallb_app, Hq, Hpre. reflexivity.
        - rewrite <- app_assoc. exact Hin.
        - exact Hf. }
      subst ev'. split; [|split].
      * exists ((EvLocation loc :: EvListdir patients_to_sync_dir :: evs)
                  ++ pre).
        split; [rewrite <- app_assoc; reflexivity|].
        rewrite forallb_app, Hq, Hpre. reflexivity.
      * destruct o as [|e|e| |m done u rest e|m up|e|m done u rest]; try discriminate;
          reflexivity.
      * destruct o; try congruence.
    + exfalso.
      assert (Hall : forallb (fun x => negb (is_fatal x))
                       ((EvLocation loc :: EvListdir patients_to_sync_dir :: evs)
                          ++ run_tail (w_next_id w) loc
                               (document progress_file w !! loc) o) = true)
        by (rewrite forallb_app, Hq, Htail; reflexivity).
      rewrite forallb_forall in Hall. apply Hall in Hin.
      rewrite Hf in Hin. discriminate.
  - assert (Ho : o = ClearFailed)
      by (destruct o; try reflexivity; congruence).
    subst o. cbn [run_tail outcome_result exit_status] in *.
    rewrite Hcev, app_nil_r in *.
    assert (Hq : forallb (fun x => negb (is_fatal x))
                   (EvLocation loc :: EvListdir patients_to_sync_dir :: pre)
                 = true)
      by (cbn; apply forallb_unlink_ok_not_fatal, Hpre).
    assert (ev = EvUnlink path false)
      by (apply (fatal_unique _ _ _ Hq); [exact Hin | exact Hf]).
    subst ev. split; [|split; [reflexivity|eauto]].
    exists (EvLocation loc :: EvListdir patients_to_sync_dir :: pre).
    split; [reflexivity | exact Hq].
Qed.

Lemma process_location_fatal loc svc pt w ev :
  let r := process_location loc svc pt w in
  In ev (events r) -> is_fatal ev = true ->
  (exists pre,
     events r = pre ++ [ev] /\
     forallb (fun x => negb (is_fatal x)) pre = true) /\
  exit_status (result r) = 1%Z.
Proof.
  cbv zeta. intros Hin Hf.
  destruct (process_location_outcome loc svc pt w) as (o & Ho).
  destruct (run_outcome_fatal _ _ _ _ _ Ho Hin Hf) as (H1 & H2 & _).
  split; assumption.
Qed.

(** *** The batch *)

Lemma for_each_location_cons svc loc rest w :
  let t := {| pt_id := w_next_id w; pt_file := progress_file |} in
  let r1 := process_location loc svc t (set_next_id (S (w_next_id w)) w) in
  let r := for_each_location svc (loc :: rest) w in
  match result r1 with
  | Ok _ =>
      events r = EvNewTracker (w_next_id w) progress_file :: events r1
                   ++ events (for_each_location svc rest (final r1)) /\
      final r = final (for_each_location svc rest (final r1)) /\
      result r = result (for_each_location svc rest (final r1))
  | _ =>
      events r = EvNewTracker (w_next_id w) progress_file :: events r1 /\
      final r = final r1 /\
      result r = result r1
  end.
Proof.
  cbv zeta. cbn [for_each_location].
  pose proof (bind_cases _ _ w _
    (eq_refl (bind (ProgressTracker_new progress_file)
       (fun progress_tracker =>
          bind (process_location loc svc progress_tracker)
            (fun _ => for_each_location svc rest)) w))) as H.
  rewrite ProgressTracker_new_run in H. cbn [events final result] in H.
  destruct H as (r' & Hr' & He & Hf & Hres).
  apply bind_cases in Hr'.
  destruct (result (process_location loc svc
                      {| pt_id := w_next_id w; pt_file := progress_file |}
                      (set_next_id (S (w_next_id w)) w))) as [[]|s|e].
  - destruct Hr' as (r'' & -> & He' & Hf' & Hres').
    rewrite He, Hf, Hres, He', Hf', Hres'. repeat split.
  - destruct Hr' as (He' & Hf' & Hres').
    rewrite He, Hf, Hres, He', Hf', Hres'. repeat split.
  - destruct Hr' as (He' & Hf' & Hres').
    rewrite He, Hf, Hres, He', Hf', Hres'. repeat split.
Qed.

(** A fatal event of a batch sits in its last location run, which is where
    the batch ends. *)
Lemma for_each_location_fatal svc locs w ev :
  let r := for_each_location svc locs w in
  In ev (events r) -> is_fatal ev = true ->
  exists pre loc pt w1,
    let r1 := process_location loc svc pt w1 in
    events r = pre ++ events r1 /\ final r = final r1 /\
    result r = result r1 /\ In ev (events r1).
Proof.
  cbv zeta. revert w. induction locs as [|loc rest IH]; intros w Hin Hf.
  - destruct Hin.
  - pose proof (for_each_location_cons svc loc rest w) as H. cbv zeta in H.
    set (t := {| pt_id := w_next_id w; pt_file := progress_file |}) in *.
    set (w' := set_next_id (S (w_next_id w)) w) in *.
    pose proof (process_location_fatal loc svc t w' ev) as Hfat.
    cbv zeta in Hfat.
    destruct (result (process_location loc svc t w')) as [[]|s|e] eqn:Hres.
    + destruct H as (He & Hfin & Hr). rewrite He, Hfin, Hr in *.
      destruct Hin as [Hin|Hin]; [subst ev; discriminate|].
      apply in_app_or in Hin as [Hin|Hin].
      * destruct (Hfat Hin Hf) as [_ Hst]. discriminate.
      * destruct (IH _ Hin Hf) as (pre & l & pt & w1 & He1 & Hf1 & Hr1 & Hi1).
        exists (EvNewTracker (w_next_id w) progress_file
                  :: events (process_location loc svc t w') ++ pre), l, pt, w1.
        rewrite He1, Hf1, Hr1. cbn. rewrite <- app_assoc. repeat split.
        exact Hi1.
    + destruct H as (He & Hfin & Hr). rewrite He, Hfin, Hr in *.
      destruct Hin as [Hin|Hin]; [subst ev; discriminate|].
      exists [EvNewTracker (w_next_id w) progress_file], loc, t, w'.
      repeat split; [symmetry; exact Hres | exact Hin].
    + destruct H as (He & Hfin & Hr). rewrite He, Hfin, Hr in *.
      destruct Hin as [Hin|Hin]; [subst ev; discriminate|].
      exists [EvNewTracker (w_next_id w) progress_file], loc, t, w'.
      repeat split; [symmetry; exact Hres | exact Hin].
Qed.

(** *** Reading the roster *)

Lemma read_location_ids_run file_path w :
  read_location_ids file_path w
  = {| events := [];
       final := w;
       result := match w_text w !! file_path with
                 | None => SysExit 1
                 | Some content =>
                     match spec_roster content with
                     | [] => SysExit 1
                     | location_ids => Ok location_ids
                     end
                 end |}.
Proof.
  unfold read_location_ids, bind, gets. cbn [events final result].
  destruct (w_text w !! file_path) as [content|]; [|reflexivity].
  unfold spec_roster.
  rewrite (TextFacts.filter_ext_bool _ _ _ TextFacts.truthy_strip).
  destruct (map Text.strip _); reflexivity.
Qed.

Lemma main_run svc w :
  main svc w
  = match roster w with
    | [] => {| events := []; final := w; result := SysExit 1 |}
    | location_ids => for_each_location svc location_ids w
    end.
Proof.
  unfold main, bind, roster. rewrite read_location_ids_run.
  cbn [events final result]. unfold locations_file.
  destruct (w_text w !! "locations.txt") as [content|]; [|reflexivity].
  destruct (spec_roster content) as [|l ls]; [reflexivity|].
  cbn [app]. destruct (for_each_location svc (l :: ls) w) as [ev f [[]|s|e]];
    reflexivity.
Qed.

(** A fatal event anywhere in the process is its last event, inside the
    last location run. *)
Lemma main_fatal svc w ev :
  let r := main svc w in
  In ev (events r) -> is_fatal ev = true ->
  exists pre loc pt w1,
    let r1 := process_location loc svc pt w1 in
    events r = pre ++ events r1 /\ final r = final r1 /\
    result r = result r1 /\ In ev (events r1).
Proof.
  cbv zeta. rewrite main_run. destruct (roster w) as [|l ls].
  - intros [].
  - apply for_each_location_fatal.
Qed.

(** *** Selecting events of a location run *)

Lemma filter_unit_events_nil (f : Event -> bool) id loc (items : Snapshot) :
  (forall ev, is_unit_event ev = true -> f ev = false) ->
  List.filter f (flat_map (unit_events id loc) items) = [].
Proof.
  intros Hf. induction items as [|u items IH]; [reflexivity|].
  cbn. rewrite !Hf by reflexivity. exact IH.
Qed.

Lemma filter_clear_events_nil (f : Event -> bool) evs :
  (forall ev, is_clear_event ev = true -> f ev = false) ->
  forallb is_clear_event evs = true ->
  List.filter f evs = [].
Proof.
  intros Hf. induction evs as [|ev evs IH]; [reflexivity|]. cbn.
  intros H. apply andb_true_iff in H as [Hev H].
  rewrite (Hf _ Hev). apply IH, H.
Qed.

Lemma length_unit_events id loc (items : Snapshot) :
  length (flat_map (unit_events id loc) items) = 2 * length items.
Proof. induction items as [|u items IH]; cbn; [reflexivity|]. rewrite IH. lia. Qed.

Lemma run_tail_resume id loc entry o :
  List.filter is_resume_event (run_tail id loc entry o)
  = match o with
    | ClearFailed | ListingFailed _ => []
    | _ => EvGetProgress id loc entry
           :: match entry with
              | None => [EvResetProgress id loc]
              | Some _ => []
              end
    end.
Proof.
  assert (Hu : forall items,
             List.filter is_resume_event (flat_map (unit_events id loc) items)
             = []).
  { intros items. apply filter_unit_events_nil.
    intros [] H; try discriminate; reflexivity. }
  destruct o as [|e|e| |m done u rest e|m up|e|m done u rest];
    unfold run_tail, tracker_events, outcome_events, snapshot_events;
    rewrite ?List.filter_app; cbn [List.filter is_resume_event app];
    rewrite ?List.filter_app, ?Hu; destruct entry; reflexivity.
Qed.

Lemma run_tail_snapshot_source id loc entry o :
  List.filter is_snapshot_source (run_tail id loc entry o)
  = match o with
    | UnitRaised m _ _ _ _ | UnitsDone m _ | RecordFailed m _ _ _ =>
        [EvFetch loc [] (Returns (Some m));
         EvLoad encounters_file (Json.dict_of_pairs m)]
    | _ => []
    end.
Proof.
  assert (Hu : forall items,
             List.filter is_snapshot_source
               (flat_map (unit_events id loc) items) = []).
  { intros items. apply filter_unit_events_nil.
    intros [] H; try discriminate; reflexivity. }
  destruct o as [|e|e| |m done u rest e|m up|e|m done u rest];
    unfold run_tail, tracker_events, outcome_events, snapshot_events;
    rewrite ?List.filter_app; cbn [List.filter is_snapshot_source app];
    rewrite ?List.filter_app, ?Hu; destruct entry; reflexivity.
Qed.

(** Selecting from a whole location run is selecting from what follows the
    clear, for a selection that takes neither the entry event nor clear
    events. *)
Lemma run_filter (f : Event -> bool) loc w (r : Run E unit) o :
  run_outcome loc w r o ->
  (forall l, f (EvLocation l) = false) ->
  (forall ev, is_clear_event ev = true -> f ev = false) ->
  List.filter f (events r)
  = List.filter f (run_tail (w_next_id w) loc
                     (document progress_file w !! loc) o).
Proof.
  intros (Hev & _) Hl Hc. rewrite Hev. cbn [List.filter]. rewrite Hl.
  rewrite List.filter_app.
  rewrite (filter_clear_events_nil f _ Hc (clear_events_only w)).
  reflexivity.
Qed.

Lemma initialized_lookup loc l ps (doc : gmap string (list string)) :
  doc !! l = Some ps -> initialized loc doc !! l = Some ps.
Proof.
  intros H. unfold initialized. destruct (doc !! loc) eqn:Hloc; [exact H|].
  rewrite lookup_insert_ne by congruence. exact H.
Qed.

(** A location run only adds to the progress document: every entry it
    finds is still there, in front of what was added. *)
Lemma run_outcome_extends loc w (r : Run E unit) o l ps :
  run_outcome loc w r o ->
  document progress_file w !! l = Some ps ->
  exists more, document progress_file (final r) !! l = Some (ps ++ more).
Proof.
  intros (_ & _ & _ & _ & _ & _ & _ & Hdoc) Hl. rewrite Hdoc.
  pose proof (initialized_lookup loc l ps _ Hl) as Hi.
  destruct o; cbn [outcome_document];
    try (exists []; rewrite app_nil_r; assumption);
    apply record_all_extends; assumption.
Qed.

Lemma for_each_location_extends svc locs w l ps :
  document progress_file w !! l = Some ps ->
  exists more,
    document progress_file (final (for_each_location svc locs w)) !! l
    = Some (ps ++ more).
Proof.
  revert w ps. induction locs as [|loc rest IH]; intros w ps Hl.
  - exists []. rewrite app_nil_r. exact Hl.
  - pose proof (for_each_location_cons svc loc rest w) as H. cbv zeta in H.
    set (t := {| pt_id := w_next_id w; pt_file := progress_file |}) in *.
    set (w' := set_next_id (S (w_next_id w)) w) in *.
    destruct (process_location_outcome loc svc t w') as (o & Ho).
    destruct (run_outcome_extends _ _ _ _ l ps Ho Hl) as (more1 & H1).
    destruct (result (process_location loc svc t w')) as [[]|s|e].
    + destruct H as (_ & -> & _).
      destruct (IH _ _ H1) as (more2 & H2). exists (more1 ++ more2).
      rewrite H2, app_assoc. reflexivity.
    + destruct H as (_ & -> & _). eauto.
    + destruct H as (_ & -> & _). eauto.
Qed.

Lemma run_tail_after_clear id loc entry o :
  forallb is_after_clear (run_tail id loc entry o) = true.
Proof.
  assert (Hu : forall items,
             forallb is_after_clear (flat_map (unit_events id loc) items)
             = true)
    by (intros items; induction items as [|u items IH]; [reflexivity|];
        cbn; exact IH).
  destruct o as [|e|e| |m done u rest e|m up|e|m done u rest];
    unfold run_tail, tracker_events, outcome_events, snapshot_events;
    rewrite ?forallb_app; cbn [forallb is_after_clear app andb];
    rewrite ?forallb_app, ?Hu; destruct entry; reflexivity.
Qed.

(** *** Tracker objects *)

Lemma run_tail_new_tracker id loc entry o :
  List.filter is_new_tracker (run_tail id loc entry o)
  = match o with
    | ClearFailed | ListingFailed _ => []
    | _ => [EvNewTracker id progress_file]
    end.
Proof.
  assert (Hu : forall items,
             List.filter is_new_tracker (flat_map (unit_events id loc) items)
             = []).
  { intros items. apply filter_unit_events_nil.
    intros [] H; try discriminate; reflexivity. }
  destruct o as [|e|e| |m done u rest e|m up|e|m done u rest];
    unfold run_tail, tracker_events, outcome_events, snapshot_events;
    rewrite ?List.filter_app; cbn [List.filter is_new_tracker app];
    rewrite ?List.filter_app, ?Hu; destruct entry; reflexivity.
Qed.

(** One turn of the batch loop, seen from the tracker objects: the turn
    uses object numbers from [w_next_id w] on, and the orchestrator works
    on the object it constructs itself. *)
Lemma location_turn svc loc w :
  let n := w_next_id w in
  let r1 := process_location loc svc {| pt_id := n; pt_file := progress_file |}
              (set_next_id (S n) w) in
  let run := EvNewTracker n progress_file :: events r1 in
  own_instance_run loc run /\
  locations_of run = [loc] /\
  (forall id file, In (EvNewTracker id file) run -> file = progress_file) /\
  S n <= w_next_id (final r1) /\
  (forall id, In id (trackers_of run) -> n <= id < w_next_id (final r1)) /\
  List.NoDup (trackers_of run).
Proof.
  cbv zeta.
  set (t := {| pt_id := w_next_id w; pt_file := progress_file |}).
  set (w' := set_next_id (S (w_next_id w)) w).
  destruct (process_location_outcome loc svc t w') as (o & Ho).
  pose proof (run_filter is_new_tracker _ _ _ _ Ho (fun _ => eq_refl)) as Hnew.
  rewrite run_tail_new_tracker in Hnew.
  destruct Ho as (Hev & _ & _ & _ & Hid & _).
  change (w_next_id w') with (S (w_next_id w)) in *.
  set (entry := document progress_file w' !! loc) in *.
  destruct (clear_events_quiet _ (clear_events_only w'))
    as (_ & _ & _ & Hcl & Hct & Hcu & _).
  destruct (run_tail_trace (S (w_next_id w)) loc entry o)
    as (_ & _ & _ & Htl & Htt & Htu).
  assert (Htr : trackers_of (events (process_location loc svc t w'))
                = match o with
                  | ClearFailed | ListingFailed _ => []
                  | _ => [S (w_next_id w)]
                  end).
  { rewrite Hev. cbn [trackers_of]. rewrite trackers_of_app, Hct, Htt.
    reflexivity. }
  split; [|split; [|split; [|split; [|split]]]].
  - exists (w_next_id w),
      (events (clear_patients_to_sync_folder w')
         ++ run_tail (S (w_next_id w)) loc entry o).
    split; [rewrite Hev; reflexivity|].
    split; [rewrite locations_of_app, Hcl, Htl; reflexivity|].
    intros u Hu. rewrite tracker_uses_app, Hcu in Hu. cbn [app] in Hu.
    rewrite (Htu _ Hu). split; [reflexivity|].
    rewrite trackers_of_app, Hct, Htt. cbn [app fst].
    destruct o; try (left; reflexivity); destruct Hu.
  - rewrite Hev. cbn [locations_of]. rewrite locations_of_app, Hcl, Htl.
    reflexivity.
  - intros id file [Hin|Hin]; [congruence|].
    assert (Hf : In (EvNewTracker id file)
                   (List.filter is_new_tracker
                      (events (process_location loc svc t w'))))
      by (apply List.filter_In; split; [exact Hin | reflexivity]).
    rewrite Hnew in Hf.
    + destruct o; cbn in Hf; intuition congruence.
    + intros [] H; try discriminate; reflexivity.
  - rewrite Hid. destruct o; lia.
  - intros id Hin. cbn [trackers_of] in Hin. rewrite Htr in Hin. rewrite Hid.
    destruct o; cbn in Hin; lia.
  - cbn [trackers_of]. rewrite Htr.
    destruct o; repeat constructor; cbn; try tauto; lia.
Qed.

(** The batch is a sequence of such turns, one per location entered, in
    roster order; it stops at the first turn that does not return. *)
Lemma for_each_location_turns svc locs w :
  let r := for_each_location svc locs w in
  (exists runs,
     events r = concat runs /\
     Forall2 own_instance_run (locations_of (events r)) runs) /\
  (exists rest, locs = locations_of (events r) ++ rest) /\
  (result r = Ok tt -> locations_of (events r) = locs) /\
  (forall id file, In (EvNewTracker id file) (events r) ->
                   file = progress_file) /\
  w_next_id w <= w_next_id (final r) /\
  (forall id, In id (trackers_of (events r)) ->
              w_next_id w <= id < w_next_id (final r)) /\
  List.NoDup (trackers_of (events r)).
Proof.
  cbv zeta. revert w. induction locs as [|loc rest IH]; intros w.
  - cbn. split; [exists []; split; [reflexivity | constructor]|].
    split; [exists []; reflexivity|].
    repeat split; try tauto; try lia. constructor.
  - pose proof (for_each_location_cons svc loc rest w) as H. cbv zeta in H.
    destruct (location_turn svc loc w)
      as (Hown & Hloc & Hfile & Hnext & Hids & Hnd).
    set (r1 := process_location loc svc
                 {| pt_id := w_next_id w; pt_file := progress_file |}
                 (set_next_id (S (w_next_id w)) w)) in *.
    set (run := EvNewTracker (w_next_id w) progress_file :: events r1) in *.
    assert (Hstop :
      events (for_each_location svc (loc :: rest) w) = run ->
      final (for_each_location svc (loc :: rest) w) = final r1 ->
      result (for_each_location svc (loc :: rest) w) <> Ok tt ->
      (exists runs,
         events (for_each_location svc (loc :: rest) w) = concat runs /\
         Forall2 own_instance_run
           (locations_of (events (for_each_location svc (loc :: rest) w)))
           runs) /\
      (exists rest0,
         loc :: rest
         = locations_of (events (for_each_location svc (loc :: rest) w))
           ++ rest0) /\
      (result (for_each_location svc (loc :: rest) w) = Ok tt ->
       locations_of (events (for_each_location svc (loc :: rest) w))
       = loc :: rest) /\
      (forall id file,
         In (EvNewTracker id file)
            (events (for_each_location svc (loc :: rest) w)) ->
         file = progress_file) /\
      w_next_id w <= w_next_id (final (for_each_location svc (loc :: rest) w)) /\
      (forall id,
         In id (trackers_of (events (for_each_location svc (loc :: rest) w))) ->
         w_next_id w <= id
         < w_next_id (final (for_each_location svc (loc :: rest) w))) /\
      List.NoDup
        (trackers_of (events (for_each_location svc (loc :: rest) w)))).
    { intros -> -> Hne. rewrite Hloc.
      split; [exists [run]; split;
              [cbn [concat]; rewrite app_nil_r; reflexivity
              |repeat constructor; exact Hown]|].
      split; [exists rest; reflexivity|].
      split; [intros Hok; contradiction|].
      split; [exact Hfile|]. split; [lia|]. split; [exact Hids | exact Hnd]. }
    destruct (result r1) as [[]|s|e] eqn:Hres.
    + destruct H as (Hev & Hfin & Hr).
      destruct (IH (final r1))
        as ((runs & Hcat & Hf2) & (rest0 & Hpre) & Hall & Hfile' & Hnext'
            & Hids' & Hnd').
      rewrite Hev, Hfin, Hr.
      change (EvNewTracker (w_next_id w) progress_file
                :: events r1 ++ ?x) with (run ++ x).
      rewrite locations_of_app, trackers_of_app, Hloc.
      split; [exists (run :: runs); split;
              [cbn [concat]; rewrite Hcat; reflexivity
              |constructor; [exact Hown | exact Hf2]]|].
      split; [exists rest0; cbn [app]; rewrite <- Hpre; reflexivity|].
      split; [intros Hok; cbn [app]; rewrite (Hall Hok); reflexivity|].
      split; [intros id file Hin; apply in_app_or in Hin as [Hin|Hin];
              [exact (Hfile _ _ Hin) | exact (Hfile' _ _ Hin)]|].
      split; [lia|].
      split.
      * intros id Hin.
        apply in_app_or in Hin as [Hin|Hin].
        -- specialize (Hids _ Hin). lia.
        -- specialize (Hids' _ Hin). lia.
      * apply List.NoDup_app; [exact Hnd | exact Hnd' |].
        intros id Hin Hin'.
        specialize (Hids _ Hin). specialize (Hids' _ Hin'). lia.
    + destruct H as (Hev & Hfin & Hr). apply Hstop; try assumption.
      rewrite Hr. discriminate.
    + destruct H as (Hev & Hfin & Hr). apply Hstop; try assumption.
      rewrite Hr. discriminate.
Qed.

(** *** The per-unit part of a location run *)

Lemma run_outcome_unit_trace loc w (r : Run E unit) o :
  run_outcome loc w r o ->
  unit_trace (events r)
  = flat_map (unit_events (w_next_id w) loc) (units_done o)
    ++ match o with
       | UnitRaised _ _ u _ e => stop_events (w_next_id w) loc u (Some e)
       | RecordFailed _ _ u _ => stop_events (w_next_id w) loc u None
       | _ => []
       end.
Proof.
  intros Ho. unfold unit_trace.
  rewrite (run_filter is_unit_event _ _ _ _ Ho);
    [|reflexivity | intros [] H; try discriminate; reflexivity].
  apply run_tail_trace.
Qed.

(** The snapshot a run read back is the dictionary of the map it
    fetched. *)
Lemma run_outcome_load loc w (r : Run E unit) o snap :
  run_outcome loc w r o ->
  In (EvLoad encounters_file snap) (events r) <->
  match o with
  | UnitRaised m _ _ _ _ | UnitsDone m _ | RecordFailed m _ _ _ =>
      snap = Json.dict_of_pairs m
  | _ => False
  end.
Proof.
  intros Ho.
  assert (Hs : is_snapshot_source (EvLoad encounters_file snap) = true)
    by reflexivity.
  transitivity (In (EvLoad encounters_file snap)
                  (List.filter is_snapshot_source (events r))).
  - rewrite List.filter_In. tauto.
  - rewrite (run_filter is_snapshot_source _ _ _ _ Ho);
      [|reflexivity | intros [] H; try discriminate; reflexivity].
    rewrite run_tail_snapshot_source.
    destruct o; cbn; intuition congruence.
Qed.

End Facts.

(** ** The claims *)

Section Claims.

Context {E : Type}.
Implicit Types (w : World E) (svc : SyncService E).

(** C2 (amended). A location run that reaches the processing stage (the
    snapshot [snap] was read back) calls the per-unit collaborator on the
    PatientIds of the snapshot, in the snapshot's order, with (patientId,
    encounterIds, locationId), and records the PatientId right after each
    call that returned, until a call raises or a unit cannot be recorded:
    the per-unit events of the run are the call/record pairs of an initial
    part [done] of the snapshot, followed, when units are left, by the call
    that raised or by the call and the failed recording of the first unit
    left. When no event of the run is fatal nothing is left: the loop went
    through the entire snapshot. The progress document the run starts from
    is arbitrary, so nothing already recorded is skipped. *)
Theorem processing_loop_follows_snapshot svc loc pt w snap :
  let r := process_location loc svc pt w in
  let id := w_next_id w in
  In (EvLoad encounters_file snap) (events r) ->
  (exists done rest raised,
     snap = done ++ rest /\
     unit_trace (events r)
     = flat_map (unit_events id loc) done
       ++ match rest with
          | [] => []
          | u :: _ => stop_events id loc u raised
          end) /\
  ((forall ev, In ev (events r) -> is_fatal ev = false) ->
   unit_trace (events r) = flat_map (unit_events id loc) snap).
Proof.
  cbv zeta. intros Hload.
  destruct (process_location_outcome loc svc pt w) as (o & Ho).
  pose proof (run_outcome_unit_trace _ _ _ _ Ho) as Hunit.
  apply (run_outcome_load _ _ _ _ _ Ho) in Hload.
  destruct Ho as (_ & _ & _ & Hsnap & _).
  assert (Hfatal : forall ev,
            In ev (unit_trace (events (process_location loc svc pt w))) ->
            is_fatal ev = true ->
            (forall ev', In ev' (events (process_location loc svc pt w)) ->
                         is_fatal ev' = false) -> False).
  { intros ev Hin Hf Hall. apply List.filter_In in Hin as [Hin _].
    rewrite (Hall _ Hin) in Hf. discriminate. }
  rewrite Hunit in *. clear Hunit.
  destruct o as [|e|e| |m done u rest e|m up|e|m done u rest];
    try contradiction; subst snap; cbn [units_done] in *.
  - split.
    + exists done, (u :: rest), (Some e). split; [exact Hsnap | reflexivity].
    + intros Hall. exfalso.
      apply (Hfatal (EvProcess (fst u) (snd u) loc (Raises e)));
        [apply in_or_app; right; left; reflexivity | reflexivity | exact Hall].
  - split.
    + exists (Json.dict_of_pairs m), [], None.
      split; [symmetry; apply app_nil_r | reflexivity].
    + intros _. apply app_nil_r.
  - split.
    + exists done, (u :: rest), None. split; [exact Hsnap | reflexivity].
    + intros Hall. exfalso.
      apply (Hfatal (EvUpdateFailed (w_next_id w) loc (fst u)));
        [apply in_or_app; right; right; left; reflexivity
        |reflexivity | exact Hall].
Qed.

(** C1. When the per-unit collaborator raises on a unit [(p, es)] of a
    location's snapshot, that call is the last event of the whole process:
    no later PatientId of the snapshot is processed and no later location
    is entered. The units [done] that precede it in the snapshot (the first
    k-1) each went through call and record, their PatientIds are in the
    progress document the process leaves, and the process ends in
    [sys.exit(1)]. *)
Theorem unit_failure_aborts_batch svc w p es loc e :
  let r := main svc w in
  In (EvProcess p es loc (Raises e)) (events r) ->
  (exists pre id done rest,
     events r
     = pre ++ EvLoad encounters_file (done ++ (p, es) :: rest)
           :: flat_map (unit_events id loc) done
           ++ [EvProcess p es loc (Raises e)] /\
     forall q, In q (map fst done) ->
       exists qs,
         document progress_file (final r) !! loc = Some qs /\ In q qs) /\
  result r = SysExit 1 /\
  exit_status (result r) <> 0%Z.
Proof.
  cbv zeta. intros Hin.
  destruct (main_fatal svc w _ Hin eq_refl)
    as (pre0 & l & pt & w1 & Hev & Hfin & Hres & Hin1).
  destruct (process_location_outcome l svc pt w1) as (o & Ho).
  destruct (run_outcome_fatal _ _ _ _ _ Ho Hin1 eq_refl) as (_ & Hst & Hm).
  destruct Ho as (Hev1 & Hres1 & _ & Hsnap & _ & _ & _ & Hdoc).
  destruct o as [|e'|e'| |m done u rest e'|m up|e'|m done u rest];
    cbn [outcome_fatal] in Hm;
    [destruct Hm as [path Hm]| | | | | | |]; try discriminate.
  injection Hm as Hp Hes Hl He. subst l e'.
  assert (Hu : u = (p, es)) by (destruct u; cbn in *; congruence).
  subst u. clear Hp Hes.
  rewrite Hres, Hres1, Hfin. cbn [outcome_result exit_status].
  split; [|split; [reflexivity | discriminate]].
  exists (pre0 ++ EvLocation loc :: events (clear_patients_to_sync_folder w1)
            ++ tracker_events (w_next_id w1) loc
                 (document progress_file w1 !! loc)
            ++ [EvConnect (Returns tt);
                EvFetch loc [] (Returns (Some m));
                EvTruncate patients_file; EvTruncate encounters_file;
                EvDump encounters_file (Json.dump m)]),
    (w_next_id w1), done, rest.
  split.
  - rewrite Hev, Hev1, <- Hsnap. unfold run_tail, outcome_events, snapshot_events.
    repeat first [rewrite <- app_assoc | progress cbn [app]]. reflexivity.
  - intros q Hq. rewrite Hdoc. cbn [outcome_document].
    rewrite record_all_same by (intros Hnil; rewrite Hnil in Hq; destruct Hq).
    eexists. split; [reflexivity|]. apply in_or_app. right. exact Hq.
Qed.

(** C5. When [connect] raises, or the fetch raises or returns [None], that
    call is the last event of the whole process (no remaining location is
    attempted) and the process exits with a non-zero status; in the run of
    the location concerned nothing after the fetch stage happened: no
    snapshot file was truncated, written or read, no unit was processed or
    recorded, nothing was uploaded; and the JSON files are as the run found
    them. *)
Theorem fetch_failure_aborts_batch svc w ev :
  let r := main svc w in
  is_fetch_failure ev = true ->
  In ev (events r) ->
  (exists pre loc run,
     events r = pre ++ EvLocation loc :: run ++ [ev] /\
     locations_of run = [] /\
     forallb (fun x => negb (is_after_fetch x)) run = true) /\
  exit_status (result r) <> 0%Z /\
  forall loc pt w1,
    In ev (events (process_location loc svc pt w1)) ->
    w_json (final (process_location loc svc pt w1)) = w_json w1.
Proof.
  cbv zeta. intros Hff Hin.
  assert (Hfatal : is_fatal ev = true)
    by (destruct ev as [| | | | | | |[]|? ? [[]|]| | | | | |];
        try discriminate; reflexivity).
  assert (Hrun : forall l pt w1,
    In ev (events (process_location l svc pt w1)) ->
    exists o,
      run_outcome l w1 (process_location l svc pt w1) o /\
      exit_status (result (process_location l svc pt w1)) = 1%Z /\
      outcome_fatal (w_next_id w1) l o = Some ev /\
      match o with
      | ConnectRaised _ | FetchRaised _ | FetchNone => True
      | _ => False
      end).
  { intros l pt w1 Hin1.
    destruct (process_location_outcome l svc pt w1) as (o & Ho).
    destruct (run_outcome_fatal _ _ _ _ _ Ho Hin1 Hfatal) as (_ & Hst & Hm).
    exists o. split; [exact Ho|]. split; [exact Hst|].
    destruct o as [|e'|e'| |m done u rest e'|m up|e'|m done u rest];
      cbn [outcome_fatal] in *;
      [destruct Hm as [path ->]; discriminate
      |split; [exact Hm | exact I] ..
      |injection Hm as <-; discriminate
      |discriminate
      |discriminate
      |injection Hm as <-; discriminate]. }
  destruct (main_fatal svc w _ Hin Hfatal)
    as (pre0 & l & pt & w1 & Hev & Hfin & Hres & Hin1).
  split; [|split].
  - destruct (Hrun _ _ _ Hin1) as (o & Ho & _ & Hm & Hkind).
    destruct Ho as (Hev1 & _).
    pose proof (clear_events_only w1) as Hc.
    destruct (clear_events_quiet _ Hc) as (_ & _ & _ & Hloc & _ & _ & _).
    assert (Hnf : forallb (fun x => negb (is_after_fetch x))
                    (events (clear_patients_to_sync_folder w1)) = true).
    { apply forallb_forall. intros x Hx. rewrite forallb_forall in Hc.
      apply Hc in Hx. destruct x; try discriminate; reflexivity. }
    exists pre0, l.
    destruct o as [|e'|e'| |m done u rest e'|m up|e'|m done u rest];
      try contradiction; cbn [outcome_fatal] in Hm; injection Hm as <-.
    + exists (events (clear_patients_to_sync_folder w1)
                ++ tracker_events (w_next_id w1) l
                     (document progress_file w1 !! l)).
      split; [rewrite Hev, Hev1; unfold run_tail, outcome_events;
              repeat first [rewrite <- app_assoc | progress cbn [app]];
              reflexivity|].
      rewrite locations_of_app, Hloc, forallb_app, Hnf.
      destruct (document progress_file w1 !! l); split; reflexivity.
    + exists (events (clear_patients_to_sync_folder w1)
                ++ tracker_events (w_next_id w1) l
                     (document progress_file w1 !! l)
                ++ [EvConnect (Returns tt)]).
      split; [rewrite Hev, Hev1; unfold run_tail, outcome_events;
              repeat first [rewrite <- app_assoc | progress cbn [app]];
              reflexivity|].
      rewrite locations_of_app, Hloc, forallb_app, Hnf.
      destruct (document progress_file w1 !! l); split; reflexivity.
    + exists (events (clear_patients_to_sync_folder w1)
                ++ tracker_events (w_next_id w1) l
                     (document progress_file w1 !! l)
                ++ [EvConnect (Returns tt)]).
      split; [rewrite Hev, Hev1; unfold run_tail, outcome_events;
              repeat first [rewrite <- app_assoc | progress cbn [app]];
              reflexivity|].
      rewrite locations_of_app, Hloc, forallb_app, Hnf.
      destruct (document progress_file w1 !! l); split; reflexivity.
  - destruct (Hrun _ _ _ Hin1) as (o & _ & Hst & _).
    rewrite Hres, Hst. discriminate.
  - intros l' pt' w' Hin'.
    destruct (Hrun _ _ _ Hin') as (o & Ho & _ & _ & Hkind).
    destruct Ho as (_ & _ & _ & _ & _ & Hjs & _).
    rewrite Hjs. destruct o; try contradiction; reflexivity.
Qed.

(** C3. In a location run whose fetch returned the unit map [m] (a
    dictionary: no PatientId twice), the fetch is followed at once by the
    truncation of both JSON files, the writing of [m] to the snapshot file
    and its reading back, and what is read is [m] itself; no unit is
    processed before that, the units processed afterwards are the units of
    the read-back map, in order, and the snapshot file holds the dump of
    [m] when the run ends, whatever it held before. *)
Theorem snapshot_written_then_read svc loc pt w m :
  let r := process_location loc svc pt w in
  List.NoDup (map fst m) ->
  In (EvFetch loc [] (Returns (Some m))) (events r) ->
  (exists pre post,
     events r
     = pre ++ [EvFetch loc [] (Returns (Some m));
               EvTruncate patients_file;
               EvTruncate encounters_file;
               EvDump encounters_file (Json.dump m);
               EvLoad encounters_file m] ++ post /\
     processed pre = [] /\
     exists rest, m = processed post ++ rest) /\
  w_json (final r) !! encounters_file = Some (Some (Json.dump m)) /\
  Json.load (Json.dump m) = Some m.
Proof.
  cbv zeta. intros Hnd Hin.
  destruct (process_location_outcome loc svc pt w) as (o & Ho).
  assert (Hsel : In (EvFetch loc [] (Returns (Some m)))
                   (List.filter is_snapshot_source
                      (events (process_location loc svc pt w))))
    by (apply List.filter_In; split; [exact Hin | reflexivity]).
  rewrite (run_filter is_snapshot_source _ _ _ _ Ho) in Hsel;
    [|reflexivity | intros [] H; try discriminate; reflexivity].
  rewrite run_tail_snapshot_source in Hsel.
  destruct Ho as (Hev & _ & _ & Hsnap & _ & Hjs & _).
  pose proof (JsonFacts.dict_of_pairs_nodup m Hnd) as Hdict.
  pose proof (clear_events_only w) as Hc.
  destruct (clear_events_quiet _ Hc) as (_ & Hpc & _).
  assert (Hpt : processed (tracker_events (w_next_id w) loc
                             (document progress_file w !! loc)) = [])
    by (destruct (document progress_file w !! loc); reflexivity).
  destruct o as [|e|e| |m' done u rest e|m' up|e|m' done u rest];
    try (destruct Hsel as []; fail);
    (destruct Hsel as [Hsel|[Hsel|[]]]; [|discriminate]);
    injection Hsel as ->; rewrite ?Hdict in Hsnap.
  - split; [|split].
    + exists (EvLocation loc :: events (clear_patients_to_sync_folder w)
                ++ tracker_events (w_next_id w) loc
                     (document progress_file w !! loc)
                ++ [EvConnect (Returns tt)]),
        (flat_map (unit_events (w_next_id w) loc) done
           ++ [EvProcess (fst u) (snd u) loc (Raises e)]).
      split; [|split].
      * rewrite Hev. unfold run_tail, outcome_events, snapshot_events.
        rewrite Hdict.
        repeat first [rewrite <- app_assoc | progress cbn [app]]. reflexivity.
      * cbn [processed]. rewrite !processed_app, Hpc, Hpt. reflexivity.
      * destruct (unit_events_trace (w_next_id w) loc done) as (_ & Hp & _).
        exists rest. rewrite processed_app, Hp, Hsnap. cbn.
        rewrite <- app_assoc. destruct u. reflexivity.
    + rewrite Hjs. apply lookup_insert_eq.
    + apply JsonFacts.load_dump_nodup, Hnd.
  - split; [|split].
    + exists (EvLocation loc :: events (clear_patients_to_sync_folder w)
                ++ tracker_events (w_next_id w) loc
                     (document progress_file w !! loc)
                ++ [EvConnect (Returns tt)]),
        (flat_map (unit_events (w_next_id w) loc) m ++ [EvUpload up]).
      split; [|split].
      * rewrite Hev. unfold run_tail, outcome_events, snapshot_events.
        rewrite Hdict.
        repeat first [rewrite <- app_assoc | progress cbn [app]]. reflexivity.
      * cbn [processed]. rewrite !processed_app, Hpc, Hpt. reflexivity.
      * destruct (unit_events_trace (w_next_id w) loc m) as (_ & Hp & _).
        exists []. rewrite processed_app, Hp. cbn. rewrite !app_nil_r.
        reflexivity.
    + rewrite Hjs. apply lookup_insert_eq.
    + apply JsonFacts.load_dump_nodup, Hnd.
  - split; [|split].
    + exists (EvLocation loc :: events (clear_patients_to_sync_folder w)
                ++ tracker_events (w_next_id w) loc
                     (document progress_file w !! loc)
                ++ [EvConnect (Returns tt)]),
        (flat_map (unit_events (w_next_id w) loc) done
           ++ [EvProcess (fst u) (snd u) loc (Returns tt);
               EvUpdateFailed (w_next_id w) loc (fst u)]).
      split; [|split].
      * rewrite Hev. unfold run_tail, outcome_events, snapshot_events.
        rewrite Hdict.
        repeat first [rewrite <- app_assoc | progress cbn [app]]. reflexivity.
      * cbn [processed]. rewrite !processed_app, Hpc, Hpt. reflexivity.
      * destruct (unit_events_trace (w_next_id w) loc done) as (_ & Hp & _).
        exists rest. rewrite processed_app, Hp, Hsnap. cbn.
        rewrite <- app_assoc. destruct u. reflexivity.
    + rewrite Hjs. apply lookup_insert_eq.
    + apply JsonFacts.load_dump_nodup, Hnd.
Qed.

(** C4. In a location run [reset_progress] is called for the location
    exactly when [get_progress] returned [None] for it; when it returned a
    list, that list is the entry the progress document held. Every entry
    the document held before the run is still there after it, in front of
    whatever the run recorded, and the same holds of a whole batch: a
    PatientId once recorded stays recorded across runs. *)
Theorem recorded_progress_is_kept svc loc pt w :
  let r := process_location loc svc pt w in
  ((exists id, In (EvResetProgress id loc) (events r)) <->
   (exists id, In (EvGetProgress id loc None) (events r))) /\
  (forall id ps, In (EvGetProgress id loc (Some ps)) (events r) ->
                 document progress_file w !! loc = Some ps) /\
  (forall l ps,
     document progress_file w !! l = Some ps ->
     exists more, document progress_file (final r) !! l = Some (ps ++ more)) /\
  (forall l ps,
     document progress_file w !! l = Some ps ->
     exists more,
       document progress_file (final (main svc w)) !! l = Some (ps ++ more)).
Proof.
  cbv zeta.
  destruct (process_location_outcome loc svc pt w) as (o & Ho).
  assert (Hsel : forall ev, is_resume_event ev = true ->
            (In ev (events (process_location loc svc pt w)) <->
             In ev (List.filter is_resume_event
                      (run_tail (w_next_id w) loc
                         (document progress_file w !! loc) o)))).
  { intros ev Hev.
    rewrite <- (run_filter is_resume_event _ _ _ _ Ho);
      [|reflexivity | intros [] H; try discriminate; reflexivity].
    rewrite List.filter_In. tauto. }
  split; [|split; [|split]].
  - split; intros [id Hin]; apply Hsel in Hin; try reflexivity;
      rewrite run_tail_resume in Hin;
      exists (w_next_id w); apply Hsel; try reflexivity;
      rewrite run_tail_resume;
      destruct o, (document progress_file w !! loc); cbn in *;
      intuition congruence.
  - intros id ps Hin. apply Hsel in Hin; [|reflexivity].
    rewrite run_tail_resume in Hin.
    destruct o, (document progress_file w !! loc); cbn in *;
      intuition congruence.
  - intros l ps Hl. exact (run_outcome_extends _ _ _ _ _ _ Ho Hl).
  - intros l ps Hl. rewrite main_run. destruct (roster w) as [|l0 ls].
    + exists []. rewrite app_nil_r. exact Hl.
    + apply for_each_location_extends, Hl.
Qed.

(** C7. A location run calls the upload collaborator at most once, and
    exactly once precisely when it read a snapshot back and every unit of
    that snapshot went through call and record; the staging directory the
    run starts from is arbitrary and has no part in it. A run that ended
    earlier never calls it. *)
Theorem upload_once_after_all_units svc loc pt w :
  let r := process_location loc svc pt w in
  uploads (events r) <= 1 /\
  (uploads (events r) = 1 <->
   exists snap,
     In (EvLoad encounters_file snap) (events r) /\
     unit_trace (events r) = flat_map (unit_events (w_next_id w) loc) snap).
Proof.
  cbv zeta.
  destruct (process_location_outcome loc svc pt w) as (o & Ho).
  pose proof (run_outcome_unit_trace _ _ _ _ Ho) as Hunit.
  pose proof (fun snap => run_outcome_load _ _ _ _ snap Ho) as Hload.
  assert (Hup : uploads (events (process_location loc svc pt w))
                = match o with UnitsDone _ _ => 1 | _ => 0 end).
  { destruct Ho as (Hev & _). rewrite Hev.
    change (EvLocation loc :: ?a ++ ?b) with ([EvLocation loc] ++ a ++ b).
    rewrite !uploads_app.
    destruct (clear_events_quiet _ (clear_events_only w))
      as (_ & _ & -> & _).
    destruct (run_tail_trace (w_next_id w) loc
                (document progress_file w !! loc) o) as (_ & _ & -> & _).
    reflexivity. }
  rewrite Hup, Hunit.
  split; [destruct o; lia|]. split.
  - intros H1. destruct o as [|e|e| |m done u rest e|m up|e|m done u rest]; try discriminate.
    exists (Json.dict_of_pairs m). split; [apply Hload; reflexivity|].
    cbn [units_done]. apply app_nil_r.
  - intros (snap & Hin & Htrace). apply Hload in Hin.
    destruct o as [|e|e| |m done u rest e|m up|e|m done u rest];
      try contradiction; [|reflexivity|];
      exfalso; subst snap; cbn [units_done] in Htrace;
      destruct Ho as (_ & _ & _ & Hsnap & _); rewrite Hsnap in Htrace;
      rewrite flat_map_app in Htrace; apply app_inv_head in Htrace;
      discriminate Htrace.
Qed.

(** C10. The tracker passed to [process_location] is never looked at: the
    parameter is rebound to a tracker constructed over
    [logs/progress.json] before its first use. Two calls that differ only
    in that argument give the same events, the same final world and the
    same result; the only tracker a run constructs is the new object over
    [logs/progress.json], and every progress operation of the run is on
    it. *)
Theorem tracker_argument_is_ignored svc loc (pt1 pt2 : ProgressTracker) w :
  process_location loc svc pt1 w = process_location loc svc pt2 w /\
  (forall id file,
     In (EvNewTracker id file) (events (process_location loc svc pt1 w)) ->
     id = w_next_id w /\ file = progress_file) /\
  (forall u,
     In u (tracker_uses (events (process_location loc svc pt1 w))) ->
     u = (w_next_id w, loc)).
Proof.
  split; [reflexivity|].
  destruct (process_location_outcome loc svc pt1 w) as (o & Ho).
  split.
  - intros id file Hin.
    assert (Hf : In (EvNewTracker id file)
                   (List.filter is_new_tracker
                      (events (process_location loc svc pt1 w))))
      by (apply List.filter_In; split; [exact Hin | reflexivity]).
    rewrite (run_filter is_new_tracker _ _ _ _ Ho) in Hf;
      [|reflexivity | intros [] H; try discriminate; reflexivity].
    rewrite run_tail_new_tracker in Hf.
    destruct o; cbn in Hf; intuition congruence.
  - intros u Hu. destruct Ho as (Hev & _). rewrite Hev in Hu.
    cbn [tracker_uses] in Hu. rewrite tracker_uses_app in Hu.
    destruct (clear_events_quiet _ (clear_events_only w))
      as (_ & _ & _ & _ & _ & Hcu & _).
    rewrite Hcu in Hu. cbn [app] in Hu.
    exact (proj2 (proj2 (proj2 (proj2 (proj2
             (run_tail_trace (w_next_id w) loc
                (document progress_file w !! loc) o))))) u Hu).
Qed.

(** C8 (amended). Clearing the staging directory removes entries directly
    inside it and nothing else: every entry is afterwards exactly as it was
    (subdirectories with all they contain, special nodes, links that do
    not resolve to a regular file) or is gone, and what is gone was a
    removable regular file or a removable symbolic link that resolved to a
    regular file, deleted by a successful [os.unlink] of its path
    [patients_to_sync/<name>]. A name of the listing is gone only if
    [os.path.isfile] accepted it in the directory as the loop found it
    when it reached the name, and when the clear returns every name it
    accepted there is gone: every regular file and every link to a regular
    file outside the directory (the link, not its target), and nothing
    [os.path.isfile] accepts is left.
    The clear ends in [sys.exit(1)] exactly when a deletion failed; the
    failed deletion is its last event and is that of an entry of the
    directory that [os.path.isfile] accepts and that cannot be removed;
    a regular file that cannot be removed always makes it fail, and when
    every file and link can be removed it returns. It ends in an exception
    exactly when the directory cannot be listed. A location run starts with
    the clear: its events come right after the entry into the run and
    before every tracker, collaborator, snapshot and per-unit event, and
    when the clear does not return the run does nothing more and ends as
    the clear did. A failed deletion anywhere in a batch is the last event
    of the process, which exits with a non-zero status. *)
Theorem staging_is_cleared_first svc loc pt w :
  let c := clear_patients_to_sync_folder w in
  let r := process_location loc svc pt w in
  let d := w_staging w in
  let d' := w_staging (final c) in
  (forall name,
     d' !! name = d !! name \/
     (d' !! name = None /\
      entry_removable (d !! name) = Some true /\
      resolves_to_file max_links d name = true)) /\
  (forall name,
     In (unlinked name) (events c) <-> d !! name <> None /\ d' !! name = None) /\
  (forall pre name post,
     listing (w_rank w) d = pre ++ name :: post ->
     (d' !! name = None ->
      resolves_to_file max_links (reached d d' pre) name = true) /\
     (result c = Ok tt ->
      resolves_to_file max_links (reached d d' pre) name = true ->
      d' !! name = None)) /\
  (result c = Ok tt ->
   (forall name, always_file (d !! name) = true -> d' !! name = None) /\
   (forall name, resolves_to_file max_links d' name = false)) /\
  (result c = SysExit 1 <-> exists path, In (EvUnlink path false) (events c)) /\
  (forall path,
     In (EvUnlink path false) (events c) ->
     (exists pre, events c = pre ++ [EvUnlink path false]) /\
     exists name,
       path = path_join patients_to_sync_dir name /\
       entry_removable (d !! name) = Some false /\
       resolves_to_file max_links d name = true) /\
  ((exists e, result c = Raise e) <-> w_listable w = false) /\
  (w_listable w = true ->
   ((exists name, always_file (d !! name) = true /\
                  entry_removable (d !! name) = Some false) ->
    result c = SysExit 1) /\
   ((forall name, entry_removable (d !! name) <> Some false) ->
    result c = Ok tt)) /\
  (exists rest,
     events r = EvLocation loc :: events c ++ rest /\
     forallb (fun ev => negb (is_after_clear ev)) (events c) = true /\
     forallb is_after_clear rest = true /\
     (result c <> Ok tt -> rest = [] /\ result r = result c)) /\
  (forall path,
     In (EvUnlink path false) (events (main svc w)) ->
     (exists pre, events (main svc w) = pre ++ [EvUnlink path false]) /\
     exit_status (result (main svc w)) <> 0%Z).
Proof.
  cbv zeta.
  destruct (clear_spec w) as (removed & tail & Hev & _ & Hin & Hout & Hend).
  assert (Hfail : forall path,
            In (EvUnlink path false)
               (events (clear_patients_to_sync_folder w)) ->
            tail = [EvUnlink path false]).
  { intros path Hp. rewrite Hev in Hp.
    destruct Hp as [Hp|Hp]; [discriminate|].
    apply in_app_or in Hp as [Hp|Hp].
    - apply in_map_iff in Hp as (n & Hn & _). discriminate.
    - destruct (w_listable w).
      + destruct (result (clear_patients_to_sync_folder w)) as [[]|s|e];
          [destruct Hend as (-> & _); destruct Hp
          |destruct Hend as (_ & f & _ & _ & ->)
          |contradiction].
        destruct Hp as [Hp|[]]. rewrite Hp. reflexivity.
      + destruct Hend as (_ & -> & _). destruct Hp. }
  split; [|split; [|split; [|split; [|split; [|split; [|split; [|split;
    [|split]]]]]]]].
  3:{ intros pre name post. apply clear_reached. }
  - intros name. destruct (in_dec string_dec name removed) as [Hi|Hi].
    + right. destruct (Hin _ Hi) as (H1 & H2 & H3). repeat split; assumption.
    + left. apply Hout, Hi.
  - intros name. split.
    + intros Hn. rewrite Hev in Hn. destruct Hn as [Hn|Hn]; [discriminate|].
      apply in_app_or in Hn as [Hn|Hn].
      * apply in_map_unlinked in Hn. destruct (Hin _ Hn) as (H1 & _ & H2).
        split; [|exact H2]. intros Hnone. rewrite Hnone in H1. discriminate.
      * exfalso. destruct (w_listable w).
        -- destruct (result (clear_patients_to_sync_folder w)) as [[]|s|e];
             [destruct Hend as (-> & _); destruct Hn
             |destruct Hend as (_ & f & _ & _ & ->)
             |contradiction].
           destruct Hn as [Hn|[]]. discriminate.
        -- destruct Hend as (_ & -> & _). destruct Hn.
    + intros [H1 H2]. rewrite Hev. right. apply in_or_app. left.
      apply in_map_unlinked.
      destruct (in_dec string_dec name removed) as [Hi|Hi]; [exact Hi|].
      rewrite (Hout _ Hi) in H2. contradiction.
  - intros Hok. rewrite Hok in Hend. destruct (w_listable w).
    + destruct Hend as (_ & Hfiles & Hnone). split; [|exact Hnone].
      intros name Hn. apply Hin, Hfiles, Hn.
    + destruct Hend as (_ & _ & Hres & _). discriminate.
  - split.
    + intros Hex. rewrite Hex in Hend. destruct (w_listable w).
      * destruct Hend as (_ & f & _ & _ & Htail). eexists.
        rewrite Hev, Htail. right. apply in_or_app. right. left. reflexivity.
      * destruct Hend as (_ & _ & Hres & _). discriminate.
    + intros [path Hp]. apply Hfail in Hp. destruct (w_listable w).
      * destruct (result (clear_patients_to_sync_folder w)) as [[]|s|e];
          [destruct Hend as (Ht & _); congruence
          |destruct Hend as (-> & _); reflexivity
          |contradiction].
      * destruct Hend as (_ & Ht & _). congruence.
  - intros path Hp. apply Hfail in Hp. split.
    + eexists. rewrite Hev, Hp. rewrite app_comm_cons. reflexivity.
    + destruct (w_listable w).
      * destruct (result (clear_patients_to_sync_folder w)) as [[]|s|e];
          [destruct Hend as (Ht & _); congruence | |contradiction].
        destruct Hend as (_ & f & Hrm & Hkind & Ht). exists f.
        split; [congruence|]. split; [exact Hrm | exact Hkind].
      * destruct Hend as (_ & Ht & _). congruence.
  - destruct (w_listable w).
    + split; [|discriminate]. intros [e He]. rewrite He in Hend.
      contradiction.
    + destruct Hend as (_ & _ & Hres & _). split; [reflexivity|].
      intros _. eauto.
  - intros Hl. rewrite Hl in Hend.
    destruct (result (clear_patients_to_sync_folder w)) as [[]|s|e];
      [| |contradiction].
    + destruct Hend as (_ & Hfiles & _). split; [|reflexivity].
      intros (name & Ha & Hrm). exfalso.
      destruct (Hin _ (Hfiles _ Ha)) as [H1 _]. congruence.
    + destruct Hend as (-> & f & Hrm & _). split; [reflexivity|].
      intros Hall. exfalso. exact (Hall _ Hrm).
  - destruct (process_location_outcome loc svc pt w)
      as (o & Hevr & Hres & Hc & _).
    exists (run_tail (w_next_id w) loc (document progress_file w !! loc) o).
    split; [exact Hevr|].
    split; [apply (clear_events_quiet _ (clear_events_only w))|].
    split; [apply run_tail_after_clear|].
    intros Hne. rewrite Hres.
    destruct o; try congruence; rewrite Hc; split; reflexivity.
  - intros path Hp.
    destruct (main_fatal svc w _ Hp eq_refl)
      as (pre0 & l & pt' & w1 & Hev0 & _ & Hres & Hin1).
    destruct (process_location_fatal l svc pt' w1 _ Hin1 eq_refl)
      as ((pre1 & Hev1 & _) & Hst).
    split.
    + exists (pre0 ++ pre1). rewrite Hev0, Hev1, app_assoc. reflexivity.
    + rewrite Hres, Hst. discriminate.
Qed.

(** C9. Reading a roster file gives the file's lines with surrounding
    whitespace trimmed and blank lines removed, in file order; when the
    file is missing, or nothing is left of it, the reading ends in
    [sys.exit(1)]. In [main] that happens before anything else: no location
    is entered, nothing at all is done, and the status is non-zero;
    otherwise the batch runs over exactly that list. *)
Theorem roster_is_trimmed_nonblank_lines svc file_path w :
  result (read_location_ids file_path w)
  = match w_text w !! file_path with
    | None => SysExit 1
    | Some content =>
        match spec_roster content with
        | [] => SysExit 1
        | location_ids => Ok location_ids
        end
    end /\
  match roster w with
  | [] =>
      events (main svc w) = [] /\
      final (main svc w) = w /\
      exit_status (result (main svc w)) = 1%Z
  | location_ids => main svc w = for_each_location svc location_ids w
  end.
Proof.
  split.
  - rewrite read_location_ids_run. reflexivity.
  - rewrite main_run. destruct (roster w); [repeat split | reflexivity].
Qed.

(** C6 (amended). The batch loop enters the orchestrator for the
    LocationIds of the roster in roster order, one turn after the other:
    the locations entered are an initial part of the roster, all of it when
    the batch returns, and the trace is the concatenation of one turn per
    location entered. No tracker object is shared: each turn constructs a
    tracker over [logs/progress.json] to pass along, the orchestrator
    constructs its own over the same file, every progress operation of the
    turn is on a tracker constructed in that turn, and no two constructions
    in the whole batch yield the same object. What the locations share is
    the progress file. *)
Theorem batch_turns_follow_roster svc w :
  let r := main svc w in
  (exists rest, roster w = locations_of (events r) ++ rest) /\
  (result r = Ok tt -> locations_of (events r) = roster w) /\
  (exists runs,
     events r = concat runs /\
     Forall2 own_instance_run (locations_of (events r)) runs) /\
  (forall id file, In (EvNewTracker id file) (events r) ->
                   file = progress_file) /\
  List.NoDup (trackers_of (events r)).
Proof.
  cbv zeta. rewrite main_run. destruct (roster w) as [|l ls] eqn:Hroster.
  - cbn. split; [exists []; reflexivity|].
    split; [discriminate|].
    split; [exists []; split; [reflexivity | constructor]|].
    split; [tauto | constructor].
  - destruct (for_each_location_turns svc (l :: ls) w)
      as (Hruns & Hpre & Hall & Hfile & _ & _ & Hnd).
    repeat split; assumption.
Qed.

End Claims.

(** ** The claims on the scenarios *)

Ltac in_trace := vm_compute; repeat first [left; reflexivity | right].

(** The second of the three units of [L1] raises: the first unit stays
    recorded, nothing follows, the status is 1. *)
Lemma unit_failure_aborts_batch_witness :
  let r := main (scenario_service "P2" "") (scenario_world ∅) in
  In (EvProcess "P2" ["E3"] "L1" (Raises (Exception "transform failed")))
     (events r) /\
  (exists pre id done rest,
     events r
     = pre ++ EvLoad encounters_file (done ++ ("P2", ["E3"]) :: rest)
           :: flat_map (unit_events id "L1") done
           ++ [EvProcess "P2" ["E3"] "L1"
                 (Raises (Exception "transform failed"))] /\
     forall q, In q (map fst done) ->
       exists qs,
         document progress_file (final r) !! "L1" = Some qs /\ In q qs) /\
  result r = SysExit 1 /\ exit_status (result r) <> 0%Z.
Proof.
  assert (H : In (EvProcess "P2" ["E3"] "L1"
                    (Raises (Exception "transform failed")))
                 (events (main (scenario_service "P2" "") (scenario_world ∅))))
    by in_trace.
  split; [exact H|].
  exact (unit_failure_aborts_batch (scenario_service "P2" "") (scenario_world ∅)
           "P2" ["E3"] "L1" (Exception "transform failed") H).
Defined.

(** A re-run of [L1] whose progress document already lists [P1]: all three
    units are processed and recorded again, [P1] included. *)
Lemma processing_loop_follows_snapshot_witness :
  let w := scenario_world (<["L1" := ["P1"]]> ∅) in
  let snap := [("P1", ["E1"; "E2"]); ("P2", ["E3"]); ("P3", [])] in
  let r := process_location "L1" (scenario_service "" "") scenario_tracker w in
  In (EvLoad encounters_file snap) (events r) /\
  (exists done rest raised,
     snap = done ++ rest /\
     unit_trace (events r)
     = flat_map (unit_events (w_next_id w) "L1") done
       ++ match rest with
          | [] => []
          | u :: _ => stop_events (w_next_id w) "L1" u raised
          end) /\
  ((forall ev, In ev (events r) -> is_fatal ev = false) ->
   unit_trace (events r) = flat_map (unit_events (w_next_id w) "L1") snap).
Proof.
  cbv zeta.
  assert (H1 : In (EvLoad encounters_file
                     [("P1", ["E1"; "E2"]); ("P2", ["E3"]); ("P3", [])])
                  (events (process_location "L1" (scenario_service "" "")
                             scenario_tracker
                             (scenario_world (<["L1" := ["P1"]]> ∅)))))
    by in_trace.
  split; [exact H1|].
  exact (processing_loop_follows_snapshot (scenario_service "" "") "L1"
           scenario_tracker (scenario_world (<["L1" := ["P1"]]> ∅)) _ H1).
Defined.

(** C2, as stated, fails on a run that reached the processing stage with
    a snapshot of three units and in which the call for [P2] raises: [P3]
    is never handed to the collaborator. *)
Lemma processing_loop_stops_early :
  let snap := [("P1", ["E1"; "E2"]); ("P2", ["E3"]); ("P3", [])] in
  let r := process_location "L1" (scenario_service "P2" "") scenario_tracker
             (scenario_world ∅) in
  In (EvLoad encounters_file snap) (events r) /\
  unit_trace (events r)
  = [EvProcess "P1" ["E1"; "E2"] "L1" (Returns tt);
     EvUpdateProgress 0 "L1" "P1";
     EvProcess "P2" ["E3"] "L1" (Raises (Exception "transform failed"))] /\
  processed (events r) = [("P1", ["E1"; "E2"]); ("P2", ["E3"])] /\
  (unit_trace (events r) = flat_map (unit_events 0 "L1") snap <-> False).
Proof.
  cbv zeta.
  split; [in_trace|]. split; [vm_compute; reflexivity|].
  split; [vm_compute; reflexivity|].
  split; [intros H; vm_compute in H; discriminate H | tauto].
Qed.

(** C8, as stated, fails on a staging directory that holds a symbolic link
    to a regular file: the clear returns and the link is gone, although it
    is not a regular file. *)
Lemma clear_removes_link_to_file :
  let w := scenario_world_link in
  let c := clear_patients_to_sync_folder w in
  w_staging w !! "latest" = Some (SymLink (Outside true) true) /\
  result c = Ok tt /\
  In (unlinked "latest") (events c) /\
  w_staging (final c) !! "latest" = None /\
  (removes_exactly_regular_files (w_staging w) (w_staging (final c))
   <-> False).
Proof.
  cbv zeta.
  split; [vm_compute; reflexivity|]. split; [vm_compute; reflexivity|].
  split; [in_trace|]. split; [vm_compute; reflexivity|].
  split; [|tauto]. intros H. specialize (H "latest").
  vm_compute in H. discriminate H.
Qed.

(** The fetch for [L1] returns a three-unit map: it is written over the
    [null] the snapshot file held, read back unchanged, and drives the
    loop. *)
Lemma snapshot_written_then_read_witness :
  let w := scenario_world ∅ in
  let m := [("P1", ["E1"; "E2"]); ("P2", ["E3"]); ("P3", [])] in
  let r := process_location "L1" (scenario_service "" "") scenario_tracker w in
  (exists pre post,
     events r
     = pre ++ [EvFetch "L1" [] (Returns (Some m));
               EvTruncate patients_file;
               EvTruncate encounters_file;
               EvDump encounters_file (Json.dump m);
               EvLoad encounters_file m] ++ post /\
     processed pre = [] /\
     exists rest, m = processed post ++ rest) /\
  w_json (final r) !! encounters_file = Some (Some (Json.dump m)) /\
  Json.load (Json.dump m) = Some m.
Proof.
  cbv zeta.
  apply (snapshot_written_then_read (scenario_service "" "") "L1"
           scenario_tracker (scenario_world ∅)).
  - repeat constructor; cbn; intuition discriminate.
  - in_trace.
Defined.

(** The fetch for [L2] returns [None] after [L1] went through: the batch
    ends there with a non-zero status. *)
Lemma fetch_failure_aborts_batch_witness :
  let r := main (scenario_service "" "L2") (scenario_world ∅) in
  (exists pre loc run,
     events r = pre ++ EvLocation loc :: run
                  ++ [EvFetch "L2" [] (Returns None)] /\
     locations_of run = [] /\
     forallb (fun x => negb (is_after_fetch x)) run = true) /\
  exit_status (result r) <> 0%Z.
Proof.
  cbv zeta.
  assert (H : In (EvFetch "L2" [] (Returns None))
                 (events (main (scenario_service "" "L2") (scenario_world ∅))))
    by in_trace.
  destruct (fetch_failure_aborts_batch (scenario_service "" "L2")
              (scenario_world ∅) (EvFetch "L2" [] (Returns None)) eq_refl H)
    as (H1 & H2 & _).
  split; [exact H1 | exact H2].
Defined.

(** C6, as stated, fails on the two-location scenario: the progress
    operations for [L1] are on tracker 1, those for [L2] on tracker 3. *)
Lemma batch_shares_no_instance :
  let evs := events (main (scenario_service "" "") (scenario_world ∅)) in
  locations_of evs = ["L1"; "L2"] /\
  In (1, "L1") (tracker_uses evs) /\
  In (3, "L2") (tracker_uses evs) /\
  (shares_one_instance evs <-> False).
Proof.
  cbv zeta.
  assert (H1 : In (1, "L1")
                  (tracker_uses
                     (events (main (scenario_service "" "") (scenario_world ∅)))))
    by in_trace.
  assert (H3 : In (3, "L2")
                  (tracker_uses
                     (events (main (scenario_service "" "") (scenario_world ∅)))))
    by in_trace.
  split; [vm_compute; reflexivity|]. split; [exact H1|]. split; [exact H3|].
  split; [|tauto]. intros [id Hid].
  pose proof (Hid _ H1) as Ha. pose proof (Hid _ H3) as Hb.
  clear H1 H3 Hid. cbn [fst] in Ha, Hb. subst id. discriminate Hb.
Qed.

(** * Further properties *)

(** ** The identifiers of a roster *)

Module RosterFacts.
Import Text.

Lemma lstrip_no_leading (s : string) : no_leading_space (lstrip s) = true.
Proof.
  induction s as [|c s IH]; [reflexivity|]. cbn.
  destruct (isspace c) eqn:Hc; [exact IH|]. cbn. rewrite Hc. reflexivity.
Qed.

Lemma lstrip_id (s : string) : no_leading_space s = true -> lstrip s = s.
Proof.
  destruct s as [|c s]; [reflexivity|]. cbn. intros H.
  apply negb_true_iff in H. rewrite H. reflexivity.
Qed.

Lemma rstrip_keeps_head c (s : string) :
  isspace c = false -> exists r, rstrip (String c s) = String c r.
Proof.
  intros Hc. cbn. destruct (rstrip s); rewrite ?Hc; eauto.
Qed.

Lemma rstrip_no_leading (s : string) :
  no_leading_space s = true -> no_leading_space (rstrip s) = true.
Proof.
  destruct s as [|c s]; [reflexivity|]. cbn [no_leading_space]. intros H.
  apply negb_true_iff in H. destruct (rstrip_keeps_head c s H) as [r ->].
  cbn. rewrite H. reflexivity.
Qed.

Lemma rstrip_idem (s : string) : rstrip (rstrip s) = rstrip s.
Proof.
  induction s as [|c s IH]; [reflexivity|]. cbn.
  destruct (rstrip s) as [|a t] eqn:Hr.
  - destruct (isspace c) eqn:Hc; [reflexivity|]. cbn. rewrite Hc. reflexivity.
  - change (rstrip (String c (String a t)))
      with (match rstrip (String a t) with
            | EmptyString =>
                if isspace c then EmptyString else String c EmptyString
            | r => String c r
            end).
    rewrite IH. reflexivity.
Qed.

Lemma strip_idem (s : string) : strip (strip s) = strip s.
Proof.
  unfold strip.
  rewrite (lstrip_id (rstrip (lstrip s)))
    by apply rstrip_no_leading, lstrip_no_leading.
  apply rstrip_idem.
Qed.

Lemma contains_lstrip c (s : string) :
  contains c (lstrip s) = true -> contains c s = true.
Proof.
  induction s as [|a s IH]; [discriminate|]. cbn.
  destruct (isspace a); [|exact (fun H => H)].
  intros H. rewrite (IH H). apply orb_true_r.
Qed.

Lemma contains_rstrip c (s : string) :
  contains c (rstrip s) = true -> contains c s = true.
Proof.
  induction s as [|a s IH]; [discriminate|]. cbn.
  destruct (rstrip s) as [|b t].
  - destruct (isspace a); [discriminate|]. cbn [contains].
    rewrite orb_false_r. intros ->. reflexivity.
  - cbn [contains] in *. intros H. apply orb_true_iff in H as [H|H].
    + rewrite H. reflexivity.
    + rewrite (IH H). apply orb_true_r.
Qed.

Lemma lf_only_last_tail c (s : string) :
  lf_only_last (String c s) = true -> lf_only_last s = true.
Proof.
  destruct s as [|a s]; [reflexivity|]. cbn [lf_only_last].
  intros H. apply andb_true_iff in H as [_ H]. exact H.
Qed.

Lemma lf_only_last_lstrip (s : string) :
  lf_only_last s = true -> lf_only_last (lstrip s) = true.
Proof.
  induction s as [|c s IH]; [reflexivity|]. intros H. cbn [lstrip].
  destruct (isspace c); [|exact H].
  apply IH, (lf_only_last_tail c), H.
Qed.

Lemma isspace_LF : isspace LF = true.
Proof. reflexivity. Qed.

Lemma rstrip_no_lf (s : string) :
  lf_only_last s = true -> contains LF (rstrip s) = false.
Proof.
  induction s as [|c s IH]; [reflexivity|]. intros H.
  pose proof (IH (lf_only_last_tail c s H)) as IH'. cbn [rstrip].
  destruct s as [|a s].
  - cbn [rstrip]. destruct (isspace c) eqn:Hc; [reflexivity|].
    cbn [contains]. destruct (Ascii.eqb LF c) eqn:He; [|reflexivity].
    apply Ascii.eqb_eq in He. subst c. rewrite isspace_LF in Hc.
    discriminate.
  - cbn [lf_only_last] in H. apply andb_true_iff in H as [Hc _].
    apply negb_true_iff in Hc.
    assert (Hc' : Ascii.eqb LF c = false)
      by (rewrite Ascii.eqb_sym; exact Hc).
    destruct (rstrip (String a s)) as [|b t].
    + destruct (isspace c); [reflexivity|]. cbn [contains].
      rewrite Hc'. reflexivity.
    + cbn [contains] in *. rewrite Hc', IH'. reflexivity.
Qed.

Lemma lines_lf_only_last (s l : string) :
  In l (lines s) -> lf_only_last l = true.
Proof.
  revert l. induction s as [|c s IH]; intros l; [intros []|]. cbn [lines].
  destruct (Ascii.eqb c LF) eqn:Hc.
  - intros [<-|Hin]; [reflexivity | exact (IH _ Hin)].
  - destruct (lines s) as [|l0 ls] eqn:Hl.
    + intros [<-|[]]. reflexivity.
    + intros [<-|Hin]; [|apply IH; right; exact Hin].
      pose proof (IH l0 (or_introl eq_refl)) as H0.
      destruct l0 as [|a t]; [reflexivity|].
      cbn [lf_only_last] in *. rewrite Hc. exact H0.
Qed.

Lemma lines_contains c (s l : string) :
  In l (lines s) -> contains c l = true -> contains c s = true.
Proof.
  revert l. induction s as [|a s IH]; intros l; [intros []|]. cbn [lines].
  destruct (Ascii.eqb a LF) eqn:Ha.
  - intros [<-|Hin] H.
    + apply Ascii.eqb_eq in Ha. subst a. cbn [contains] in *.
      rewrite orb_false_r in H. rewrite H. reflexivity.
    + cbn [contains]. rewrite (IH _ Hin H). apply orb_true_r.
  - destruct (lines s) as [|l0 ls] eqn:Hl.
    + intros [<-|[]] H. cbn [contains] in *. rewrite orb_false_r in H.
      rewrite H. reflexivity.
    + intros [<-|Hin] H.
      * cbn [contains] in *.
        apply orb_true_iff in H as [H|H]; [rewrite H; reflexivity|].
        rewrite (IH l0 (or_introl eq_refl) H). apply orb_true_r.
      * cbn [contains]. rewrite (IH l (or_intror Hin) H). apply orb_true_r.
Qed.

Lemma universal_newlines_no_cr (s : string) :
  contains CR (universal_newlines s) = false.
Proof.
  assert (H : contains CR (universal_newlines s) = false /\
              forall c, contains CR (universal_newlines (String c s)) = false).
  { induction s as [|a s [IH1 IH2]].
    - split; [reflexivity|]. intros c. cbn [universal_newlines].
      destruct (Ascii.eqb c CR) eqn:Hc; cbn [contains]; [reflexivity|].
      rewrite Ascii.eqb_sym, Hc. reflexivity.
    - split; [apply IH2|]. intros c.
      change (universal_newlines (String c (String a s)))
        with (if Ascii.eqb c CR
              then if Ascii.eqb a LF then String LF (universal_newlines s)
                   else String LF (universal_newlines (String a s))
              else String c (universal_newlines (String a s))).
      destruct (Ascii.eqb c CR) eqn:Hc.
      + destruct (Ascii.eqb a LF); cbn [contains];
          rewrite ?IH1, ?IH2; reflexivity.
      + cbn [contains]. rewrite Ascii.eqb_sym, Hc, IH2. reflexivity. }
  exact (proj1 H).
Qed.

End RosterFacts.

Section Further.

Context {E : Type}.
Implicit Types (w : World E) (svc : SyncService E).

(** *** Directories without links between their entries *)

Lemma no_sibling_links_lookup (d : gmap string Node) :
  no_sibling_links d = true <->
  forall name, is_sibling_link (d !! name) = false.
Proof.
  unfold no_sibling_links. rewrite forallb_forall. split.
  - intros H name. destruct (d !! name) as [v|] eqn:Hl; [|reflexivity].
    apply negb_true_iff.
    apply (H (name, v)), list_elem_of_In, elem_of_map_to_list, Hl.
  - intros H [name v] Hin.
    apply list_elem_of_In, elem_of_map_to_list in Hin.
    specialize (H name). rewrite Hin in H. cbn [snd]. rewrite H.
    reflexivity.
Qed.

(** There [os.path.isfile] does not depend on the other entries. *)
Lemma resolves_static fuel (d : gmap string Node) name :
  (forall n, is_sibling_link (d !! n) = false) ->
  resolves_to_file fuel d name = always_file (d !! name).
Proof.
  intros H. specialize (H name).
  destruct fuel; cbn [resolves_to_file];
    destruct (d !! name) as [[r| | |[t|[]] r]|]; try reflexivity;
    discriminate.
Qed.

Lemma lookup_fold_left_delete (names : list string) (d : gmap string Node) k :
  fold_left (fun d n => delete n d) names d !! k
  = if listed k names then None else d !! k.
Proof.
  revert d. induction names as [|n names IH]; intros d; [reflexivity|].
  cbn [fold_left listed existsb]. rewrite IH. fold (listed k names).
  destruct (String.eqb_spec k n) as [->|Hne]; cbn [orb].
  - rewrite lookup_delete_eq. destruct (listed n names); reflexivity.
  - rewrite lookup_delete_ne by congruence. reflexivity.
Qed.

Lemma listed_in name names : listed name names = true <-> In name names.
Proof.
  unfold listed. rewrite existsb_exists. split.
  - intros (n & Hin & Hn). apply String.eqb_eq in Hn. subst n. exact Hin.
  - intros Hin. exists name. split; [exact Hin | apply String.eqb_refl].
Qed.

Lemma listed_files_among (d : gmap string Node) name names :
  listed name (files_among d names)
  = listed name names && always_file (d !! name).
Proof.
  unfold files_among. induction names as [|n names IH]; [reflexivity|].
  cbn [List.filter]. destruct (String.eqb_spec name n) as [->|Hne].
  - destruct (always_file (d !! n)) eqn:Ha.
    + cbn [listed existsb]. rewrite String.eqb_refl. reflexivity.
    + rewrite IH, !andb_false_r. reflexivity.
  - assert (Hb : String.eqb name n = false) by (apply String.eqb_neq, Hne).
    destruct (always_file (d !! n)); cbn [listed existsb]; rewrite Hb;
      cbn [orb]; exact IH.
Qed.

Lemma files_among_ext (d d' : gmap string Node) names :
  (forall n, In n names -> d' !! n = d !! n) ->
  files_among d' names = files_among d names.
Proof.
  intros H. unfold files_among. induction names as [|n names IH];
    [reflexivity|].
  cbn [List.filter]. rewrite (H n (or_introl eq_refl)).
  rewrite IH by (intros m Hm; apply H; right; exact Hm). reflexivity.
Qed.

(** In a directory without links between its entries the loop goes
    through the names [pre], deleting those that are files, as long as
    each of them can be deleted. *)
Lemma clear_loop_static pre rest w :
  (forall n, is_sibling_link (w_staging w !! n) = false) ->
  List.NoDup pre ->
  files_deletable (w_staging w) pre = true ->
  let kept := files_among (w_staging w) pre in
  let w1 := set_staging
              (fold_left (fun d n => delete n d) kept (w_staging w)) w in
  let r := clear_loop rest w1 in
  clear_loop (pre ++ rest) w
  = {| events := map unlinked kept ++ events r;
       final := final r;
       result := result r |}.
Proof.
  cbv zeta. revert w. induction pre as [|n pre IH]; intros w Hs Hnd Hdel.
  - cbn [app files_among List.filter fold_left map].
    rewrite set_staging_same. destruct (clear_loop rest w). reflexivity.
  - apply List.NoDup_cons_iff in Hnd as [Hn Hnd].
    cbn [files_deletable forallb] in Hdel.
    apply andb_true_iff in Hdel as [Hdn Hdel].
    cbn [app]. rewrite clear_loop_cons, (resolves_static _ _ _ Hs).
    unfold files_among. cbn [List.filter].
    destruct (always_file (w_staging w !! n)) eqn:Ha.
    + cbn [negb orb] in Hdn. unfold deletable in Hdn.
      pose proof (always_file_resolves max_links _ _ Ha) as Hr.
      apply resolves_file_like in Hr as [rm Hrm]. rewrite Hrm in *.
      destruct rm; [|discriminate]. cbv zeta.
      set (w' := set_staging (delete n (w_staging w)) w).
      assert (Hst : forall m, m <> n ->
                w_staging w' !! m = w_staging w !! m)
        by (intros m Hm; cbn; apply lookup_delete_ne; congruence).
      assert (Hpre : forall m, In m pre ->
                w_staging w' !! m = w_staging w !! m)
        by (intros m Hm; apply Hst; intros ->; contradiction).
      rewrite (IH w').
      * fold (files_among (w_staging w') pre).
        fold (files_among (w_staging w) pre).
        rewrite (files_among_ext _ _ _ Hpre). reflexivity.
      * intros m. destruct (string_dec m n) as [->|Hne].
        -- cbn. rewrite lookup_delete_eq. reflexivity.
        -- rewrite Hst by exact Hne. apply Hs.
      * exact Hnd.
      * unfold files_deletable. rewrite forallb_forall. intros m Hm.
        unfold files_deletable in Hdel. rewrite forallb_forall in Hdel.
        unfold deletable. rewrite (Hpre _ Hm). apply (Hdel _ Hm).
    + fold (files_among (w_staging w) pre). apply IH; assumption.
Qed.

(** X2. Clearing ends in one of three ways only: it returns, it ends in
    [sys.exit(1)], or the [OSError] of [os.listdir] propagates, since the
    listing is taken outside the [try]. The exception is raised exactly
    when the directory cannot be listed. In a directory without links
    between its entries the clear exits exactly when the directory can be
    listed and holds a regular file, or a link to a regular file, that
    cannot be removed; directories, special entries and links that do not
    resolve to a file never make it fail. *)
Theorem clear_ends_three_ways w :
  let c := clear_patients_to_sync_folder w in
  let d := w_staging w in
  (result c = Ok tt \/ result c = SysExit 1 \/
   result c = Raise (Exception "OSError")) /\
  (result c = Raise (Exception "OSError") <-> w_listable w = false) /\
  (no_sibling_links d = true ->
   (result c = SysExit 1 <->
    w_listable w = true /\
    exists name,
      always_file (d !! name) = true /\
      entry_removable (d !! name) = Some false)).
Proof.
  cbv zeta.
  destruct (clear_spec w) as (removed & tail & _ & _ & Hin & _ & Hend).
  destruct (w_listable w).
  - destruct (result (clear_patients_to_sync_folder w)) as [[]|s|e];
      [| |contradiction].
    + destruct Hend as (_ & Hfiles & _).
      split; [left; reflexivity|]. split; [split; discriminate|].
      intros _. split; [discriminate|].
      intros (_ & name & Ha & Hrm). exfalso.
      destruct (Hin _ (Hfiles _ Ha)) as [H1 _]. congruence.
    + destruct Hend as (-> & f & Hrm & Hkind & _).
      split; [right; left; reflexivity|]. split; [split; discriminate|].
      intros Hs. split; [|reflexivity]. intros _. split; [reflexivity|].
      exists f. split; [|exact Hrm].
      rewrite (resolves_static _ _ _ (proj1 (no_sibling_links_lookup _) Hs))
        in Hkind.
      exact Hkind.
  - destruct Hend as (_ & _ & -> & _).
    split; [right; right; reflexivity|]. split; [split; reflexivity|].
    intros _. split; [discriminate | intros [H _]; discriminate].
Qed.

(** X3. A failed clear keeps the deletions made before the failure and
    attempts nothing after it: in a directory without links between its
    entries, when [f] is the first listed name that is a file and cannot
    be removed, the clear deleted exactly the files listed before [f], in
    listing order, then failed on [f] and ended in [sys.exit(1)]; those
    files are gone, and [f], everything listed after it and every entry
    that is not a file are as they were. *)
Theorem failed_clear_keeps_earlier_deletions w pre f post :
  let c := clear_patients_to_sync_folder w in
  let d := w_staging w in
  w_listable w = true ->
  no_sibling_links d = true ->
  listing (w_rank w) d = pre ++ f :: post ->
  files_deletable d pre = true ->
  always_file (d !! f) = true ->
  entry_removable (d !! f) = Some false ->
  events c
  = EvListdir patients_to_sync_dir
    :: map unlinked (files_among d pre)
    ++ [EvUnlink (path_join patients_to_sync_dir f) false] /\
  result c = SysExit 1 /\
  forall name,
    w_staging (final c) !! name
    = if listed name pre && always_file (d !! name) then None else d !! name.
Proof.
  cbv zeta. intros Hl Hs Hlist Hdel Ha Hrm.
  assert (Hs' := proj1 (no_sibling_links_lookup _) Hs).
  clear Hs. rename Hs' into Hs.
  pose proof (listing_nodup (w_rank w) (w_staging w)) as Hnd.
  rewrite Hlist in Hnd.
  assert (Hpre : List.NoDup pre)
    by (apply List.NoDup_app_remove_r in Hnd; exact Hnd).
  assert (Hf : ~ In f pre).
  { intros Hf. apply List.NoDup_remove_2 in Hnd. apply Hnd.
    apply in_or_app. left. exact Hf. }
  rewrite clear_as_loop, Hl, Hlist. cbv zeta.
  rewrite (clear_loop_static pre (f :: post) w Hs Hpre Hdel). cbv zeta.
  set (d1 := fold_left (fun d n => delete n d)
               (files_among (w_staging w) pre) (w_staging w)).
  assert (Hd1 : forall name,
            d1 !! name
            = if listed name pre && always_file (w_staging w !! name)
              then None else w_staging w !! name).
  { intros name. subst d1.
    rewrite lookup_fold_left_delete, listed_files_among. reflexivity. }
  assert (Hf1 : d1 !! f = w_staging w !! f).
  { rewrite Hd1. destruct (listed f pre) eqn:Hlf; [|reflexivity].
    apply listed_in in Hlf. contradiction. }
  rewrite clear_loop_cons. cbn [w_staging set_staging set_shared snd].
  rewrite resolves_static, Hf1, Ha, Hrm.
  - cbn [events final result w_staging set_staging set_shared snd].
    split; [reflexivity|]. split; [reflexivity | exact Hd1].
  - intros n. rewrite Hd1.
    destruct (listed n pre && always_file (w_staging w !! n));
      [reflexivity | apply Hs].
Qed.

(** X4. A clear that meets no entry it cannot delete makes, after one
    listing, exactly one successful deletion per file, each by the file's
    path under [patients_to_sync/], in listing order, and attempts nothing
    else: in a directory without links between its entries the files
    (regular files and links to regular files) are gone and everything
    else is as it was. *)
Theorem clear_unlinks_each_file_once w :
  let c := clear_patients_to_sync_folder w in
  let d := w_staging w in
  w_listable w = true ->
  no_sibling_links d = true ->
  files_deletable d (listing (w_rank w) d) = true ->
  events c
  = EvListdir patients_to_sync_dir
    :: map unlinked (files_among d (listing (w_rank w) d)) /\
  result c = Ok tt /\
  forall name,
    w_staging (final c) !! name
    = if always_file (d !! name) then None else d !! name.
Proof.
  cbv zeta. intros Hl Hs Hdel.
  assert (Hs' := proj1 (no_sibling_links_lookup _) Hs).
  clear Hs. rename Hs' into Hs.
  pose proof (listing_nodup (w_rank w) (w_staging w)) as Hnd.
  rewrite clear_as_loop, Hl. cbv zeta.
  pose proof (clear_loop_static _ [] w Hs Hnd Hdel) as Hloop.
  cbv zeta in Hloop. cbn [clear_loop ret events final result] in Hloop.
  rewrite !app_nil_r in Hloop. rewrite Hloop.
  cbn [events final result w_staging set_staging set_shared snd].
  split; [reflexivity|]. split; [reflexivity|].
  intros name. rewrite lookup_fold_left_delete, listed_files_among.
  destruct (always_file (w_staging w !! name)) eqn:Ha;
    [|rewrite andb_false_r; reflexivity].
  rewrite andb_true_r.
  assert (Hin : listed name (listing (w_rank w) (w_staging w)) = true).
  { apply listed_in, listing_in. intros Hnone. rewrite Hnone in Ha.
    discriminate. }
  rewrite Hin. reflexivity.
Qed.

(** X5. Clearing is idempotent: after a clear that returned, a second
    clear returns as well, deletes nothing and leaves the world as the
    first one left it. *)
Theorem clear_twice_is_clear_once w :
  let c := clear_patients_to_sync_folder w in
  let c2 := clear_patients_to_sync_folder (final c) in
  result c = Ok tt ->
  result c2 = Ok tt /\
  events c2 = [EvListdir patients_to_sync_dir] /\
  final c2 = final c.
Proof.
  cbv zeta. intros Hok.
  destruct (clear_spec w) as (removed & tail & _ & _ & _ & _ & Hend).
  destruct (clear_run w) as (Hfin & _).
  rewrite Hok in Hend.
  destruct (w_listable w) eqn:Hl;
    [|destruct Hend as (_ & _ & Hres & _); discriminate].
  destruct Hend as (_ & _ & Hnone).
  set (w1 := final (clear_patients_to_sync_folder w)) in *.
  assert (Hl1 : w_listable w1 = true) by (rewrite Hfin; exact Hl).
  rewrite clear_as_loop, Hl1. cbv zeta.
  rewrite (clear_loop_nothing _ _ Hnone). repeat split.
Qed.

(** X1. The identifiers [read_location_ids] returns are usable as they
    are: the list is not empty, and every identifier is non-empty, carries
    no whitespace at either end (stripping it again changes nothing) and
    holds no line feed or carriage return. *)
Theorem roster_ids_are_clean file_path w ids :
  result (read_location_ids file_path w) = Ok ids ->
  ids <> [] /\
  forall id, In id ids ->
    id <> EmptyString /\ Text.strip id = id /\
    contains Text.LF id = false /\ contains Text.CR id = false.
Proof.
  unfold read_location_ids, bind, gets. cbn [events final result].
  destruct (w_text w !! file_path) as [content|]; [|discriminate].
  set (kept := List.filter (fun line => Text.truthy (Text.strip line))
                 (Text.file_lines content)).
  destruct (map Text.strip kept) as [|i0 is0] eqn:Hmap; [discriminate|].
  cbn. intros [= <-]. split; [discriminate|].
  intros id Hin. rewrite <- Hmap in Hin.
  apply in_map_iff in Hin as (line & <- & Hline).
  apply List.filter_In in Hline as [Hline Htruthy].
  split; [intros Hnil; rewrite Hnil in Htruthy; discriminate|].
  split; [apply RosterFacts.strip_idem|].
  unfold Text.file_lines in Hline. split.
  - apply RosterFacts.rstrip_no_lf, RosterFacts.lf_only_last_lstrip.
    exact (RosterFacts.lines_lf_only_last _ _ Hline).
  - destruct (contains Text.CR (Text.strip line)) eqn:Hcr; [|reflexivity].
    unfold Text.strip in Hcr.
    apply RosterFacts.contains_rstrip, RosterFacts.contains_lstrip in Hcr.
    apply (RosterFacts.lines_contains _ _ _ Hline) in Hcr.
    rewrite RosterFacts.universal_newlines_no_cr in Hcr. discriminate.
Qed.

(** *** Location runs, outcome by outcome *)

Lemma run_tail_source_calls id loc entry o :
  List.filter is_source_call (run_tail id loc entry o)
  = match o with
    | ClearFailed | ListingFailed _ => []
    | ConnectRaised e => [EvConnect (Raises e)]
    | FetchRaised e =>
        [EvConnect (Returns tt); EvFetch loc [] (Raises e)]
    | FetchNone =>
        [EvConnect (Returns tt); EvFetch loc [] (Returns None)]
    | UnitRaised m _ _ _ _ | UnitsDone m _ | RecordFailed m _ _ _ =>
        [EvConnect (Returns tt); EvFetch loc [] (Returns (Some m))]
    end.
Proof.
  assert (Hu : forall items,
             List.filter is_source_call (flat_map (unit_events id loc) items)
             = []).
  { intros items. apply filter_unit_events_nil.
    intros [] H; try discriminate; reflexivity. }
  destruct o as [|e|e| |m done u rest e|m up|e|m done u rest];
    unfold run_tail, tracker_events, outcome_events, snapshot_events;
    rewrite ?List.filter_app; cbn [List.filter is_source_call app];
    rewrite ?List.filter_app, ?Hu; destruct entry; reflexivity.
Qed.

Lemma run_tail_upload_raise id loc entry o :
  List.filter is_upload_raise (run_tail id loc entry o)
  = match o with
    | UnitsDone _ (Raises e) => [EvUpload (Raises e)]
    | _ => []
    end.
Proof.
  assert (Hu : forall items,
             List.filter is_upload_raise (flat_map (unit_events id loc) items)
             = []).
  { intros items. apply filter_unit_events_nil.
    intros [] H; try discriminate; reflexivity. }
  destruct o as [|e|e| |m done u rest e|m [[]|e]|e|m done u rest];
    unfold run_tail, tracker_events, outcome_events, snapshot_events;
    rewrite ?List.filter_app; cbn [List.filter is_upload_raise app];
    rewrite ?List.filter_app, ?Hu; destruct entry; reflexivity.
Qed.

(** X7. A location run calls the source store in one of three ways only:
    not at all (the clear did not return), [connect] alone (it raised), or
    [connect] followed by one fetch for the run's own location with the
    empty encounter-type list. Nothing is retried, and the fetch is never
    attempted after a failed [connect]. *)
Theorem source_is_called_once svc loc pt w :
  let calls := List.filter is_source_call
                 (events (process_location loc svc pt w)) in
  calls = [] \/
  (exists e, calls = [EvConnect (Raises e)]) \/
  (exists reply, calls = [EvConnect (Returns tt); EvFetch loc [] reply]).
Proof.
  cbv zeta. destruct (process_location_outcome loc svc pt w) as (o & Ho).
  rewrite (run_filter is_source_call _ _ _ _ Ho);
    [|reflexivity | intros [] H; try discriminate; reflexivity].
  rewrite run_tail_source_calls.
  destruct o; eauto.
Qed.

(** X11. Once the staging clear has returned, a location run constructs
    its tracker, asks it for the location's progress, resets the location
    when it is new, and then calls [connect], in this order and whatever
    happens afterwards: a new location is reset even when [connect] or the
    fetch then fails. *)
Theorem progress_is_looked_up_before_connect svc loc pt w :
  let c := clear_patients_to_sync_folder w in
  let r := process_location loc svc pt w in
  result c = Ok tt ->
  exists reply rest,
    events r
    = EvLocation loc :: events c
      ++ tracker_events (w_next_id w) loc (document progress_file w !! loc)
      ++ EvConnect reply :: rest.
Proof.
  cbv zeta. intros Hok.
  destruct (process_location_outcome loc svc pt w)
    as (o & Hev & _ & Hc & _).
  cbv zeta in Hev. rewrite Hev.
  destruct o as [|e|e| |m done u rest e|m up|e|m done u rest];
    try congruence; unfold run_tail, outcome_events; eauto.
Qed.

(** X12. A location run that reaches the upload has appended every
    PatientId of the snapshot, in snapshot order, to the location's
    progress entry, after what the entry held; identifiers already in the
    entry are appended again (nothing is de-duplicated), and the entries of
    the other locations are as they were. *)
Theorem completed_run_appends_snapshot svc loc pt w upload :
  let r := process_location loc svc pt w in
  In (EvUpload upload) (events r) ->
  exists snap,
    In (EvLoad encounters_file snap) (events r) /\
    document progress_file (final r) !! loc
    = Some (default [] (document progress_file w !! loc) ++ map fst snap) /\
    forall l, l <> loc ->
      document progress_file (final r) !! l = document progress_file w !! l.
Proof.
  cbv zeta. intros Hin.
  destruct (process_location_outcome loc svc pt w) as (o & Ho).
  assert (Hup : uploads (events (process_location loc svc pt w))
                = match o with UnitsDone _ _ => 1 | _ => 0 end).
  { destruct Ho as (Hev & _). rewrite Hev.
    change (EvLocation loc :: ?a ++ ?b) with ([EvLocation loc] ++ a ++ b).
    rewrite !uploads_app.
    destruct (clear_events_quiet _ (clear_events_only w))
      as (_ & _ & -> & _).
    destruct (run_tail_trace (w_next_id w) loc
                (document progress_file w !! loc) o) as (_ & _ & -> & _).
    reflexivity. }
  assert (Hpos : uploads (events (process_location loc svc pt w)) <> 0).
  { clear Hup. induction (events (process_location loc svc pt w))
      as [|ev evs IH]; [destruct Hin|].
    destruct Hin as [->|Hin]; [cbn; lia|].
    specialize (IH Hin). destruct ev; cbn; lia. }
  destruct o as [|e|e| |m done u rest e|m up|e|m done u rest]; try (rewrite Hup in Hpos; lia).
  destruct Ho as (Hev & _ & _ & _ & _ & _ & _ & Hdoc).
  exists (Json.dict_of_pairs m). split; [|split].
  - rewrite Hev. right. apply in_or_app. right.
    unfold run_tail, outcome_events, snapshot_events.
    apply in_or_app. right. cbn. tauto.
  - rewrite Hdoc. cbn [outcome_document].
    set (doc := document progress_file w).
    destruct (map fst (Json.dict_of_pairs m)) as [|p ps] eqn:Hps.
    + cbn. rewrite app_nil_r. unfold initialized.
      destruct (doc !! loc) eqn:Hl; [exact Hl|].
      rewrite lookup_insert_eq. reflexivity.
    + rewrite record_all_same by discriminate. unfold initialized.
      destruct (doc !! loc) eqn:Hl; [rewrite Hl; reflexivity|].
      rewrite lookup_insert_eq. reflexivity.
  - intros l Hne. rewrite Hdoc. cbn [outcome_document].
    rewrite record_all_other by exact Hne. unfold initialized.
    destruct (document progress_file w !! loc); [reflexivity|].
    apply lookup_insert_ne. congruence.
Qed.

(** *** Batches *)

(** The batch ends in the location run that holds an event after which a
    run never returns. *)
Lemma for_each_location_stops_at svc (P : Event -> bool) :
  (forall id f, P (EvNewTracker id f) = false) ->
  (forall loc pt w ev,
     In ev (events (process_location loc svc pt w)) -> P ev = true ->
     result (process_location loc svc pt w) <> Ok tt) ->
  forall locs w ev,
    In ev (events (for_each_location svc locs w)) -> P ev = true ->
    exists pre loc pt w1,
      events (for_each_location svc locs w)
      = pre ++ events (process_location loc svc pt w1) /\
      final (for_each_location svc locs w)
      = final (process_location loc svc pt w1) /\
      result (for_each_location svc locs w)
      = result (process_location loc svc pt w1) /\
      In ev (events (process_location loc svc pt w1)).
Proof.
  intros Hnew Hstop locs.
  induction locs as [|loc rest IH]; intros w ev Hin HP; [destruct Hin|].
  pose proof (for_each_location_cons svc loc rest w) as H. cbv zeta in H.
  set (t := {| pt_id := w_next_id w; pt_file := progress_file |}) in *.
  set (w' := set_next_id (S (w_next_id w)) w) in *.
  destruct (result (process_location loc svc t w')) as [[]|s|e] eqn:Hres.
  - destruct H as (He & Hfin & Hr). rewrite He, Hfin, Hr in *.
    destruct Hin as [Hin|Hin]; [subst ev; rewrite Hnew in HP; discriminate|].
    apply in_app_or in Hin as [Hin|Hin].
    + exfalso. exact (Hstop _ _ _ _ Hin HP Hres).
    + destruct (IH _ _ Hin HP) as (pre & l & pt & w1 & He1 & Hf1 & Hr1 & Hi1).
      exists (EvNewTracker (w_next_id w) progress_file
                :: events (process_location loc svc t w') ++ pre), l, pt, w1.
      rewrite He1, Hf1, Hr1. cbn [app]. rewrite <- app_assoc. repeat split.
      exact Hi1.
  - destruct H as (He & Hfin & Hr). rewrite He, Hfin, Hr in *.
    destruct Hin as [Hin|Hin]; [subst ev; rewrite Hnew in HP; discriminate|].
    exists [EvNewTracker (w_next_id w) progress_file], loc, t, w'.
    repeat split; [symmetry; exact Hres | exact Hin].
  - destruct H as (He & Hfin & Hr). rewrite He, Hfin, Hr in *.
    destruct Hin as [Hin|Hin]; [subst ev; rewrite Hnew in HP; discriminate|].
    exists [EvNewTracker (w_next_id w) progress_file], loc, t, w'.
    repeat split; [symmetry; exact Hres | exact Hin].
Qed.

(** An upload that raised is the last event of its location run, which
    ends in that exception. *)
Lemma run_outcome_upload_raise loc w (r : Run E unit) o e :
  run_outcome loc w r o ->
  In (EvUpload (Raises e)) (events r) ->
  (exists pre, events r = pre ++ [EvUpload (Raises e)]) /\
  result r = Raise e.
Proof.
  intros Ho Hin.
  assert (Hf : In (EvUpload (Raises e))
                 (List.filter is_upload_raise (events r)))
    by (apply List.filter_In; split; [exact Hin | reflexivity]).
  rewrite (run_filter is_upload_raise _ _ _ _ Ho) in Hf;
    [|reflexivity | intros [] H; try discriminate; reflexivity].
  rewrite run_tail_upload_raise in Hf.
  destruct Ho as (Hev & Hres & _).
  destruct o as [|e'|e'| |m done u rest e'|m [[]|e']|e'|m done u rest];
    try (destruct Hf; fail).
  destruct Hf as [[= ->]|[]]. split; [|exact Hres].
  exists (EvLocation loc :: events (clear_patients_to_sync_folder w)
            ++ tracker_events (w_next_id w) loc
                 (document progress_file w !! loc)
            ++ EvConnect (Returns tt) :: snapshot_events loc m
            ++ flat_map (unit_events (w_next_id w) loc) (Json.dict_of_pairs m)).
  rewrite Hev. unfold run_tail, outcome_events.
  repeat first [rewrite <- app_assoc | progress cbn [app]]. reflexivity.
Qed.

(** X8. The upload call is outside the [try]: when the upload
    collaborator raises, the exception is not turned into [sys.exit(1)],
    it propagates out of [main]. That call is the last event of the
    process (no later location is attempted) and the interpreter exits
    with status 1. *)
Theorem upload_failure_propagates svc w e :
  let r := main svc w in
  In (EvUpload (Raises e)) (events r) ->
  (exists pre, events r = pre ++ [EvUpload (Raises e)]) /\
  result r = Raise e /\
  exit_status (result r) = 1%Z.
Proof.
  cbv zeta. rewrite main_run. destruct (roster w) as [|l ls]; [intros []|].
  intros Hin.
  destruct (for_each_location_stops_at svc is_upload_raise
              (fun _ _ => eq_refl)) with (locs := l :: ls) (w := w)
              (ev := EvUpload (Raises e))
    as (pre & loc & pt & w1 & Hev & _ & Hres & Hin1);
    [|exact Hin | reflexivity|].
  - intros loc pt w1 ev Hin1 HP.
    destruct ev as [| | | | | | | | | | | | |[|e']|]; try discriminate.
    destruct (process_location_outcome loc svc pt w1) as (o & Ho).
    destruct (run_outcome_upload_raise _ _ _ _ _ Ho Hin1) as (_ & ->).
    discriminate.
  - destruct (process_location_outcome loc svc pt w1) as (o & Ho).
    destruct (run_outcome_upload_raise _ _ _ _ _ Ho Hin1)
      as ((pre1 & Hev1) & Hres1).
    rewrite Hev, Hres, Hev1, Hres1. split; [|split; reflexivity].
    exists (pre ++ pre1). rewrite app_assoc. reflexivity.
Qed.

(** A location run either returns, and then it entered its location once,
    uploaded once and shows no failure; or the process status is 1. *)
Lemma process_location_status loc svc pt w :
  let r := process_location loc svc pt w in
  (result r = Ok tt /\
   locations_of (events r) = [loc] /\
   uploads (events r) = 1 /\
   forallb (fun ev => negb (is_failure ev)) (events r) = true) \/
  exit_status (result r) = 1%Z.
Proof.
  cbv zeta. destruct (process_location_outcome loc svc pt w) as (o & Ho).
  destruct (result (process_location loc svc pt w)) as [[]|s|e] eqn:Hres.
  - left. split; [reflexivity|].
    pose proof Ho as (Hev & Hres' & _).
    rewrite Hres in Hres'.
    destruct o as [|e|e| |m done u rest e|m [[]|e]|e|m done u rest]; try discriminate.
    destruct (clear_events_quiet _ (clear_events_only w))
      as (_ & _ & Hcu & Hcl & _).
    destruct (run_tail_trace (w_next_id w) loc
                (document progress_file w !! loc) (UnitsDone m (Returns tt)))
      as (_ & _ & Htu & Htl & _).
    split; [|split].
    + rewrite Hev. cbn [locations_of]. rewrite locations_of_app, Hcl, Htl.
      reflexivity.
    + rewrite Hev. cbn [uploads]. rewrite uploads_app, Hcu, Htu. reflexivity.
    + apply forallb_forall. intros ev Hin. unfold is_failure.
      destruct (is_fatal ev) eqn:Hfat.
      * destruct (run_outcome_fatal _ _ _ _ _ Ho Hin Hfat) as (_ & Hst & _).
        rewrite Hres in Hst. discriminate.
      * destruct (is_upload_raise ev) eqn:Hup; [|reflexivity].
        destruct ev as [| | | | | | | | | | | | |[|e']|]; try discriminate.
        destruct (run_outcome_upload_raise _ _ _ _ _ Ho Hin) as (_ & Hr).
        congruence.
  - right. destruct Ho as (_ & Hres' & _). rewrite Hres in Hres'.
    destruct o as [|e|e| |m done u rest e|m [[]|e]|e|m done u rest]; try discriminate;
      injection Hres' as ->; reflexivity.
  - right. reflexivity.
Qed.

Lemma for_each_location_status svc locs w :
  let r := for_each_location svc locs w in
  (result r = Ok tt /\
   locations_of (events r) = locs /\
   uploads (events r) = length locs /\
   forallb (fun ev => negb (is_failure ev)) (events r) = true) \/
  exit_status (result r) = 1%Z.
Proof.
  cbv zeta. revert w. induction locs as [|loc rest IH]; intros w.
  - left. repeat split.
  - pose proof (for_each_location_cons svc loc rest w) as H. cbv zeta in H.
    set (t := {| pt_id := w_next_id w; pt_file := progress_file |}) in *.
    set (w' := set_next_id (S (w_next_id w)) w) in *.
    destruct (process_location_status loc svc t w')
      as [(Hok & Hl & Hu & Hq)|Hst].
    + rewrite Hok in H. destruct H as (He & _ & Hr). rewrite He, Hr.
      destruct (IH (final (process_location loc svc t w')))
        as [(Hok' & Hl' & Hu' & Hq')|Hst']; [left|right; exact Hst'].
      split; [exact Hok'|]. cbn [locations_of uploads forallb].
      rewrite locations_of_app, uploads_app, forallb_app, Hl, Hl', Hu, Hu',
        Hq, Hq'.
      repeat split.
    + right. destruct (result (process_location loc svc t w')) as [[]|s|e];
        [discriminate|..]; destruct H as (_ & _ & ->); exact Hst.
Qed.

(** X9. The process exits with status 0 or 1, never anything else; and
    status 0 means the whole roster went through: the roster was not
    empty, every location of it was entered, in order, each was handed to
    the upload collaborator once, and no deletion, connection, fetch,
    per-unit call, recording or upload failed. *)
Theorem exit_status_of_main svc w :
  let r := main svc w in
  (exit_status (result r) = 0%Z \/ exit_status (result r) = 1%Z) /\
  (exit_status (result r) = 0%Z ->
   roster w <> [] /\
   locations_of (events r) = roster w /\
   uploads (events r) = length (roster w) /\
   forallb (fun ev => negb (is_failure ev)) (events r) = true).
Proof.
  cbv zeta. rewrite main_run. destruct (roster w) as [|l ls] eqn:Hroster.
  - cbn. split; [right; reflexivity | discriminate].
  - destruct (for_each_location_status svc (l :: ls) w)
      as [(Hok & Hl & Hu & Hq)|Hst].
    + rewrite Hok. split; [left; reflexivity|]. intros _.
      split; [discriminate|]. repeat split; assumption.
    + rewrite Hst. split; [right; reflexivity | discriminate].
Qed.


End Further.

(** ** The further properties on the scenarios *)

(** The scenario roster, with its blank line, stray blanks and CR LF line
    end, reads as the two identifiers. *)
Lemma roster_ids_are_clean_witness :
  let w := scenario_world ∅ in
  result (read_location_ids locations_file w) = Ok ["L1"; "L2"] /\
  (["L1"; "L2"] <> [] /\
   forall id, In id ["L1"; "L2"] ->
     id <> EmptyString /\ Text.strip id = id /\
     contains Text.LF id = false /\ contains Text.CR id = false).
Proof.
  cbv zeta.
  assert (H : result (read_location_ids locations_file (scenario_world ∅))
              = Ok ["L1"; "L2"]) by (vm_compute; reflexivity).
  split; [exact H|].
  exact (roster_ids_are_clean locations_file (scenario_world ∅) _ H).
Defined.

(** The scenario directory: the left-over file is deleted, the
    subdirectory is not attempted. *)
Lemma clear_unlinks_each_file_once_witness :
  let w := scenario_world ∅ in
  let c := clear_patients_to_sync_folder w in
  let d := w_staging w in
  files_among d (listing (w_rank w) d) = ["old.json"] /\
  events c
  = EvListdir patients_to_sync_dir
    :: map unlinked (files_among d (listing (w_rank w) d)) /\
  result c = Ok tt /\
  forall name,
    w_staging (final c) !! name
    = if always_file (d !! name) then None else d !! name.
Proof.
  cbv zeta. split; [vm_compute; reflexivity|].
  apply (clear_unlinks_each_file_once (scenario_world ∅));
    vm_compute; reflexivity.
Defined.

(** Three files listed as [a.json], [b.json], [c.json], the second of
    which cannot be removed: [a.json] is deleted, the deletion of [b.json]
    fails, and [c.json] is still there when the process exits. *)
Lemma failed_clear_keeps_earlier_deletions_witness :
  let w := scenario_world_locked in
  let c := clear_patients_to_sync_folder w in
  let d := w_staging w in
  listing (w_rank w) d = ["a.json"; "b.json"; "c.json"; "keep"] /\
  (events c
   = EvListdir patients_to_sync_dir
     :: map unlinked (files_among d ["a.json"])
     ++ [EvUnlink (path_join patients_to_sync_dir "b.json") false] /\
   result c = SysExit 1 /\
   forall name,
     w_staging (final c) !! name
     = if listed name ["a.json"] && always_file (d !! name)
       then None else d !! name).
Proof.
  cbv zeta. split; [vm_compute; reflexivity|].
  apply (failed_clear_keeps_earlier_deletions scenario_world_locked
           ["a.json"] "b.json" ["c.json"; "keep"]);
    vm_compute; reflexivity.
Defined.

Lemma clear_twice_is_clear_once_witness :
  let w := scenario_world ∅ in
  let c := clear_patients_to_sync_folder w in
  let c2 := clear_patients_to_sync_folder (final c) in
  result c = Ok tt /\
  result c2 = Ok tt /\
  events c2 = [EvListdir patients_to_sync_dir] /\
  final c2 = final c.
Proof.
  cbv zeta.
  assert (H : result (clear_patients_to_sync_folder (scenario_world ∅))
              = Ok tt) by (vm_compute; reflexivity).
  split; [exact H|].
  exact (clear_twice_is_clear_once (scenario_world ∅) H).
Defined.


(** The upload for [L1] raises: [L2] is never entered. *)
Lemma upload_failure_propagates_witness :
  let r := main scenario_service_upload_raises (scenario_world ∅) in
  In (EvUpload (Raises (Exception "upload refused"))) (events r) /\
  (exists pre,
     events r = pre ++ [EvUpload (Raises (Exception "upload refused"))]) /\
  result r = Raise (Exception "upload refused") /\
  exit_status (result r) = 1%Z.
Proof.
  cbv zeta.
  assert (H : In (EvUpload (Raises (Exception "upload refused")))
                 (events (main scenario_service_upload_raises
                            (scenario_world ∅)))) by in_trace.
  split; [exact H|].
  exact (upload_failure_propagates scenario_service_upload_raises
           (scenario_world ∅) (Exception "upload refused") H).
Defined.

(** The fetch for [L1] returns [None]: the new location was reset before
    [connect] all the same. *)
Lemma progress_is_looked_up_before_connect_witness :
  let w := scenario_world ∅ in
  let c := clear_patients_to_sync_folder w in
  let r := process_location "L1" (scenario_service "" "L1") scenario_tracker w in
  result c = Ok tt /\
  exists reply rest,
    events r
    = EvLocation "L1" :: events c
      ++ tracker_events (w_next_id w) "L1" (document progress_file w !! "L1")
      ++ EvConnect reply :: rest.
Proof.
  cbv zeta.
  assert (H : result (clear_patients_to_sync_folder (scenario_world ∅))
              = Ok tt) by (vm_compute; reflexivity).
  split; [exact H|].
  exact (progress_is_looked_up_before_connect (scenario_service "" "L1") "L1"
           scenario_tracker (scenario_world ∅) H).
Defined.

(** A re-run of [L1] with [P1] already recorded: the entry ends as
    [P1; P1; P2; P3]. *)
Lemma completed_run_appends_snapshot_witness :
  let w := scenario_world (<["L1" := ["P1"]]> ∅) in
  let r := process_location "L1" (scenario_service "" "") scenario_tracker w in
  In (EvUpload (Returns tt)) (events r) /\
  document progress_file (final r) !! "L1" = Some ["P1"; "P1"; "P2"; "P3"] /\
  exists snap,
    In (EvLoad encounters_file snap) (events r) /\
    document progress_file (final r) !! "L1"
    = Some (default [] (document progress_file w !! "L1") ++ map fst snap) /\
    forall l, l <> "L1" ->
      document progress_file (final r) !! l = document progress_file w !! l.
Proof.
  cbv zeta.
  assert (H : In (EvUpload (Returns tt))
                 (events (process_location "L1" (scenario_service "" "")
                            scenario_tracker
                            (scenario_world (<["L1" := ["P1"]]> ∅)))))
    by in_trace.
  split; [exact H|]. split; [vm_compute; reflexivity|].
  exact (completed_run_appends_snapshot (scenario_service "" "") "L1"
           scenario_tracker (scenario_world (<["L1" := ["P1"]]> ∅))
           (Returns tt) H).
Defined.
